(** * Session lifecycle and daily-cap reconciliation of the gym attendance tracker

    A shallow embedding of [gym_app/models.py], [gym_app/maintenance.py],
    the check-in/check-out path of [gym_app/serializers.py] and
    [gym_app/views.py], and [OLD_LOGS/merge_duplicates.py]; further on, of
    the RFID tap, the heatmap and the streaks, the [cap_session_durations]
    command, the admin action [mark_as_completed] and the repair scripts
    [close_open_sessions_before.py], [verify_no_open_before.py] and
    [cap_all_sessions.py].

    Conventions of the embedding:
    - an aware [datetime] is the instant it denotes, in microseconds since the
      epoch; a [timedelta] is a number of microseconds; a [date] is a day
      number (days since the epoch);
    - [timedelta.total_seconds()] is a float in Python; the embedding uses
      exact integer arithmetic, which agrees with the float computation of
      whole minutes for every span shorter than a century;
    - a table is the list of its rows and the primary key of a row is its
      position, so that [<[pk := row]>] is the UPDATE issued by [save()];
    - a call returns the store as it is afterwards, also when it raises:
      [inl e] is the exception [e] leaving the call, and a block under
      [transaction.atomic()] that raises leaves the store as it was;
    - of the column constraints the embedding has the one that the code
      can violate, [CHECK (duration_minutes >= 0)] of the
      [PositiveIntegerField] of a session, which makes [save()] raise
      [IntegrityError]; the totals of the daily statistics are sums of stored
      durations, which are not negative in a table that satisfies it. The
      upper bound of such a column depends on the database and is left out. *)

From Stdlib Require Import ZArith List Lia Bool Permutation Sorted.
From Stdlib Require Import Strings.String Strings.Ascii.
From stdpp Require Import gmap list strings.

Local Open Scope Z_scope.

(** ** Time *)

Definition datetime := Z.
Definition timedelta := Z.
Definition calendar_date := Z.

Definition us_per_second : Z := 1000000.
Definition us_per_minute : Z := 60 * us_per_second.
Definition us_per_day : Z := 86400 * us_per_second.

(** [timedelta(hours=h)] *)
Definition hours (h : Z) : timedelta := h * 3600 * us_per_second.

(** [int(d.total_seconds() / 60)]: true division, then truncation toward zero. *)
Definition minutes_trunc (d : timedelta) : Z := Z.quot d us_per_minute.

(** [int(d.total_seconds() // 60)]: floor division. *)
Definition minutes_floor (d : timedelta) : Z := d / us_per_minute.

(** [t.date()] for the UTC datetime returned by [timezone.now()]. *)
Definition datetime_date (t : datetime) : calendar_date := t / us_per_day.

(** The current time zone: the UTC offset (in microseconds) in force at a
    local wall-clock reading. *)
Definition tzinfo := Z -> timedelta.

(** [datetime.combine(d, time(23, 59, 59, tzinfo=tz))] *)
Definition _end_of_day (tz : tzinfo) (d : calendar_date) : datetime :=
  let wall := (d * 86400 + 86399) * us_per_second in
  wall - tz wall.

(** ** Exceptions *)

(** [django.db.IntegrityError]: the database has refused a row that violates
    a constraint of its table. *)
Inductive Exception := IntegrityError.

(** A [for] loop whose body may raise: the first exception ends the loop
    and leaves it. *)
Fixpoint for_each {A B : Type} (body : B -> A -> Exception + B) (l : list A) (acc : B)
  : Exception + B :=
  match l with
  | [] => inr acc
  | x :: l' =>
      match body acc x with
      | inl e => inl e
      | inr acc' => for_each body l' acc'
      end
  end.

(** ** Models *)

(** The columns of [Student] that the check-in path reads. *)
Record Student := mkStudent {
  student_id : string;
  student_is_active : bool
}.

(** [check_in_time] is a non-null column: it is always set and, being a
    datetime, always truthy. [student] is the primary key of the owner. *)
Record GymSession := mkGymSession {
  student : nat;
  check_in_time : datetime;
  check_out_time : option datetime;
  duration_minutes : Z;
  date : calendar_date;
  is_active : bool
}.

Record DailyGymStats := mkDailyGymStats {
  total_sessions : Z;
  total_minutes : Z
}.

(** The store: the students and sessions tables and the daily statistics,
    unique on (student, date). *)
Record DB := mkDB {
  students : list Student;
  gym_sessions : list GymSession;
  daily_stats : gmap (nat * Z) DailyGymStats
}.

Definition set_check_out_time (v : option datetime) (s : GymSession) : GymSession :=
  mkGymSession (student s) (check_in_time s) v (duration_minutes s) (date s) (is_active s).

Definition set_duration_minutes (v : Z) (s : GymSession) : GymSession :=
  mkGymSession (student s) (check_in_time s) (check_out_time s) v (date s) (is_active s).

Definition set_is_active (v : bool) (s : GymSession) : GymSession :=
  mkGymSession (student s) (check_in_time s) (check_out_time s) (duration_minutes s) (date s) v.

Definition set_gym_sessions (l : list GymSession) (db : DB) : DB :=
  mkDB (students db) l (daily_stats db).

Definition set_daily_stats (m : gmap (nat * Z) DailyGymStats) (db : DB) : DB :=
  mkDB (students db) (gym_sessions db) m.

(** The field computation of [GymSession.save], before the row is written. *)
Definition pre_save (s : GymSession) : GymSession :=
  match check_out_time s with
  | Some check_out =>
      let duration := check_out - check_in_time s in
      set_is_active false (set_duration_minutes (minutes_trunc duration) s)
  | None => s
  end.

(** [UPDATE gym_sessions SET ... WHERE id = pk], with the fields of [s]. *)
Definition update_row (pk : nat) (s : GymSession) (db : DB) : DB :=
  set_gym_sessions (<[pk := s]> (gym_sessions db)) db.

(** [super().save()] for a row loaded from the table under key [pk].
    [duration_minutes] is a [PositiveIntegerField]: its column is created
    with [CHECK (duration_minutes >= 0)], so the database refuses a negative
    value, Django raises [IntegrityError] and nothing is written. *)
Definition super_save (pk : nat) (s : GymSession) (db : DB) : Exception + DB :=
  if duration_minutes s <? 0 then inl IntegrityError
  else inr (update_row pk s db).

(** [session.save()] for a row loaded from the table under key [pk]. *)
Definition save (pk : nat) (s : GymSession) (db : DB) : Exception + DB :=
  super_save pk (pre_save s) db.

(** [with transaction.atomic():] entered with the store [db], around a
    block with the outcome [block]: when the block raises, what it wrote is
    rolled back and the exception leaves the [with] statement. *)
Definition atomic {A : Type} (db : DB) (block : Exception + A * DB)
  : (Exception + A) * DB :=
  match block with
  | inl e => (inl e, db)
  | inr (a, db') => (inr a, db')
  end.

(** [GymSession.objects.create(student=..., check_in_time=now, date=...)]:
    the defaults are [duration_minutes = 0], [is_active = True], so the row
    inserted satisfies the constraint of the column. *)
Definition create (st : nat) (now : datetime) (d : calendar_date) (db : DB)
  : nat * GymSession * DB :=
  let s := pre_save (mkGymSession st now None 0 d true) in
  (length (gym_sessions db), s, set_gym_sessions (gym_sessions db ++ [s]) db).

(** ** Queries *)

(** The rows of the sessions table with their primary keys. *)
Definition objects (db : DB) : list (nat * GymSession) :=
  imap pair (gym_sessions db).

Fixpoint insert_by {A : Type} (le : A -> A -> bool) (x : A) (l : list A) : list A :=
  match l with
  | [] => [x]
  | y :: l' => if le x y then x :: l else y :: insert_by le x l'
  end.

(** A stable sort; rows that compare equal keep their table order. *)
Definition order_by {A : Type} (le : A -> A -> bool) (l : list A) : list A :=
  foldr (insert_by le) [] l.

(** [order_by("check_in_time")] and the default [ordering = ['-check_in_time']]. *)
Definition by_check_in_time (r1 r2 : nat * GymSession) : bool :=
  check_in_time r1.2 <=? check_in_time r2.2.

Definition by_check_in_time_desc (r1 r2 : nat * GymSession) : bool :=
  check_in_time r2.2 <=? check_in_time r1.2.

Definition is_completed (s : GymSession) : bool :=
  match check_out_time s with Some _ => true | None => false end.

(** [filter(student=st, date=d, check_out_time__isnull=False)] *)
Definition completed_on (st : nat) (d : calendar_date) (s : GymSession) : bool :=
  Nat.eqb (student s) st && (date s =? d) && is_completed s.

Definition sum_minutes (l : list GymSession) : Z :=
  fold_right (fun s acc => duration_minutes s + acc) 0 l.

(** [GymSession.get_daily_gym_time(student, date)] *)
Definition get_daily_gym_time (db : DB) (st : nat) (d : calendar_date) : Z :=
  sum_minutes (List.filter (completed_on st d) (gym_sessions db)).

(** [GymSession.objects.filter(student=st, is_active=True).first()] *)
Definition active_session (db : DB) (st : nat) : option (nat * GymSession) :=
  head (order_by by_check_in_time_desc
          (List.filter (fun r => Nat.eqb (student r.2) st && is_active r.2) (objects db))).

(** [GymSession.can_check_in(student, date)] *)
Definition can_check_in (db : DB) (st : nat) (d : calendar_date) : bool * Z :=
  match active_session db st with
  | Some _ => (false, 0)
  | None =>
      let daily_minutes := get_daily_gym_time db st d in
      let max_daily_minutes := 120 in
      let remaining_minutes := max_daily_minutes - daily_minutes in
      (0 <? remaining_minutes, Z.max 0 remaining_minutes)
  end.

(** [DailyGymStats.update_daily_stats(student, date)]: [update_or_create]
    on the unique key (student, date). *)
Definition update_daily_stats (st : nat) (d : calendar_date) (db : DB) : DB :=
  let sessions := List.filter (completed_on st d) (gym_sessions db) in
  let total_sessions := Z.of_nat (length sessions) in
  let total_minutes := sum_minutes sessions in
  set_daily_stats (<[(st, d) := mkDailyGymStats total_sessions total_minutes]> (daily_stats db)) db.

(** ** Maintenance *)

(** The selection of [close_stale_sessions_before_today]:
    [filter(is_active=True, check_out_time__isnull=True, date__lt=today)]. *)
Definition is_stale (today : calendar_date) (s : GymSession) : bool :=
  is_active s && negb (is_completed s) && (date s <? today).

(** One iteration of the loop of [close_stale_sessions_before_today]. *)
Definition close_stale_step (tz : tzinfo)
    (acc : nat * gset (nat * Z) * DB) (row : nat * GymSession)
  : Exception + nat * gset (nat * Z) * DB :=
  let '(updated_sessions, updated_days, db) := acc in
  let '(pk, session) := row in
  let check_in := check_in_time session in
  let max_checkout_by_duration := check_in + hours 2 in
  let max_checkout_by_day := _end_of_day tz (date session) in
  let new_checkout := Z.min max_checkout_by_duration max_checkout_by_day in
  let duration_minutes := minutes_floor (new_checkout - check_in) in
  let duration_minutes := if duration_minutes <? 0 then 0 else duration_minutes in
  let session := set_check_out_time (Some new_checkout) session in
  let session := set_duration_minutes duration_minutes session in
  let session := set_is_active false session in
  match save pk session db with
  | inl e => inl e
  | inr db =>
      let db := update_daily_stats (student session) (date session) db in
      inr (S updated_sessions, {[ (student session, date session) ]} ∪ updated_days, db)
  end.

(** The queryset of the closer, in the default ordering of the model. *)
Definition stale_sessions (today : calendar_date) (db : DB) : list (nat * GymSession) :=
  order_by by_check_in_time_desc
    (List.filter (fun r => is_stale today r.2) (objects db)).

(** Returns [(updated_sessions, len(updated_days))], or raises what a
    [save] raised, with nothing closed. *)
Definition close_stale_sessions_before_today (tz : tzinfo) (now : datetime) (db : DB)
  : (Exception + nat * nat) * DB :=
  let today := datetime_date now in
  atomic db
    (let qs := stale_sessions today db in
     match for_each (close_stale_step tz) qs (O, ∅, db) with
     | inl e => inl e
     | inr (updated_sessions, updated_days, db) =>
         inr ((updated_sessions, size updated_days), db)
     end).

(** One iteration of the loop of [cap_sessions_on_previous_days_to_two_hours]. *)
Definition cap_step (tz : tzinfo)
    (acc : nat * nat * DB) (row : nat * GymSession) : Exception + nat * nat * DB :=
  let '(updated_sessions, examined_sessions, db) := acc in
  let '(pk, session) := row in
  let max_duration := hours 2 in
  let examined_sessions := S examined_sessions in
  let actual_checkout :=
    match check_out_time session with
    | Some check_out => check_out
    | None => _end_of_day tz (date session)
    end in
  let duration := actual_checkout - check_in_time session in
  if duration <=? max_duration then inr (updated_sessions, examined_sessions, db)
  else
    let capped_checkout := check_in_time session + max_duration in
    let new_duration_minutes := minutes_floor max_duration in
    let session := set_check_out_time (Some capped_checkout) session in
    let session := set_duration_minutes new_duration_minutes session in
    let session := set_is_active false session in
    match save pk session db with
    | inl e => inl e
    | inr db =>
        let db := update_daily_stats (student session) (date session) db in
        inr (S updated_sessions, examined_sessions, db)
    end.

(** The queryset of the capper: [filter(date__lt=today).order_by("check_in_time")]. *)
Definition sessions_before (today : calendar_date) (db : DB) : list (nat * GymSession) :=
  order_by by_check_in_time
    (List.filter (fun r => date r.2 <? today) (objects db)).

(** Returns [(examined_sessions, updated_sessions)]. *)
Definition cap_sessions_on_previous_days_to_two_hours
    (tz : tzinfo) (now : datetime) (db : DB) : (Exception + nat * nat) * DB :=
  let today := datetime_date now in
  atomic db
    (let qs := sessions_before today db in
     match for_each (cap_step tz) qs (O, O, db) with
     | inl e => inl e
     | inr (updated_sessions, examined_sessions, db) =>
         inr ((examined_sessions, updated_sessions), db)
     end).

(** The closer, then the capper; an exception of the closer leaves the
    function before the capper is called. *)
Definition run_daily_maintenance (tz : tzinfo) (now : datetime) (db : DB)
  : (Exception + unit) * DB :=
  match close_stale_sessions_before_today tz now db with
  | (inl e, db) => (inl e, db)
  | (inr _, db) =>
      match cap_sessions_on_previous_days_to_two_hours tz now db with
      | (inl e, db) => (inl e, db)
      | (inr _, db) => (inr tt, db)
      end
  end.

(** ** Check-in and check-out *)

Inductive action := CHECK_IN | CHECK_OUT.

(** The [ValidationError]s raised by [CheckInOutSerializer.validate]. *)
Inductive ValidationError :=
| student_not_found
| already_checked_in
| daily_limit_reached (remaining_minutes : Z)
| not_checked_in.

(** [Student.objects.get(student_id=sid, is_active=True)]; [student_id] is a
    unique column. *)
Definition get_student (db : DB) (sid : string) : option nat :=
  fst <$> list_find (fun s => String.eqb (student_id s) sid && student_is_active s = true)
            (students db).

(** [CheckInOutSerializer.validate]: the validated data carry the student
    and the active session found. *)
Definition validate (db : DB) (now : datetime) (sid : string) (a : action)
  : ValidationError + (nat * option (nat * GymSession)) :=
  match get_student db sid with
  | None => inl student_not_found
  | Some st =>
      let active := active_session db st in
      match a with
      | CHECK_IN =>
          match active with
          | Some _ => inl already_checked_in
          | None =>
              let '(can, remaining_minutes) := can_check_in db st (datetime_date now) in
              if can then inr (st, active)
              else inl (daily_limit_reached remaining_minutes)
          end
      | CHECK_OUT =>
          match active with
          | None => inl not_checked_in
          | Some _ => inr (st, active)
          end
      end
  end.

Inductive Response :=
| HTTP_201_CREATED (session : GymSession)
| HTTP_200_OK (session : GymSession) (daily_time_minutes : Z)
| HTTP_400_BAD_REQUEST (errors : ValidationError)
| HTTP_500_INTERNAL_SERVER_ERROR.

(** [GymCheckInOutView.post]. An exception inside the atomic block rolls
    the store back, is caught by the view and answered with status 500. *)
Definition post (db : DB) (now : datetime) (sid : string) (a : action) : Response * DB :=
  match validate db now sid a with
  | inl errors => (HTTP_400_BAD_REQUEST errors, db)
  | inr (st, active) =>
      match a, active with
      | CHECK_IN, _ =>
          let '(_, session, db) := create st now (datetime_date now) db in
          (HTTP_201_CREATED session, db)
      | CHECK_OUT, Some (pk, session) =>
          let session := set_check_out_time (Some now) session in
          match save pk session db with
          | inl _ => (HTTP_500_INTERNAL_SERVER_ERROR, db)
          | inr db' =>
              let session := pre_save session in
              let db' := update_daily_stats st (date session) db' in
              (HTTP_200_OK session (get_daily_gym_time db' st (date session)), db')
          end
      | CHECK_OUT, None => (HTTP_500_INTERNAL_SERVER_ERROR, db)
      end
  end.

(** ** Merging duplicate students ([OLD_LOGS/merge_duplicates.py]) *)

Module MergeDuplicates.

(** The keys of a candidate row that [choose_primary] reads. The embedding
    covers ASCII text: a string is a string of bytes, on which [\d] of
    Python's [re] is [0-9]. (On other text [\d] also matches the decimal
    digits of other scripts, which the embedding does not have.) *)
Record candidate := mkCandidate {
  id : Z;
  student_id : string;
  rfid : option string;
  registration_date : option string
}.

Definition is_digit (c : ascii) : bool :=
  let n := nat_of_ascii c in (48 <=? n)%nat && (n <=? 57)%nat.

Definition is_char (a c : ascii) : bool := Ascii.eqb a c.

(** [re.fullmatch(r"^202\d-(140|040)\d{3}$", s)] *)
Definition matches_preferred (s : string) : bool :=
  match list_ascii_of_string s with
  | [c0; c1; c2; c3; c4; c5; c6; c7; c8; c9; c10] =>
      is_char "2" c0 && is_char "0" c1 && is_char "2" c2 && is_digit c3 &&
      is_char "-" c4 &&
      (is_char "1" c5 || is_char "0" c5) && is_char "4" c6 && is_char "0" c7 &&
      is_digit c8 && is_digit c9 && is_digit c10
  | _ => false
  end.

(** [re.fullmatch(r"^20\d{2}-\d{6}$", s)] *)
Definition matches_valid (s : string) : bool :=
  match list_ascii_of_string s with
  | [c0; c1; c2; c3; c4; c5; c6; c7; c8; c9; c10] =>
      is_char "2" c0 && is_char "0" c1 && is_digit c2 && is_digit c3 &&
      is_char "-" c4 &&
      is_digit c5 && is_digit c6 && is_digit c7 &&
      is_digit c8 && is_digit c9 && is_digit c10
  | _ => false
  end.

Definition id_score (student_id : string) : Z :=
  if String.eqb student_id "" then 3
  else if matches_preferred student_id then 0
  else if matches_valid student_id then 1
  else 2.

Definition truthy (o : option string) : bool :=
  match o with
  | Some s => negb (String.eqb s "")
  | None => false
  end.

(** The sort key of [choose_primary]:
    [id_score(student_id) + (0 if rfid else 1, registration_date or "", id)]. *)
Definition key (r : candidate) : Z * Z * string * Z :=
  (id_score (student_id r),
   if truthy (rfid r) then 0 else 1,
   default ""%string (registration_date r),
   id r).

(** Python's ordering of tuples: lexicographic, strings by code point. *)
Definition key_le (k1 k2 : Z * Z * string * Z) : bool :=
  let '(a1, b1, c1, d1) := k1 in
  let '(a2, b2, c2, d2) := k2 in
  if a1 <? a2 then true else if a2 <? a1 then false
  else if b1 <? b2 then true else if b2 <? b1 then false
  else match String.compare c1 c2 with
       | Lt => true
       | Gt => false
       | Eq => d1 <=? d2
       end.

(** [sorted(rows, key=key)[0]]; an empty group raises [IndexError]. *)
Definition choose_primary (rows : list candidate) : option candidate :=
  head (order_by (fun r1 r2 => key_le (key r1) (key r2)) rows).

(** Two records of one person, both with a well-formed ID and an RFID
    tag, registered a year apart. *)
Definition registered_2024 : candidate :=
  mkCandidate 7 "2023-140001" (Some "04A1B2C3"%string) (Some "2024-01-10 08:00:00"%string).

Definition registered_2025 : candidate :=
  mkCandidate 3 "2023-140002" (Some "04D4E5F6"%string) (Some "2025-01-10 08:00:00"%string).

End MergeDuplicates.

(** ** The maintenance loops, row by row *)

(** The fields that the closer assigns to a stale session before saving it. *)
Definition close_assign (tz : tzinfo) (session : GymSession) : GymSession :=
  let check_in := check_in_time session in
  let new_checkout := Z.min (check_in + hours 2) (_end_of_day tz (date session)) in
  let duration_minutes := minutes_floor (new_checkout - check_in) in
  let duration_minutes := if duration_minutes <? 0 then 0 else duration_minutes in
  set_is_active false
    (set_duration_minutes duration_minutes
       (set_check_out_time (Some new_checkout) session)).

(** The fields that the capper assigns, or [None] when it skips the row. *)
Definition cap_assign (tz : tzinfo) (session : GymSession) : option GymSession :=
  let actual_checkout :=
    match check_out_time session with
    | Some check_out => check_out
    | None => _end_of_day tz (date session)
    end in
  if actual_checkout - check_in_time session <=? hours 2 then None
  else Some (set_is_active false
               (set_duration_minutes (minutes_floor (hours 2))
                  (set_check_out_time (Some (check_in_time session + hours 2)) session))).

(** What a loop iteration does to the store when its [save] returns: the
    row is written with the fields that [save] computes from the assigned
    ones, and the statistics of the row's (student, date) are recomputed. *)
Definition touch (upd : GymSession -> option GymSession)
    (db : DB) (row : nat * GymSession) : DB :=
  match upd row.2 with
  | Some s' => update_daily_stats (student s') (date s') (update_row row.1 (pre_save s') db)
  | None => db
  end.

(** [save] accepts the session: the duration that it computes is not
    negative. *)
Definition saves (s : GymSession) : bool := 0 <=? duration_minutes (pre_save s).

(** The store that the closer leaves when no [save] raises. *)
Definition closed_store (tz : tzinfo) (today : calendar_date) (db : DB) : DB :=
  fold_left (touch (fun s => Some (close_assign tz s))) (stale_sessions today db) db.

(** The check-in of the session lies less than a minute after the end of
    its date in the time zone: closed by the closer, it is saved with a
    duration that is not negative. *)
Definition closable (tz : tzinfo) (s : GymSession) : Prop :=
  check_in_time s < _end_of_day tz (date s) + us_per_minute.

(** Every session that the closer selects can be closed. *)
Definition all_closable (tz : tzinfo) (today : calendar_date) (db : DB) : Prop :=
  Forall (fun s => is_stale today s = true -> closable tz s) (gym_sessions db).

(** The row that an iteration leaves in the table. *)
Definition stored (upd : GymSession -> option GymSession) (s : GymSession) : GymSession :=
  match upd s with
  | Some s' => pre_save s'
  | None => s
  end.

(** The aggregate recomputed from the completed sessions of a key. *)
Definition recompute (l : list GymSession) (k : nat * Z) : DailyGymStats :=
  let sessions := List.filter (completed_on k.1 k.2) l in
  mkDailyGymStats (Z.of_nat (length sessions)) (sum_minutes sessions).

(** The statistics row of [k] exists and agrees with the sessions table. *)
Definition stats_ok (db : DB) (k : nat * Z) : Prop :=
  daily_stats db !! k = Some (recompute (gym_sessions db) k).

(** [qs] holds rows of the sessions table of [db], each at most once. *)
Definition rows_of (qs : list (nat * GymSession)) (db : DB) : Prop :=
  NoDup qs.*1 /\ forall pk s, (pk, s) ∈ qs -> gym_sessions db !! pk = Some s.

(** [upd] leaves the owner and the date of a session alone. *)
Definition keeps_key (upd : GymSession -> option GymSession) : Prop :=
  forall s s', upd s = Some s' -> student s' = student s /\ date s' = date s.

(** ** Conditions on stored data *)

(** The stored duration of a session agrees with its timestamps: it is what
    [save] computed for a completed session and the default 0 for an open one. *)
Definition duration_in_step (s : GymSession) : Prop :=
  match check_out_time s with
  | Some check_out => duration_minutes s = minutes_trunc (check_out - check_in_time s)
  | None => duration_minutes s = 0
  end.

(** Every stored session lasts at most two hours, whatever its date. *)
Definition all_capped (db : DB) : Prop :=
  Forall (fun s => duration_minutes s <= 120) (gym_sessions db).

(** Saving a completed session records the floor of its span in minutes. *)
Definition saved_as_floor (s : GymSession) : Prop :=
  forall check_out, check_out_time s = Some check_out ->
    duration_minutes (pre_save s) = minutes_floor (check_out - check_in_time s).

(** A session with a check-out time is not marked active. *)
Definition closed_when_checked_out (s : GymSession) : Prop :=
  is_completed s = true -> is_active s = false.

(** The student has a session marked active. *)
Definition has_active_session (db : DB) (st : nat) : Prop :=
  exists pk s, gym_sessions db !! pk = Some s /\ student s = st /\ is_active s = true.

(** ** Reference inputs *)

Definition utc : tzinfo := fun _ => 0.
Definition utc_plus_8 : tzinfo := fun _ => hours 8.

(** A UTC wall-clock reading on day [d]. *)
Definition at_time (d : calendar_date) (h m s : Z) : datetime :=
  (d * 86400 + h * 3600 + m * 60 + s) * us_per_second.

(** 2025-09-15 as a day number. *)
Definition day0 : calendar_date := 20346.

Definition one_student : list Student := [mkStudent "2023-140001" true].

(** A session of 09:32:45 to 20:34:32 on [day0]. *)
Definition overlong_session : GymSession :=
  mkGymSession 0 (at_time day0 9 32 45) (Some (at_time day0 20 34 32)) 661 day0 false.

Definition overlong_db : DB := mkDB one_student [overlong_session] ∅.

(** A five-hour session completed on the day the capper runs. *)
Definition todays_session : GymSession :=
  mkGymSession 0 (at_time (day0 + 1) 9 0 0) (Some (at_time (day0 + 1) 14 0 0))
    300 (day0 + 1) false.

Definition todays_db : DB := mkDB one_student [todays_session] ∅.

(** A check-in at 07:30 local time in a zone eight hours ahead of UTC: the
    UTC date of the instant is still [day0], whose local end lies earlier. *)
Definition late_session : GymSession :=
  mkGymSession 0 (at_time day0 23 30 0) None 0 day0 true.

Definition late_db : DB := mkDB one_student [late_session] ∅.

(** An open session from 09:00 on [day0] that was never checked out. *)
Definition forgotten_session : GymSession :=
  mkGymSession 0 (at_time day0 9 0 0) None 0 day0 true.

Definition forgotten_db : DB := mkDB one_student [forgotten_session] ∅.

(** A session whose check-out lies 30 seconds before its check-in. *)
Definition skewed_session : GymSession :=
  mkGymSession 0 (at_time day0 16 0 29) (Some (at_time day0 15 59 59)) 0 day0 false.

(** ** Row-wise views and store invariants *)

(** The row that the closer leaves in place of [s]. *)
Definition close_row (tz : tzinfo) (today : calendar_date) (s : GymSession) : GymSession :=
  if is_stale today s then pre_save (close_assign tz s) else s.

(** The row that the capper leaves in place of [s]. *)
Definition cap_row (tz : tzinfo) (today : calendar_date) (s : GymSession) : GymSession :=
  if date s <? today then stored (cap_assign tz) s else s.

(** The capper rewrites the session. *)
Definition is_overlong (tz : tzinfo) (s : GymSession) : bool :=
  match cap_assign tz s with Some _ => true | None => false end.

(** No student has two sessions marked active. *)
Definition at_most_one_active (db : DB) : Prop :=
  forall pk1 pk2 s1 s2,
    gym_sessions db !! pk1 = Some s1 -> gym_sessions db !! pk2 = Some s2 ->
    student s1 = student s2 -> is_active s1 = true -> is_active s2 = true ->
    pk1 = pk2.

(** A row as [save] leaves it: not active once checked out, and with the
    duration that its timestamps give. *)
Definition consistent_row (s : GymSession) : Prop :=
  closed_when_checked_out s /\ duration_in_step s.

(** The store after the check-out of the session [s], stored under the key
    [pk], of the student [st]: the row is closed and the aggregate of its
    day recomputed, or, when [save] raises, the store is as it was. *)
Definition checked_out (db : DB) (now : datetime) (st pk : nat) (s : GymSession) : DB :=
  match save pk (set_check_out_time (Some now) s) db with
  | inl _ => db
  | inr db' => update_daily_stats st (date s) db'
  end.

(** ** The RFID tap ([StudentLoginView.post]) *)

(** The data of a successful tap response that depend on the sessions
    table, as read back after the check-in or check-out. *)
Record TapData := mkTapData {
  tap_has_active_session : bool;
  tap_active_session : option GymSession;
  tap_daily_gym_minutes : Z;
  tap_remaining_daily_minutes : Z;
  tap_can_check_in : bool;
  tap_action_taken : action;
  tap_completed_session : option GymSession
}.

Inductive TapResponse :=
| TAP_200_OK (data : TapData)
| TAP_400_DAILY_LIMIT
| TAP_500_INTERNAL_SERVER_ERROR.

(** [StudentLoginView.post] from the point where the serializer has
    resolved the RFID tag to the active student [st]: a tap checks the
    student out when a session is active and checks the student in
    otherwise. The view catches no exception: one raised by [save], which
    has written nothing, leaves the view and is answered with status 500. *)
Definition tap (db : DB) (now : datetime) (st : nat) : TapResponse * DB :=
  let active := active_session db st in
  let '(can, _) := can_check_in db st (datetime_date now) in
  let result :=
    match active with
    | Some (pk, session) =>
        let session := set_check_out_time (Some now) session in
        match save pk session db with
        | inl e => inl e
        | inr db =>
            let session := pre_save session in
            let db := update_daily_stats st (date session) db in
            inr (Some (Some session, CHECK_OUT, db))
        end
    | None =>
        if can then
          let '(_, _, db) := create st now (datetime_date now) db in
          inr (Some (None, CHECK_IN, db))
        else inr None
    end in
  match result with
  | inl _ => (TAP_500_INTERNAL_SERVER_ERROR, db)
  | inr None => (TAP_400_DAILY_LIMIT, db)
  | inr (Some (checked_out_session, session_action, db)) =>
      let active := active_session db st in
      let daily_minutes := get_daily_gym_time db st (datetime_date now) in
      let '(can, remaining_minutes) := can_check_in db st (datetime_date now) in
      (TAP_200_OK
         (mkTapData
            (match active with Some _ => true | None => false end)
            (snd <$> active) daily_minutes remaining_minutes can
            session_action checked_out_session),
       db)
  end.

(** ** Heatmap and streaks ([gym_app/serializers.py]) *)

(** [d.weekday()]: Monday is 0 and Sunday is 6; day 0 was a Thursday. *)
Definition weekday (d : calendar_date) : Z := (d + 3) mod 7.

(** [get_intensity_level] of [generate_heatmap_data]. *)
Definition get_intensity_level (minutes : Z) : Z :=
  if minutes =? 0 then 0
  else if minutes <=? 30 then 1
  else if minutes <=? 60 then 2
  else if minutes <=? 90 then 3
  else 4.

Record HeatmapEntry := mkHeatmapEntry {
  entry_date : calendar_date;
  entry_count : Z;
  entry_level : Z
}.

(** [stats_dict.get(d, 0)], where [stats_dict] maps the dates in
    [start_date, end_date] that have a statistics row of the student to its
    [total_minutes]. *)
Definition stats_dict_get (db : DB) (st : nat) (start_date end_date d : calendar_date) : Z :=
  if (start_date <=? d) && (d <=? end_date)
  then default 0 (total_minutes <$> daily_stats db !! (st, d))
  else 0.

(** The [while current_date <= end_date] loop; [fuel] bounds the number of
    iterations. *)
Fixpoint heatmap_loop (fuel : nat) (db : DB) (st : nat)
    (start_date end_date current_date : calendar_date) : list HeatmapEntry :=
  match fuel with
  | O => []
  | S fuel =>
      if current_date <=? end_date then
        (if weekday current_date <? 5 then
           let minutes := stats_dict_get db st start_date end_date current_date in
           [mkHeatmapEntry current_date minutes (get_intensity_level minutes)]
         else []) ++
        heatmap_loop fuel db st start_date end_date (current_date + 1)
      else []
  end.

(** [HeatmapDataSerializer.generate_heatmap_data(student, start_date, end_date)];
    the loop runs [end_date - start_date + 1] times when that is positive. *)
Definition generate_heatmap_data (db : DB) (now : datetime) (st : nat)
    (start_date end_date : option calendar_date) : list HeatmapEntry :=
  let end_date := default (datetime_date now) end_date in
  let start_date := default (end_date - 365) start_date in
  heatmap_loop (Z.to_nat (end_date - start_date + 1)) db st start_date end_date start_date.

(** The dates of the student's statistics rows with [total_minutes > 0],
    ordered by date (the [dates] list of [get_student_stats]). *)
Definition streak_dates (db : DB) (st : nat) : list calendar_date :=
  order_by Z.leb
    (omap (fun kv : nat * Z * DailyGymStats =>
             if Nat.eqb kv.1.1 st && (0 <? total_minutes kv.2) then Some kv.1.2 else None)
          (map_to_list (daily_stats db))).

(** The loop [for i in range(len(dates) - 1, -1, -1)] of the current
    streak, over the dates from the last one backwards; [k] is
    [len(dates) - 1 - i]. *)
Fixpoint current_streak_loop (today : calendar_date) (k : Z)
    (dates_backwards : list calendar_date) : Z :=
  match dates_backwards with
  | [] => 0
  | d :: rest =>
      if d =? today - k then 1 + current_streak_loop today (k + 1) rest else 0
  end.

(** The value of [current_streak] after its loop over [dates]. *)
Definition current_streak_of (today : calendar_date) (dates : list calendar_date) : Z :=
  current_streak_loop today 0 (rev dates).

(** One iteration of the longest-streak loop; the state is
    [(dates[i-1] if i > 0, temp_streak, longest_streak)]. *)
Definition longest_streak_step (state : option calendar_date * Z * Z) (d : calendar_date)
  : option calendar_date * Z * Z :=
  let '(previous, temp_streak, longest_streak) := state in
  let consecutive :=
    match previous with
    | None => true
    | Some p => d =? p + 1
    end in
  if consecutive
  then (Some d, temp_streak + 1, Z.max longest_streak (temp_streak + 1))
  else (Some d, 1, longest_streak).

(** The value of [longest_streak] after its loop over [dates]. *)
Definition longest_streak_of (dates : list calendar_date) : Z :=
  (fold_left longest_streak_step dates (None, 0, 0)).2.

(** The streak entries of the dictionary that [get_student_stats] returns. *)
Record StudentStats := mkStudentStats {
  current_streak : Z;
  longest_streak : Z
}.

(** [filter(student=st, check_out_time__isnull=False)]: the completed
    sessions of the student. *)
Definition completed_sessions (db : DB) (st : nat) : list GymSession :=
  List.filter (fun s => Nat.eqb (student s) st && is_completed s) (gym_sessions db).

(** [StudentStatsSerializer.get_student_stats(student)], for the streaks: a
    student without a completed session gets 0 and 0 before the statistics
    rows are read; otherwise both start at 0 and the two loops run when
    there is a row with [total_minutes > 0]. *)
Definition get_student_stats (db : DB) (now : datetime) (st : nat) : StudentStats :=
  match completed_sessions db st with
  | [] => mkStudentStats 0 0
  | _ :: _ =>
      let dates := streak_dates db st in
      match dates with
      | [] => mkStudentStats 0 0
      | _ :: _ =>
          let today := datetime_date now in
          mkStudentStats (current_streak_of today dates) (longest_streak_of dates)
      end
  end.

(** ** The [cap_session_durations] management command *)

(** One iteration of the loop of [Command.handle]. [clock pk] is the
    reading of [timezone.now()] taken while the row [pk] is processed. *)
Definition cap_command_step (dry_run : bool) (clock : nat -> datetime)
    (acc : nat * nat * DB) (row : nat * GymSession) : Exception + nat * nat * DB :=
  let '(updated_count, examined_count, db) := acc in
  let '(pk, session) := row in
  let max_duration := hours 2 in
  let examined_count := S examined_count in
  let actual_checkout :=
    match check_out_time session with
    | Some check_out => check_out
    | None => clock pk
    end in
  let duration := actual_checkout - check_in_time session in
  if duration <=? max_duration then
    if is_completed session &&
       negb (duration_minutes session =? minutes_trunc duration)
    then
      if dry_run then inr (updated_count, examined_count, db)
      else
        let session := set_duration_minutes (minutes_trunc duration) session in
        let session := set_is_active false session in
        match save pk session db with
        | inl e => inl e
        | inr db => inr (updated_count, examined_count, db)
        end
    else inr (updated_count, examined_count, db)
  else
    let capped_checkout := check_in_time session + max_duration in
    let new_duration_minutes := minutes_trunc max_duration in
    if dry_run then inr (S updated_count, examined_count, db)
    else
      let session := set_check_out_time (Some capped_checkout) session in
      let session := set_duration_minutes new_duration_minutes session in
      let session := set_is_active false session in
      match save pk session db with
      | inl e => inl e
      | inr db =>
          let db := update_daily_stats (student session) (date session) db in
          inr (S updated_count, examined_count, db)
      end.

(** The queryset of the command: all sessions by check-in time, from the
    date [since] on when one is given (an unparsable [--since] is ignored). *)
Definition sessions_since (since : option calendar_date) (db : DB)
  : list (nat * GymSession) :=
  order_by by_check_in_time
    (List.filter
       (fun r => match since with Some d => d <=? date r.2 | None => true end)
       (objects db)).

(** [Command.handle] of [cap_session_durations]; the loop runs under
    [transaction.atomic()] and the command reports
    [(examined_count, updated_count)]. *)
Definition cap_session_durations (dry_run : bool) (since : option calendar_date)
    (clock : nat -> datetime) (db : DB) : (Exception + nat * nat) * DB :=
  atomic db
    (match for_each (cap_command_step dry_run clock) (sessions_since since db) (O, O, db) with
     | inl e => inl e
     | inr (updated_count, examined_count, db) =>
         inr ((examined_count, updated_count), db)
     end).

(** The row that the command leaves in place of the row [s] under key [pk]
    when it is not a dry run and returns. *)
Definition cap_command_row (clock : nat -> datetime) (r : nat * GymSession) : GymSession :=
  let s := r.2 in
  let actual_checkout :=
    match check_out_time s with
    | Some check_out => check_out
    | None => clock r.1
    end in
  let duration := actual_checkout - check_in_time s in
  if duration <=? hours 2 then
    if is_completed s && negb (duration_minutes s =? minutes_trunc duration)
    then pre_save (set_is_active false (set_duration_minutes (minutes_trunc duration) s))
    else s
  else
    pre_save (set_is_active false
                (set_duration_minutes (minutes_trunc (hours 2))
                   (set_check_out_time (Some (check_in_time s + hours 2)) s))).

(** The command's [save] of the session is accepted. Only the [save] that
    corrects the stored duration of a completed session can be refused:
    when its check-out lies a minute or more before its check-in. *)
Definition cap_command_saves (s : GymSession) : bool :=
  match check_out_time s with
  | Some check_out =>
      let duration := check_out - check_in_time s in
      if (duration <=? hours 2) && negb (duration_minutes s =? minutes_trunc duration)
      then 0 <=? minutes_trunc duration
      else true
  | None => true
  end.

(** The command counts the session as overlong. *)
Definition cap_command_overlong (clock : nat -> datetime) (r : nat * GymSession) : bool :=
  let actual_checkout :=
    match check_out_time r.2 with
    | Some check_out => check_out
    | None => clock r.1
    end in
  negb (actual_checkout - check_in_time r.2 <=? hours 2).

(** What an iteration of a real run does to the store when its [save]
    returns: a corrected duration is written without recomputing the
    statistics, a capped session with recomputing them. *)
Definition cap_command_write (clock : nat -> datetime) (db : DB) (r : nat * GymSession)
  : DB :=
  let s := r.2 in
  let actual_checkout :=
    match check_out_time s with
    | Some check_out => check_out
    | None => clock r.1
    end in
  let duration := actual_checkout - check_in_time s in
  if duration <=? hours 2 then
    if is_completed s && negb (duration_minutes s =? minutes_trunc duration)
    then update_row r.1 (cap_command_row clock r) db
    else db
  else
    update_daily_stats (student s) (date s) (update_row r.1 (cap_command_row clock r) db).

(** ** Offline repair scripts ([OLD_LOGS]) *)

(** The scripts read and write the tables with SQL, without [save]; the
    timestamps are the naive UTC readings that the tables store. *)

(** [UPDATE gym_sessions SET ... WHERE id = pk], writing the row [new_row s]
    in place of the selected row [s]. *)
Definition sql_update (new_row : GymSession -> GymSession) (db : DB)
    (r : nat * GymSession) : DB :=
  set_gym_sessions (<[r.1 := new_row r.2]> (gym_sessions db)) db.

(** [end_of_day(d)] of [close_open_sessions_before.py]. *)
Definition end_of_day (d : calendar_date) : datetime :=
  (d * 86400 + 86399) * us_per_second.

(** [WHERE check_out_time IS NULL AND is_active = 1 AND date <= cutoff] *)
Definition is_open_until (cutoff : calendar_date) (s : GymSession) : bool :=
  negb (is_completed s) && is_active s && (date s <=? cutoff).

(** [ORDER BY date ASC, id ASC] *)
Definition by_date_then_id (r1 r2 : nat * GymSession) : bool :=
  if date r1.2 <? date r2.2 then true
  else if date r2.2 <? date r1.2 then false
  else Nat.leb r1.1 r2.1.

Definition open_sessions_until (cutoff : calendar_date) (db : DB)
  : list (nat * GymSession) :=
  order_by by_date_then_id
    (List.filter (fun r => is_open_until cutoff r.2) (objects db)).

(** The row written by the [UPDATE] of [close_open_sessions]. *)
Definition sql_closed (s : GymSession) : GymSession :=
  let check_in_dt := check_in_time s in
  let max_checkout_by_duration := check_in_dt + 120 * us_per_minute in
  let max_checkout_by_day := end_of_day (date s) in
  let new_checkout := Z.min max_checkout_by_duration max_checkout_by_day in
  let duration_seconds := Z.max 0 (Z.quot (new_checkout - check_in_dt) us_per_second) in
  let new_duration_minutes := duration_seconds / 60 in
  mkGymSession (student s) (check_in_time s) (Some new_checkout)
    new_duration_minutes (date s) false.

(** One iteration of the first loop of [close_open_sessions]. *)
Definition close_open_step (acc : gset (nat * Z) * nat * DB) (row : nat * GymSession)
  : gset (nat * Z) * nat * DB :=
  let '(affected_pairs, updated, db) := acc in
  let '(pk, session) := row in
  let db := set_gym_sessions (<[pk := sql_closed session]> (gym_sessions db)) db in
  ({[ (student session, date session) ]} ∪ affected_pairs, S updated, db).

(** The second loop: the aggregate of a pair is selected again from the
    sessions table and upserted, which is what [update_daily_stats] does. *)
Definition recompute_pairs (pairs : list (nat * Z)) (db : DB) : DB :=
  fold_left (fun db k => update_daily_stats k.1 k.2 db) pairs db.

(** [close_open_sessions(cutoff)]; returns [open_sessions_found],
    [sessions_closed], [days_updated] and the store. *)
Definition close_open_sessions (cutoff : calendar_date) (db : DB)
  : (nat * nat * nat) * DB :=
  let rows := open_sessions_until cutoff db in
  let '(affected_pairs, updated, db) :=
    fold_left close_open_step rows (∅, O, db) in
  let db := recompute_pairs (elements affected_pairs) db in
  ((length rows, updated, size affected_pairs), db).

(** [verify_no_open_before.main(cutoff)]: the two counts it prints. *)
Definition verify_no_open_before (cutoff : calendar_date) (db : DB) : nat * nat :=
  (length (List.filter
             (fun s => is_active s && negb (is_completed s) && (date s <=? cutoff))
             (gym_sessions db)),
   size (daily_stats db)).

(** The row that [close_open_sessions] leaves in place of [s]. *)
Definition close_open_row (cutoff : calendar_date) (s : GymSession) : GymSession :=
  if is_open_until cutoff s then sql_closed s else s.

(** [WHERE check_out_time IS NOT NULL AND duration_minutes > 120] of
    [cap_all_sessions.py]. *)
Definition is_long (s : GymSession) : bool :=
  is_completed s && (120 <? duration_minutes s).

(** [ORDER BY duration_minutes DESC] *)
Definition by_duration_desc (r1 r2 : nat * GymSession) : bool :=
  duration_minutes r2.2 <=? duration_minutes r1.2.

Definition long_sessions (db : DB) : list (nat * GymSession) :=
  order_by by_duration_desc (List.filter (fun r => is_long r.2) (objects db)).

(** The row written by the [UPDATE] of [cap_all_sessions]: the check-out
    and the duration are set, the active flag is not. *)
Definition sql_capped (s : GymSession) : GymSession :=
  mkGymSession (student s) (check_in_time s)
    (Some (check_in_time s + 120 * us_per_minute)) 120 (date s) (is_active s).

(** One iteration of the capping loop of [cap_all_sessions]. *)
Definition cap_all_step (acc : nat * Z * DB) (row : nat * GymSession) : nat * Z * DB :=
  let '(capped_count, total_minutes_saved, db) := acc in
  let '(pk, session) := row in
  let minutes_saved := duration_minutes session - 120 in
  let db := sql_update sql_capped db (pk, session) in
  (S capped_count, total_minutes_saved + minutes_saved, db).

(** The groups of [GROUP BY student_id, date] over the completed sessions. *)
Definition daily_totals (db : DB) : list (nat * Z) :=
  remove_dups ((fun s => (student s, date s)) <$> List.filter is_completed (gym_sessions db)).

(** [cap_all_sessions()]; returns the capped count, the minutes saved, the
    number of student-date groups updated, and the store. *)
Definition cap_all_sessions (db : DB) : (nat * Z * nat) * DB :=
  let '(capped_count, total_minutes_saved, db) :=
    fold_left cap_all_step (long_sessions db) (O, 0, db) in
  let totals := daily_totals db in
  let db := recompute_pairs totals db in
  ((capped_count, total_minutes_saved, length totals), db).


(** The row that [cap_all_sessions] leaves in place of [s]. *)
Definition cap_all_row (s : GymSession) : GymSession :=
  if is_long s then sql_capped s else s.

(** ** Merging the records of a duplicate student ([merge_duplicates.py]) *)

Definition set_student (st : nat) (s : GymSession) : GymSession :=
  mkGymSession st (check_in_time s) (check_out_time s) (duration_minutes s) (date s)
    (is_active s).

(** [UPDATE gym_sessions SET student_id=primary WHERE student_id=dup] *)
Definition repoint_sessions (primary dup : nat) (db : DB) : DB :=
  set_gym_sessions
    ((fun s => if Nat.eqb (student s) dup then set_student primary s else s)
       <$> gym_sessions db) db.

(** [SELECT date, total_sessions, total_minutes FROM gym_daily_stats WHERE
    student_id=dup], fetched before the loop. *)
Definition dup_stats (db : DB) (dup : nat) : list (Z * DailyGymStats) :=
  omap (fun kv : nat * Z * DailyGymStats =>
          if Nat.eqb kv.1.1 dup then Some (kv.1.2, kv.2) else None)
       (map_to_list (daily_stats db)).

(** One iteration of the loop of [merge_daily_stats]: when the primary has a
    row for the date the totals are added to it and the duplicate's row is
    deleted, otherwise the duplicate's row is repointed. *)
Definition merge_daily_stats_step (primary dup : nat)
    (m : gmap (nat * Z) DailyGymStats) (row : Z * DailyGymStats)
  : gmap (nat * Z) DailyGymStats :=
  let '(date_val, r) := row in
  match m !! (primary, date_val) with
  | Some p =>
      let new_sessions := total_sessions p + total_sessions r in
      let new_minutes := total_minutes p + total_minutes r in
      delete (dup, date_val)
        (<[(primary, date_val) := mkDailyGymStats new_sessions new_minutes]> m)
  | None =>
      match m !! (dup, date_val) with
      | Some moved => <[(primary, date_val) := moved]> (delete (dup, date_val) m)
      | None => m
      end
  end.

(** [merge_daily_stats(cur, primary_id, duplicate_id)] *)
Definition merge_daily_stats (primary dup : nat) (db : DB) : DB :=
  set_daily_stats
    (fold_left (merge_daily_stats_step primary dup) (dup_stats db dup) (daily_stats db))
    db.

(** The part of the loop of [main] that moves the sessions and the
    statistics of one duplicate to the primary (the duplicate's row in the
    students table is deleted afterwards). *)
Definition merge_duplicate (primary dup : nat) (db : DB) : DB :=
  merge_daily_stats primary dup (repoint_sessions primary dup db).

(** The totals of the primary's row after a duplicate's row [r] has been
    merged into it. *)
Definition merged (p : option DailyGymStats) (r : DailyGymStats) : DailyGymStats :=
  match p with
  | Some p => mkDailyGymStats (total_sessions p + total_sessions r)
                (total_minutes p + total_minutes r)
  | None => r
  end.

(** The rows fetched for the duplicate: one per date, each the row stored. *)
Definition fetched (dup : nat) (rows : list (Z * DailyGymStats))
    (m : gmap (nat * Z) DailyGymStats) : Prop :=
  NoDup rows.*1 /\ forall d r, (d, r) ∈ rows -> m !! (dup, d) = Some r.

(** Every statistics row of the student agrees with the sessions table, and
    a date without a row has no completed session of the student. *)
Definition aggregates_in_step (db : DB) (st : nat) : Prop :=
  forall d,
    match daily_stats db !! (st, d) with
    | Some row => row = recompute (gym_sessions db) (st, d)
    | None => recompute (gym_sessions db) (st, d) = mkDailyGymStats 0 0
    end.

(** Two records of one person: the duplicate (student 1) has a completed
    hour on [day0] and its statistics row; the primary (student 0) has
    nothing yet. *)
Definition duplicate_db : DB :=
  mkDB [mkStudent "2023-140001" true; mkStudent "2023-140002" true]
    [mkGymSession 1 (at_time day0 9 0 0) (Some (at_time day0 10 0 0)) 60 day0 false]
    {[ (1%nat, day0) := mkDailyGymStats 1 60 ]}.

(** ** The admin action ([GymSessionAdmin.mark_as_completed]) *)

(** The loop of [mark_as_completed] over [queryset.filter(is_active=True)]:
    each session gets [check_out_time = timezone.now()] ([clock pk] is the
    reading taken for the row [pk]) and is saved. There is no
    [transaction.atomic()] here: when a [save] raises, the rows saved
    before stay written. *)
Fixpoint mark_as_completed_loop (clock : nat -> datetime)
    (qs : list (nat * GymSession)) (updated : nat) (db : DB) : (Exception + nat) * DB :=
  match qs with
  | [] => (inr updated, db)
  | (pk, session) :: qs' =>
      let session := set_check_out_time (Some (clock pk)) session in
      match save pk session db with
      | inl e => (inl e, db)
      | inr db => mark_as_completed_loop clock qs' (S updated) db
      end
  end.

(** [mark_as_completed(request, queryset)], where [queryset] holds the rows
    ticked in the change list, given by their keys [selected] in the order
    of the list; returns the number [updated] that the message reports. *)
Definition mark_as_completed (clock : nat -> datetime) (selected : list nat) (db : DB)
  : (Exception + nat) * DB :=
  let queryset := omap (fun pk => pair pk <$> gym_sessions db !! pk) selected in
  mark_as_completed_loop clock (List.filter (fun r => is_active r.2) queryset) O db.

(** ** Further reference inputs *)

(** A completed session of 09:00 to 10:00 whose row was written with 50
    minutes, and the statistics row that agrees with the table. *)
Definition drift_session : GymSession :=
  mkGymSession 0 (at_time day0 9 0 0) (Some (at_time day0 10 0 0)) 50 day0 false.

Definition drift_db : DB :=
  mkDB one_student [drift_session] {[ (0%nat, day0) := mkDailyGymStats 1 50 ]}.

(** Two students with an open session each on [day0]: one checked in at
    09:00 UTC and one at 23:30 UTC, which is 07:30 of the next day in a zone
    eight hours ahead. *)
Definition two_students : list Student :=
  [mkStudent "2023-140001" true; mkStudent "2023-140002" true].

Definition forgotten_and_late_db : DB :=
  mkDB two_students
    [forgotten_session; mkGymSession 1 (at_time day0 23 30 0) None 0 day0 true] ∅.

(** * Properties *)

(** ** Sorting and querying *)

Lemma insert_by_perm {A} (le : A -> A -> bool) x l :
  Permutation (insert_by le x l) (x :: l).
Proof.
  induction l as [|y l IH]; simpl; [done|].
  destruct (le x y); [done|].
  rewrite IH. apply Permutation_swap.
Qed.

Lemma order_by_perm {A} (le : A -> A -> bool) (l : list A) :
  Permutation (order_by le l) l.
Proof.
  induction l as [|x l IH]; simpl; [done|].
  rewrite insert_by_perm. by constructor.
Qed.

Lemma order_by_nil_inv {A} (le : A -> A -> bool) (l : list A) :
  order_by le l = [] -> l = [].
Proof.
  intros H. apply Permutation_nil. rewrite <- H. apply order_by_perm.
Qed.

Lemma objects_lookup db pk s :
  (pk, s) ∈ objects db <-> gym_sessions db !! pk = Some s.
Proof.
  unfold objects. rewrite elem_of_lookup_imap. split.
  - intros (i & x & Heq & Hl). by inversion Heq; subst.
  - intros Hl. by exists pk, s.
Qed.

Lemma objects_keys db : (objects db).*1 = seq 0 (length (gym_sessions db)).
Proof.
  unfold objects. apply list_eq. intros i.
  rewrite list_lookup_fmap, list_lookup_imap.
  destruct (gym_sessions db !! i) as [s|] eqn:Hl; simpl.
  - symmetry. apply lookup_seq. split; [done|]. by apply lookup_lt_Some in Hl.
  - symmetry. apply lookup_seq_ge. by apply lookup_ge_None in Hl.
Qed.

Lemma filter_keys_NoDup {A} (P : nat * A -> bool) (l : list (nat * A)) :
  NoDup l.*1 -> NoDup (List.filter P l).*1.
Proof.
  induction l as [|x l IH]; simpl; [done|].
  rewrite NoDup_cons. intros [Hx Hl].
  destruct (P x); simpl; [|by auto].
  apply NoDup_cons. split; [|by auto].
  intros Hin. apply Hx.
  apply list_elem_of_fmap in Hin as (y & -> & Hy).
  apply list_elem_of_fmap. exists y. split; [done|].
  apply list_elem_of_In in Hy. apply filter_In in Hy as [Hy _].
  by apply list_elem_of_In.
Qed.

Lemma query_elem db (P : nat * GymSession -> bool) le pk s :
  (pk, s) ∈ order_by le (List.filter P (objects db)) <->
  gym_sessions db !! pk = Some s /\ P (pk, s) = true.
Proof.
  rewrite (order_by_perm le), list_elem_of_In, filter_In, <- list_elem_of_In.
  by rewrite objects_lookup.
Qed.

Lemma query_rows_of db (P : nat * GymSession -> bool) le :
  rows_of (order_by le (List.filter P (objects db))) db.
Proof.
  split.
  - rewrite (order_by_perm le). apply filter_keys_NoDup.
    rewrite objects_keys. apply NoDup_seq.
  - intros pk s Hin. by apply query_elem in Hin as [? _].
Qed.

(** ** A loop over rows of the sessions table *)

Section Loop.
Variable upd : GymSession -> option GymSession.

Lemma touch_students db row : students (touch upd db row) = students db.
Proof. unfold touch. by destruct (upd row.2). Qed.

Lemma touch_sessions db row :
  gym_sessions (touch upd db row) =
  match upd row.2 with
  | Some s' => <[row.1 := pre_save s']> (gym_sessions db)
  | None => gym_sessions db
  end.
Proof. unfold touch. by destruct (upd row.2). Qed.

Lemma touch_lookup_ne db row pk :
  pk ≠ row.1 ->
  gym_sessions (touch upd db row) !! pk = gym_sessions db !! pk.
Proof.
  intros Hne. rewrite touch_sessions. destruct (upd row.2); [|done].
  by apply list_lookup_insert_ne.
Qed.

Lemma touch_lookup_eq db pk s :
  gym_sessions db !! pk = Some s ->
  gym_sessions (touch upd db (pk, s)) !! pk = Some (stored upd s).
Proof.
  intros Hl. rewrite touch_sessions. unfold stored. simpl.
  destruct (upd s); [|done].
  apply list_lookup_insert_eq. by apply lookup_lt_Some in Hl.
Qed.

Lemma rows_of_touch r qs db :
  rows_of (r :: qs) db -> rows_of qs (touch upd db r).
Proof.
  intros [Hnd Hrows]. rewrite fmap_cons in Hnd.
  apply NoDup_cons in Hnd as [Hr Hnd]. split; [done|].
  intros pk s Hin. rewrite touch_lookup_ne.
  - apply Hrows. by right.
  - intros ->. apply Hr. apply list_elem_of_fmap. by exists (r.1, s).
Qed.

Lemma loop_students qs db :
  students (fold_left (touch upd) qs db) = students db.
Proof.
  revert db. induction qs as [|r qs IH]; intros db; simpl; [done|].
  by rewrite IH, touch_students.
Qed.

Lemma loop_length qs db :
  length (gym_sessions (fold_left (touch upd) qs db)) = length (gym_sessions db).
Proof.
  revert db. induction qs as [|r qs IH]; intros db; simpl; [done|].
  rewrite IH, touch_sessions. destruct (upd r.2); [|done]. apply length_insert.
Qed.

(** Rows that the loop does not visit are left as they were. *)
Lemma loop_lookup_other qs db pk :
  pk ∉ qs.*1 ->
  gym_sessions (fold_left (touch upd) qs db) !! pk = gym_sessions db !! pk.
Proof.
  revert db. induction qs as [|r qs IH]; intros db Hpk; simpl; [done|].
  rewrite fmap_cons, not_elem_of_cons in Hpk. destruct Hpk as [Hne Hpk].
  rewrite IH by done. by apply touch_lookup_ne.
Qed.

(** A visited row ends up as its iteration stored it. *)
Lemma loop_lookup qs db pk s :
  rows_of qs db -> (pk, s) ∈ qs ->
  gym_sessions (fold_left (touch upd) qs db) !! pk = Some (stored upd s).
Proof.
  revert db. induction qs as [|r qs IH]; intros db Hrows Hin; simpl.
  { by apply elem_of_nil in Hin. }
  apply elem_of_cons in Hin as [<-|Hin].
  - rewrite loop_lookup_other.
    + apply touch_lookup_eq. apply Hrows. by left.
    + destruct Hrows as [Hnd _]. rewrite fmap_cons in Hnd.
      by apply NoDup_cons in Hnd as [? _].
  - apply IH; [|done]. by apply rows_of_touch.
Qed.

Hypothesis upd_keeps_key : keeps_key upd.

Lemma filter_insert_false (P : GymSession -> bool) l pk s s' :
  l !! pk = Some s -> P s = false -> P s' = false ->
  List.filter P (<[pk := s']> l) = List.filter P l.
Proof.
  revert pk. induction l as [|x l IH]; intros pk Hl Hs Hs'; [done|].
  destruct pk as [|pk]; simpl in *.
  - inversion Hl; subst. by rewrite Hs, Hs'.
  - by rewrite (IH pk).
Qed.

Lemma completed_on_other_key k s :
  (student s, date s) ≠ k -> completed_on k.1 k.2 s = false.
Proof.
  destruct k as [st d]. intros Hne. unfold completed_on. simpl.
  destruct (Nat.eqb_spec (student s) st) as [Hst|]; [|done].
  destruct (Z.eqb_spec (date s) d) as [Hd|]; [|done].
  destruct Hne. by rewrite Hst, Hd.
Qed.

Lemma pre_save_key s : student (pre_save s) = student s /\ date (pre_save s) = date s.
Proof. unfold pre_save. by destruct (check_out_time s). Qed.

(** One iteration keeps every aggregate that was in step with the table
    in step with it. *)
Lemma touch_stats_ok db row k :
  gym_sessions db !! row.1 = Some row.2 ->
  stats_ok db k -> stats_ok (touch upd db row) k.
Proof.
  intros Hrow Hok. unfold touch.
  destruct (upd row.2) as [s'|] eqn:Hupd; [|done].
  destruct (upd_keeps_key _ _ Hupd) as [Hst Hd].
  unfold stats_ok, update_daily_stats. simpl.
  destruct (decide ((student s', date s') = k)) as [<-|Hne].
  - by rewrite lookup_insert_eq.
  - rewrite lookup_insert_ne by done. rewrite Hok. f_equal.
    unfold recompute. erewrite filter_insert_false; [done| apply Hrow | |].
    + apply completed_on_other_key. by rewrite <- Hst, <- Hd.
    + apply completed_on_other_key.
      destruct (pre_save_key s') as [-> ->]. done.
Qed.

(** An iteration that saves a row recomputes the aggregate of its key. *)
Lemma touch_stats_new db row s' :
  upd row.2 = Some s' ->
  stats_ok (touch upd db row) (student row.2, date row.2).
Proof.
  intros Hupd. unfold touch. rewrite Hupd.
  destruct (upd_keeps_key _ _ Hupd) as [Hst Hd].
  unfold stats_ok, update_daily_stats. rewrite <- Hst, <- Hd. simpl.
  by rewrite lookup_insert_eq.
Qed.

Lemma loop_stats_inv qs db k :
  rows_of qs db -> stats_ok db k -> stats_ok (fold_left (touch upd) qs db) k.
Proof.
  revert db. induction qs as [|r qs IH]; intros db Hrows Hok; simpl; [done|].
  apply IH; [by apply rows_of_touch|].
  apply touch_stats_ok; [|done].
  destruct r as [pk s]. apply Hrows. by left.
Qed.

(** After the loop, the aggregate of every saved row agrees with the table. *)
Lemma loop_stats qs db pk s s' :
  rows_of qs db -> (pk, s) ∈ qs -> upd s = Some s' ->
  stats_ok (fold_left (touch upd) qs db) (student s, date s).
Proof.
  revert db. induction qs as [|r qs IH]; intros db Hrows Hin Hupd; simpl.
  { by apply elem_of_nil in Hin. }
  apply elem_of_cons in Hin as [<-|Hin].
  - apply loop_stats_inv; [by apply rows_of_touch|].
    by apply (touch_stats_new db (pk, s) s').
  - apply IH; [by apply rows_of_touch|done..].
Qed.

(** Aggregates of other keys are not written. *)
Lemma loop_stats_other qs db k :
  (forall pk s s', (pk, s) ∈ qs -> upd s = Some s' -> (student s, date s) ≠ k) ->
  daily_stats (fold_left (touch upd) qs db) !! k = daily_stats db !! k.
Proof.
  revert db. induction qs as [|r qs IH]; intros db Hk; simpl; [done|].
  rewrite IH.
  - unfold touch. destruct (upd r.2) as [s'|] eqn:Hupd; [|done].
    unfold update_daily_stats. simpl. apply lookup_insert_ne.
    destruct (upd_keeps_key _ _ Hupd) as [-> ->].
    destruct r as [pk s]. apply (Hk pk s s'); [by left|done].
  - intros pk s s' Hin. apply (Hk pk). by right.
Qed.
End Loop.

(** ** The two maintenance routines as loops over their querysets *)

Lemma save_unfold pk s db :
  save pk s db =
  if saves s then inr (update_row pk (pre_save s) db) else inl IntegrityError.
Proof.
  unfold save, super_save, saves.
  destruct (Z.ltb_spec (duration_minutes (pre_save s)) 0),
           (Z.leb_spec 0 (duration_minutes (pre_save s))); done || lia.
Qed.

Lemma save_inr pk s db db' :
  save pk s db = inr db' ->
  db' = update_row pk (pre_save s) db /\ 0 <= duration_minutes (pre_save s).
Proof.
  rewrite save_unfold. unfold saves.
  destruct (Z.leb_spec 0 (duration_minutes (pre_save s))); [|done].
  by intros [= <-].
Qed.

(** A loop whose iterations raise exactly on the rows that [ok] refuses
    runs to its end when [ok] accepts every row, and raises otherwise. *)
Lemma for_each_pure {A B} (body : B -> A -> Exception + B) (ok : A -> bool)
    (pure : B -> A -> B) l acc :
  (forall acc r, body acc r = if ok r then inr (pure acc r) else inl IntegrityError) ->
  for_each body l acc =
  if forallb ok l then inr (fold_left pure l acc) else inl IntegrityError.
Proof.
  intros Hbody. revert acc. induction l as [|r l IH]; intros acc; simpl; [done|].
  rewrite Hbody. destruct (ok r); simpl; [apply IH|done].
Qed.

Lemma minutes_trunc_two_hours t : minutes_trunc (t + hours 2 - t) = 120.
Proof. replace (t + hours 2 - t) with (hours 2) by lia. reflexivity. Qed.

(** The sign of the whole minutes of a span. *)
Lemma minutes_trunc_nonneg d : 0 <= minutes_trunc d <-> - us_per_minute < d.
Proof.
  unfold minutes_trunc. assert (0 < us_per_minute) as Hm by reflexivity.
  destruct (Z.le_gt_cases 0 d) as [Hd|Hd].
  - split; [lia|]. intros _. by apply Z.quot_pos; lia.
  - replace d with (- - d) by lia. rewrite Z.quot_opp_l by lia.
    pose proof (Z.quot_pos (- d) us_per_minute ltac:(lia) ltac:(lia)) as Hq.
    pose proof (Z.quot_small_iff (- d) us_per_minute ltac:(lia)) as Hsmall.
    rewrite (Z.abs_eq (- d)), (Z.abs_eq us_per_minute) in Hsmall by lia.
    split.
    + intros Hle. assert (- d ÷ us_per_minute = 0) as Hz by lia.
      apply Hsmall in Hz. lia.
    + intros Hlt. assert (- d ÷ us_per_minute = 0) as ->; [|done].
      apply Hsmall. lia.
Qed.

Lemma saves_close_assign tz s : saves (close_assign tz s) = true <-> closable tz s.
Proof.
  unfold saves, closable. rewrite Z.leb_le.
  change (duration_minutes (pre_save (close_assign tz s)))
    with (minutes_trunc (Z.min (check_in_time s + hours 2) (_end_of_day tz (date s))
                         - check_in_time s)).
  rewrite minutes_trunc_nonneg.
  assert (0 < hours 2) by reflexivity. assert (0 < us_per_minute) by reflexivity. lia.
Qed.

Lemma close_stale_step_touch tz n days db pk s :
  close_stale_step tz (n, days, db) (pk, s) =
  if saves (close_assign tz s)
  then inr (S n, {[ (student s, date s) ]} ∪ days,
            touch (fun s => Some (close_assign tz s)) db (pk, s))
  else inl IntegrityError.
Proof.
  unfold close_stale_step. cbv zeta.
  change (save pk _ db) with (save pk (close_assign tz s) db).
  rewrite save_unfold. by destruct (saves (close_assign tz s)).
Qed.

Lemma close_stale_fold (tz : tzinfo) (qs : list (nat * GymSession)) (n : nat)
    (days : gset (nat * Z)) (db : DB) :
  fold_left
    (fun (acc : nat * gset (nat * Z) * DB) (r : nat * GymSession) =>
       (S acc.1.1, {[ (student r.2, date r.2) ]} ∪ acc.1.2,
        touch (fun s => Some (close_assign tz s)) acc.2 r))
    qs (n, days, db) =
  ((n + length qs)%nat,
   list_to_set ((fun r : nat * GymSession => (student r.2, date r.2)) <$> qs) ∪ days,
   fold_left (touch (fun s => Some (close_assign tz s))) qs db).
Proof.
  revert n days db. induction qs as [|[pk s] qs IH]; intros n days db.
  - simpl. by rewrite Nat.add_0_r, (left_id_L ∅ (∪)).
  - cbn [fold_left length fst snd]. rewrite IH.
    replace (S n + length qs)%nat with (n + S (length qs))%nat by lia.
    rewrite fmap_cons. cbn [list_to_set fst snd].
    by rewrite (assoc_L (∪)), (comm_L (∪) _ {[ _ ]}).
Qed.

(** The closer either closes every session that it selects or, when the
    [save] of one of them raises, closes none. *)
Lemma close_stale_unfold tz now db :
  close_stale_sessions_before_today tz now db =
  let today := datetime_date now in
  let qs := stale_sessions today db in
  if forallb (fun r : nat * GymSession => saves (close_assign tz r.2)) qs
  then (inr (length qs,
             size (list_to_set ((fun r : nat * GymSession => (student r.2, date r.2)) <$> qs)
                   : gset (nat * Z))),
        closed_store tz today db)
  else (inl IntegrityError, db).
Proof.
  unfold close_stale_sessions_before_today. cbv zeta.
  rewrite (for_each_pure _ (fun r : nat * GymSession => saves (close_assign tz r.2))
             (fun (acc : nat * gset (nat * Z) * DB) (r : nat * GymSession) =>
                (S acc.1.1, {[ (student r.2, date r.2) ]} ∪ acc.1.2,
                 touch (fun s => Some (close_assign tz s)) acc.2 r))).
  2:{ intros [[n days] db0] [pk s]. apply close_stale_step_touch. }
  destruct (forallb _ _); [|done].
  rewrite close_stale_fold. simpl. by rewrite (right_id_L ∅ (∪)).
Qed.

Lemma stale_sessions_elem today db pk s :
  (pk, s) ∈ stale_sessions today db <->
  gym_sessions db !! pk = Some s /\ is_stale today s = true.
Proof. unfold stale_sessions. by rewrite query_elem. Qed.

Lemma all_closable_forallb tz today db :
  forallb (fun r : nat * GymSession => saves (close_assign tz r.2)) (stale_sessions today db)
    = true <->
  all_closable tz today db.
Proof.
  rewrite forallb_forall. unfold all_closable. rewrite Forall_lookup. split.
  - intros Hall pk s Hl Hst. apply saves_close_assign.
    apply (Hall (pk, s)). by apply list_elem_of_In, stale_sessions_elem.
  - intros Hall [pk s] Hin. apply list_elem_of_In, stale_sessions_elem in Hin as [Hl Hst].
    apply saves_close_assign. by apply (Hall pk s).
Qed.

(** When every selected session can be closed, the closer returns. *)
Lemma close_stale_returns tz now db :
  all_closable tz (datetime_date now) db ->
  close_stale_sessions_before_today tz now db =
  (inr (length (stale_sessions (datetime_date now) db),
        size (list_to_set ((fun r : nat * GymSession => (student r.2, date r.2))
                             <$> stale_sessions (datetime_date now) db) : gset (nat * Z))),
   closed_store tz (datetime_date now) db).
Proof.
  intros Hall. rewrite close_stale_unfold. cbv zeta.
  by rewrite (proj2 (all_closable_forallb tz _ db) Hall).
Qed.

(** Otherwise it raises and leaves the store as it was. *)
Lemma close_stale_raises tz now db :
  ~ all_closable tz (datetime_date now) db ->
  close_stale_sessions_before_today tz now db = (inl IntegrityError, db).
Proof.
  intros Hnot. rewrite close_stale_unfold. cbv zeta.
  destruct (forallb _ _) eqn:Hall; [|done].
  by apply all_closable_forallb in Hall.
Qed.

(** The store after the closer is the closed store or the store as it was. *)
Lemma close_stale_store tz now db :
  (close_stale_sessions_before_today tz now db).2 = closed_store tz (datetime_date now) db \/
  close_stale_sessions_before_today tz now db = (inl IntegrityError, db).
Proof.
  rewrite close_stale_unfold. cbv zeta. destruct (forallb _ _); [by left|by right].
Qed.

Lemma cap_step_touch tz n m db pk s :
  cap_step tz (n, m, db) (pk, s) =
  inr ((if is_overlong tz s then S n else n), S m, touch (cap_assign tz) db (pk, s)).
Proof.
  unfold cap_step, touch, is_overlong, cap_assign. cbv zeta. cbn [fst snd].
  destruct (_ <=? hours 2); [done|].
  rewrite save_unfold. unfold saves.
  change (duration_minutes (pre_save _))
    with (minutes_trunc (check_in_time s + hours 2 - check_in_time s)).
  by rewrite minutes_trunc_two_hours.
Qed.

(** The capper never raises; it examines every row it is given and counts
    the rows that it rewrites. *)
Lemma cap_fold_counts tz qs n m db :
  for_each (cap_step tz) qs (n, m, db) =
  inr ((n + length (List.filter (fun r => is_overlong tz r.2) qs))%nat,
       (m + length qs)%nat,
       fold_left (touch (cap_assign tz)) qs db).
Proof.
  revert n m db. induction qs as [|[pk s] qs IH]; intros n m db.
  - simpl. by rewrite !Nat.add_0_r.
  - cbn [for_each fold_left List.filter length snd]. rewrite cap_step_touch, IH.
    destruct (is_overlong tz s); cbn [length]; do 3 f_equal; lia.
Qed.

Lemma cap_unfold tz now db :
  cap_sessions_on_previous_days_to_two_hours tz now db =
  let qs := sessions_before (datetime_date now) db in
  (inr (length qs, length (List.filter (fun r => is_overlong tz r.2) qs)),
   fold_left (touch (cap_assign tz)) qs db).
Proof.
  unfold cap_sessions_on_previous_days_to_two_hours. cbv zeta.
  by rewrite cap_fold_counts.
Qed.

Lemma cap_db tz now db :
  (cap_sessions_on_previous_days_to_two_hours tz now db).2 =
  fold_left (touch (cap_assign tz)) (sessions_before (datetime_date now) db) db.
Proof. by rewrite cap_unfold. Qed.

Lemma close_assign_keeps_key tz : keeps_key (fun s => Some (close_assign tz s)).
Proof. intros s s' [= <-]. done. Qed.

Lemma cap_assign_keeps_key tz : keeps_key (cap_assign tz).
Proof.
  intros s s'. unfold cap_assign. destruct (_ <=? _); [done|]. by intros [= <-].
Qed.

Lemma sessions_before_elem today db pk s :
  (pk, s) ∈ sessions_before today db <->
  gym_sessions db !! pk = Some s /\ date s < today.
Proof. unfold sessions_before. rewrite query_elem. simpl. by rewrite Z.ltb_lt. Qed.

Lemma elem_of_keys (qs : list (nat * GymSession)) pk :
  pk ∈ qs.*1 <-> exists s, (pk, s) ∈ qs.
Proof.
  rewrite list_elem_of_fmap. split.
  - intros ([pk' s] & -> & Hin). by exists s.
  - intros [s Hin]. by exists (pk, s).
Qed.

(** ** The sessions table after each routine *)

Lemma close_stale_lookup tz now db pk s :
  gym_sessions db !! pk = Some s ->
  gym_sessions (closed_store tz (datetime_date now) db) !! pk =
  Some (if is_stale (datetime_date now) s then pre_save (close_assign tz s) else s).
Proof.
  intros Hl. unfold closed_store.
  destruct (is_stale (datetime_date now) s) eqn:Hst.
  - rewrite (loop_lookup _ _ _ pk s); [done|apply query_rows_of|].
    by apply stale_sessions_elem.
  - rewrite loop_lookup_other; [done|].
    rewrite elem_of_keys. intros [s' Hin].
    apply stale_sessions_elem in Hin as [Hl' Hst']. congruence.
Qed.

Lemma cap_lookup tz now db pk s :
  gym_sessions db !! pk = Some s ->
  gym_sessions (cap_sessions_on_previous_days_to_two_hours tz now db).2 !! pk =
  Some (if date s <? datetime_date now then stored (cap_assign tz) s else s).
Proof.
  intros Hl. rewrite cap_db.
  destruct (Z.ltb_spec (date s) (datetime_date now)) as [Hlt|Hge].
  - rewrite (loop_lookup _ _ _ pk s); [done|apply query_rows_of|].
    by apply sessions_before_elem.
  - rewrite loop_lookup_other; [done|].
    rewrite elem_of_keys. intros [s' Hin].
    apply sessions_before_elem in Hin as [Hl' Hlt].
    assert (s' = s) as -> by congruence. lia.
Qed.

Lemma close_stale_length tz now db :
  length (gym_sessions (closed_store tz (datetime_date now) db)) =
  length (gym_sessions db).
Proof. unfold closed_store. apply loop_length. Qed.

Lemma pre_save_close_assign tz s :
  pre_save (close_assign tz s) =
  let new_checkout := Z.min (check_in_time s + hours 2) (_end_of_day tz (date s)) in
  mkGymSession (student s) (check_in_time s) (Some new_checkout)
    (minutes_trunc (new_checkout - check_in_time s)) (date s) false.
Proof. done. Qed.

Lemma closed_not_stale tz today s : is_stale today (pre_save (close_assign tz s)) = false.
Proof. done. Qed.

Lemma stale_sessions_after_close tz now db :
  stale_sessions (datetime_date now)
    (closed_store tz (datetime_date now) db) = [].
Proof.
  apply elem_of_nil_inv. intros [pk s1] Hin.
  apply stale_sessions_elem in Hin as [Hl1 Hst1].
  assert (is_Some (gym_sessions db !! pk)) as [s Hl].
  { apply lookup_lt_is_Some. rewrite <- (close_stale_length tz now).
    by apply lookup_lt_Some in Hl1. }
  rewrite (close_stale_lookup tz now db pk s Hl) in Hl1.
  destruct (is_stale (datetime_date now) s) eqn:Hst; inversion Hl1; subst s1.
  - by rewrite closed_not_stale in Hst1.
  - congruence.
Qed.

Lemma filter_imap_length (P : GymSession -> bool)
    (f : nat -> GymSession -> nat * GymSession) l :
  (forall i x, (f i x).2 = x) ->
  length (List.filter (fun r : nat * GymSession => P r.2) (imap f l)) =
  length (List.filter P l).
Proof.
  revert f. induction l as [|x l IH]; intros f Hf; simpl; [done|].
  rewrite Hf.
  destruct (P x); simpl; rewrite (IH (f ∘ S)) by (intros; apply Hf); done.
Qed.

Lemma stale_sessions_length today db :
  length (stale_sessions today db) =
  length (List.filter (is_stale today) (gym_sessions db)).
Proof.
  unfold stale_sessions. rewrite (Permutation_length (order_by_perm _ _)).
  by apply filter_imap_length.
Qed.

(** ** The stale-session closer *)

(** C3 (defect). Two students left a session open on 2025-09-15, in a zone
    eight hours ahead of UTC: one checked in at 09:00 UTC, the other at
    23:30 UTC (07:30 local time of the next morning, dated by its UTC date).
    Both sessions are selected. Alone, the first is closed at 11:00 with 120
    minutes. With the second in the table nothing is closed: the closer
    leaves with [IntegrityError] and the store as it was, because the end of
    the second session's date (15:59:59 UTC) lies before its check-in and
    [save] computes a negative duration for it. *)
Lemma close_stale_aborts_on_late_check_in :
  List.filter (is_stale (datetime_date (at_time (day0 + 2) 1 0 0)))
    (gym_sessions forgotten_and_late_db) = gym_sessions forgotten_and_late_db /\
  close_stale_sessions_before_today utc_plus_8 (at_time (day0 + 2) 1 0 0)
    forgotten_and_late_db = (inl IntegrityError, forgotten_and_late_db) /\
  (close_stale_sessions_before_today utc_plus_8 (at_time (day0 + 2) 1 0 0)
     forgotten_db).1 = inr (1%nat, 1%nat) /\
  gym_sessions
    (close_stale_sessions_before_today utc_plus_8 (at_time (day0 + 2) 1 0 0)
       forgotten_db).2 =
  [mkGymSession 0 (at_time day0 9 0 0) (Some (at_time day0 11 0 0)) 120 day0 false].
Proof. repeat split; vm_compute; reflexivity. Qed.

(** C7 (defect). On a table with the session checked in at 07:30 local time
    (23:30 UTC of its date), every run of the closer raises
    [IntegrityError]: the first run closes nothing, the session is still
    selected afterwards, and the second run raises again instead of
    reporting zero sessions closed. *)
Lemma close_stale_raises_on_every_run :
  close_stale_sessions_before_today utc_plus_8 (at_time (day0 + 2) 1 0 0) late_db =
    (inl IntegrityError, late_db) /\
  stale_sessions (datetime_date (at_time (day0 + 2) 2 0 0))
    (close_stale_sessions_before_today utc_plus_8 (at_time (day0 + 2) 1 0 0) late_db).2 =
    [(0%nat, late_session)] /\
  close_stale_sessions_before_today utc_plus_8 (at_time (day0 + 2) 2 0 0)
    (close_stale_sessions_before_today utc_plus_8 (at_time (day0 + 2) 1 0 0) late_db).2 =
    (inl IntegrityError, late_db).
Proof. repeat split; vm_compute; reflexivity. Qed.

(** ** The session capper *)

Lemma cap_length tz now db :
  length (gym_sessions (cap_sessions_on_previous_days_to_two_hours tz now db).2) =
  length (gym_sessions db).
Proof. rewrite cap_db. apply loop_length. Qed.

Lemma minutes_trunc_le_two_hours d : d <= hours 2 -> minutes_trunc d <= 120.
Proof.
  intros Hd. change 120 with (minutes_trunc (hours 2)).
  apply Z.quot_le_mono; [reflexivity|done].
Qed.

Lemma minutes_trunc_floor d : 0 <= d -> minutes_trunc d = minutes_floor d.
Proof. intros Hd. apply Z.quot_div_nonneg; [done|reflexivity]. Qed.

(** The row that the capper leaves for a session that it scans. *)
Lemma stored_cap_assign tz s :
  stored (cap_assign tz) s =
  let actual_checkout :=
    match check_out_time s with
    | Some check_out => check_out
    | None => _end_of_day tz (date s)
    end in
  if actual_checkout - check_in_time s <=? hours 2 then s
  else mkGymSession (student s) (check_in_time s) (Some (check_in_time s + hours 2))
         120 (date s) false.
Proof.
  unfold stored, cap_assign. simpl.
  destruct (_ <=? hours 2); [done|].
  unfold pre_save. simpl. unfold set_is_active, set_duration_minutes. simpl.
  by rewrite minutes_trunc_two_hours.
Qed.

Lemma stored_cap_assign_bound tz s :
  duration_in_step s -> duration_minutes (stored (cap_assign tz) s) <= 120.
Proof.
  intros Hstep. rewrite stored_cap_assign. cbv zeta.
  destruct (_ <=? hours 2) eqn:Hle; [|done].
  apply Z.leb_le in Hle. unfold duration_in_step in Hstep.
  destruct (check_out_time s) as [check_out|].
  - rewrite Hstep. by apply minutes_trunc_le_two_hours.
  - lia.
Qed.

(** C1, amended. After the capper has run, every session dated strictly
    before today has [duration_minutes <= 120], provided the stored
    durations agreed with the timestamps (as [save] computes them, 0 for an
    open session); sessions dated today or later are not examined and stay
    as they were. *)
Theorem cap_bounds_sessions_before_today tz now db
    (Hstep : Forall duration_in_step (gym_sessions db)) :
  let db' := (cap_sessions_on_previous_days_to_two_hours tz now db).2 in
  Forall (fun s => date s < datetime_date now -> duration_minutes s <= 120)
    (gym_sessions db') /\
  (forall pk s, gym_sessions db !! pk = Some s -> datetime_date now <= date s ->
     gym_sessions db' !! pk = Some s).
Proof.
  intros db'. split.
  - apply Forall_lookup. intros pk s' Hl' Hdate.
    assert (is_Some (gym_sessions db !! pk)) as [s Hl].
    { apply lookup_lt_is_Some. rewrite <- (cap_length tz now).
      by apply lookup_lt_Some in Hl'. }
    unfold db' in Hl'. rewrite (cap_lookup tz now db pk s Hl) in Hl'.
    inversion Hl' as [Hs']. clear Hl'.
    destruct (Z.ltb_spec (date s) (datetime_date now)) as [Hlt|Hge].
    + apply stored_cap_assign_bound.
      by apply (proj1 (Forall_lookup _ _) Hstep pk).
    + subst s'. lia.
  - intros pk s Hl Hge. unfold db'. rewrite (cap_lookup tz now db pk s Hl).
    destruct (Z.ltb_spec (date s) (datetime_date now)); [lia|done].
Qed.

Lemma cap_bounds_sessions_before_today_witness :
  Forall (fun s => date s < datetime_date (at_time (day0 + 1) 8 0 0) ->
                   duration_minutes s <= 120)
    (gym_sessions
       (cap_sessions_on_previous_days_to_two_hours utc (at_time (day0 + 1) 8 0 0)
          overlong_db).2).
Proof.
  apply (cap_bounds_sessions_before_today utc (at_time (day0 + 1) 8 0 0) overlong_db).
  repeat constructor.
Defined.

(** C1 as stated fails: a five-hour session completed today, stored with
    the duration that [save] computed, keeps its 300 minutes through the
    capper, which only scans earlier dates. *)
Lemma cap_leaves_todays_session :
  Forall duration_in_step (gym_sessions todays_db) /\
  ~ all_capped
      (cap_sessions_on_previous_days_to_two_hours utc (at_time (day0 + 1) 15 0 0)
         todays_db).2.
Proof.
  split; [repeat constructor|].
  intros Hall. apply Forall_inv in Hall. vm_compute in Hall. by apply Hall.
Qed.

(** C4, amended. A completed session dated before today whose
    [check_out - check_in] exceeds 120 minutes gets
    [check_out = check_in + 120 min], duration 120 and is marked inactive;
    every other completed session, at or under 120 minutes or dated today
    or later, is left unchanged. *)
Theorem cap_truncates_overlong tz now db pk s check_out
    (Hrow : gym_sessions db !! pk = Some s)
    (Hcompleted : check_out_time s = Some check_out) :
  gym_sessions (cap_sessions_on_previous_days_to_two_hours tz now db).2 !! pk =
  Some (if (date s <? datetime_date now) &&
           (120 * us_per_minute <? check_out - check_in_time s)
        then mkGymSession (student s) (check_in_time s)
               (Some (check_in_time s + 120 * us_per_minute)) 120 (date s) false
        else s).
Proof.
  rewrite (cap_lookup tz now db pk s Hrow).
  destruct (date s <? datetime_date now); [|done]. cbn [andb].
  rewrite stored_cap_assign, Hcompleted. simpl.
  change (120 * us_per_minute) with (hours 2).
  rewrite (Z.ltb_antisym (check_out - check_in_time s) (hours 2)).
  by destruct (_ <=? hours 2).
Qed.

(** The session of 09:32:45 to 20:34:32 is capped to 11:32:45 and 120 minutes. *)
Lemma cap_truncates_overlong_witness :
  gym_sessions
    (cap_sessions_on_previous_days_to_two_hours utc (at_time (day0 + 1) 8 0 0)
       overlong_db).2 !! 0%nat =
  Some (mkGymSession 0 (at_time day0 9 32 45) (Some (at_time day0 11 32 45)) 120 day0 false).
Proof.
  apply (cap_truncates_overlong utc (at_time (day0 + 1) 8 0 0) overlong_db 0%nat
           overlong_session (at_time day0 20 34 32)).
  - reflexivity.
  - reflexivity.
Defined.

(** C4 as stated fails: the session of 09:00 to 14:00 completed today has a
    check-out and exceeds 120 minutes by three hours, and the capper, which
    only scans earlier dates, leaves its check-out at 14:00 and its
    duration at 300. *)
Lemma cap_skips_session_of_today :
  check_out_time todays_session = Some (at_time (day0 + 1) 14 0 0) /\
  120 * us_per_minute < at_time (day0 + 1) 14 0 0 - check_in_time todays_session /\
  gym_sessions
    (cap_sessions_on_previous_days_to_two_hours utc (at_time (day0 + 1) 15 0 0)
       todays_db).2 !! 0%nat =
    Some (mkGymSession 0 (at_time (day0 + 1) 9 0 0) (Some (at_time (day0 + 1) 14 0 0))
            300 (day0 + 1) false) /\
  gym_sessions
    (cap_sessions_on_previous_days_to_two_hours utc (at_time (day0 + 1) 15 0 0)
       todays_db).2 !! 0%nat <>
    Some (mkGymSession 0 (at_time (day0 + 1) 9 0 0) (Some (at_time (day0 + 1) 11 0 0))
            120 (day0 + 1) false).
Proof. repeat split; vm_compute; congruence. Qed.

(** ** Check-in and check-out *)

Lemma head_order_by_elem {A} (le : A -> A -> bool) (l : list A) x :
  head (order_by le l) = Some x -> x ∈ l.
Proof.
  intros Hh. rewrite <- (order_by_perm le l).
  destruct (order_by le l) as [|y l']; simplify_eq/=. by left.
Qed.

Lemma head_order_by_None {A} (le : A -> A -> bool) (l : list A) :
  head (order_by le l) = None <-> l = [].
Proof.
  split.
  - intros Hh. apply (order_by_nil_inv le). by destruct (order_by le l).
  - by intros ->.
Qed.

Lemma active_session_Some db st pk s :
  active_session db st = Some (pk, s) ->
  gym_sessions db !! pk = Some s /\ student s = st /\ is_active s = true.
Proof.
  unfold active_session. intros Hh. apply head_order_by_elem in Hh.
  apply list_elem_of_In, filter_In in Hh as [Hin HP].
  apply list_elem_of_In, objects_lookup in Hin. simpl in HP.
  apply andb_true_iff in HP as [Hst Hact]. apply Nat.eqb_eq in Hst. done.
Qed.

Lemma active_session_None db st :
  active_session db st = None <-> ~ has_active_session db st.
Proof.
  unfold active_session, has_active_session. rewrite head_order_by_None. split.
  - intros Hnil (pk & s & Hl & Hst & Hact).
    assert ((pk, s) ∈ @nil (nat * GymSession)) as Hin; [|by apply elem_of_nil in Hin].
    rewrite <- Hnil. apply list_elem_of_In, filter_In. split.
    + by apply list_elem_of_In, objects_lookup.
    + simpl. rewrite Hact, andb_true_r. by apply Nat.eqb_eq.
  - intros Hno. apply elem_of_nil_inv. intros [pk s] Hin.
    apply list_elem_of_In, filter_In in Hin as [Hin HP].
    apply list_elem_of_In, objects_lookup in Hin. simpl in HP.
    apply andb_true_iff in HP as [Hst Hact]. apply Nat.eqb_eq in Hst.
    apply Hno. by exists pk, s.
Qed.

Lemma active_session_is_Some db st :
  has_active_session db st -> is_Some (active_session db st).
Proof.
  intros Hact. destruct (active_session db st) eqn:Heq; [done|].
  by apply active_session_None in Heq.
Qed.

Lemma create_has_active_session st now d db pk s db' :
  create st now d db = (pk, s, db') ->
  students db' = students db /\ has_active_session db' st.
Proof.
  unfold create. intros [= <- <- <-]. split; [done|].
  exists (length (gym_sessions db)), (mkGymSession st now None 0 d true).
  split; [|done]. simpl. by apply list_lookup_middle.
Qed.

Lemma get_student_students db db' sid :
  students db' = students db -> get_student db' sid = get_student db sid.
Proof. unfold get_student. by intros ->. Qed.

(** C5. A check-in request for a student who already has an active session
    is refused with the "already checked in" error and a check-out request
    for a student without one with the "not checked in" error; in both
    cases the store is returned as it was. In particular a check-in that
    succeeded makes an immediate second check-in fail. *)
Theorem invalid_transitions_rejected db now sid st
    (Hstudent : get_student db sid = Some st) :
  (has_active_session db st ->
     post db now sid CHECK_IN = (HTTP_400_BAD_REQUEST already_checked_in, db)) /\
  (~ has_active_session db st ->
     post db now sid CHECK_OUT = (HTTP_400_BAD_REQUEST not_checked_in, db)) /\
  (forall session db1 now1,
     post db now sid CHECK_IN = (HTTP_201_CREATED session, db1) ->
     post db1 now1 sid CHECK_IN = (HTTP_400_BAD_REQUEST already_checked_in, db1)).
Proof.
  assert (forall db0 now0, get_student db0 sid = Some st -> has_active_session db0 st ->
            post db0 now0 sid CHECK_IN = (HTTP_400_BAD_REQUEST already_checked_in, db0))
    as Hconflict.
  { intros db0 now0 Hst0 Hact. apply active_session_is_Some in Hact as [r Hr].
    unfold post, validate. by rewrite Hst0, Hr. }
  split; [by apply Hconflict|]. split.
  - intros Hno. apply active_session_None in Hno.
    unfold post, validate. by rewrite Hstudent, Hno.
  - intros session db1 now1 Hpost. unfold post, validate in Hpost.
    rewrite Hstudent in Hpost.
    destruct (active_session db st); [done|].
    destruct (can_check_in db st (datetime_date now)) as [[|] rem]; [|done].
    destruct (create st now (datetime_date now) db) as [[pk s] db2] eqn:Hcreate.
    apply create_has_active_session in Hcreate as [Hstudents Hact].
    inversion Hpost; subst. apply Hconflict; [|done].
    by rewrite (get_student_students db db1).
Qed.

Lemma invalid_transitions_rejected_witness :
  post forgotten_db (at_time day0 10 0 0) "2023-140001" CHECK_IN =
    (HTTP_400_BAD_REQUEST already_checked_in, forgotten_db) /\
  post overlong_db (at_time (day0 + 1) 10 0 0) "2023-140001" CHECK_OUT =
    (HTTP_400_BAD_REQUEST not_checked_in, overlong_db).
Proof.
  split.
  - apply (proj1 (invalid_transitions_rejected forgotten_db (at_time day0 10 0 0)
                    "2023-140001" 0%nat eq_refl)).
    exists 0%nat, forgotten_session. repeat split; reflexivity.
  - apply (proj1 (proj2 (invalid_transitions_rejected overlong_db
                           (at_time (day0 + 1) 10 0 0) "2023-140001" 0%nat eq_refl))).
    apply active_session_None. reflexivity.
Defined.

Lemma can_check_in_true db st d :
  (can_check_in db st d).1 = true <->
  ~ has_active_session db st /\ get_daily_gym_time db st d < 120.
Proof.
  unfold can_check_in.
  destruct (active_session db st) as [r|] eqn:Hact; simpl.
  - split; [done|]. intros [Hno _]. apply active_session_None in Hno. congruence.
  - apply active_session_None in Hact. rewrite Z.ltb_lt. split.
    + intros Hlt. split; [done|lia].
    + intros [_ Hlt]. lia.
Qed.



(** ** The daily aggregate *)

Lemma update_daily_stats_ok st d db : stats_ok (update_daily_stats st d db) (st, d).
Proof. unfold stats_ok, update_daily_stats. simpl. by rewrite lookup_insert_eq. Qed.

Lemma close_stale_changed tz now db pk s :
  gym_sessions db !! pk = Some s ->
  gym_sessions (closed_store tz (datetime_date now) db) !! pk ≠ Some s ->
  (pk, s) ∈ stale_sessions (datetime_date now) db.
Proof.
  intros Hl Hne. rewrite (close_stale_lookup tz now db pk s Hl) in Hne.
  apply stale_sessions_elem. split; [done|].
  by destruct (is_stale (datetime_date now) s).
Qed.

Lemma cap_changed tz now db pk s :
  gym_sessions db !! pk = Some s ->
  gym_sessions (cap_sessions_on_previous_days_to_two_hours tz now db).2 !! pk ≠ Some s ->
  (pk, s) ∈ sessions_before (datetime_date now) db /\ is_Some (cap_assign tz s).
Proof.
  intros Hl Hne. rewrite (cap_lookup tz now db pk s Hl) in Hne.
  destruct (Z.ltb_spec (date s) (datetime_date now)) as [Hlt|Hge]; [|done].
  split; [by apply sessions_before_elem|].
  unfold stored in Hne. by destruct (cap_assign tz s).
Qed.

(** C2 (defect). Two operations change a session and leave the aggregate of
    its (student, date) as it was. The [cap_session_durations] command finds
    the session of 09:00 to 10:00 stored with 50 minutes and saves it with
    60, without recomputing: the row still counts 50 minutes while the
    completed sessions of the day sum to 60. The admin action
    [mark_as_completed] closes the session opened at 09:00 with 60 minutes:
    the day has no statistics row, although it now has a completed
    session. *)
Lemma aggregate_left_behind :
  stats_ok drift_db (0%nat, day0) /\
  (cap_session_durations false None (fun _ => at_time (day0 + 1) 8 0 0) drift_db).1 =
    inr (1%nat, 0%nat) /\
  gym_sessions
    (cap_session_durations false None (fun _ => at_time (day0 + 1) 8 0 0) drift_db).2 =
    [mkGymSession 0 (at_time day0 9 0 0) (Some (at_time day0 10 0 0)) 60 day0 false] /\
  daily_stats
    (cap_session_durations false None (fun _ => at_time (day0 + 1) 8 0 0) drift_db).2
    !! (0%nat, day0) = Some (mkDailyGymStats 1 50) /\
  (mark_as_completed (fun _ => at_time day0 10 0 0) [0%nat] forgotten_db).1 = inr 1%nat /\
  gym_sessions (mark_as_completed (fun _ => at_time day0 10 0 0) [0%nat] forgotten_db).2 =
    [mkGymSession 0 (at_time day0 9 0 0) (Some (at_time day0 10 0 0)) 60 day0 false] /\
  daily_stats (mark_as_completed (fun _ => at_time day0 10 0 0) [0%nat] forgotten_db).2
    !! (0%nat, day0) = None.
Proof. repeat split; vm_compute; reflexivity. Qed.

(** ** Saving a session *)

Lemma pre_save_closed_when_checked_out s : closed_when_checked_out (pre_save s).
Proof.
  unfold closed_when_checked_out, pre_save, is_completed.
  destruct (check_out_time s) eqn:Hout; simpl; [done|]. by rewrite Hout.
Qed.

(** Whatever is saved, a table in which no session has a check-out time
    while marked active stays so. *)
Lemma save_keeps_closed_when_checked_out pk s db db' :
  save pk s db = inr db' ->
  Forall closed_when_checked_out (gym_sessions db) ->
  Forall closed_when_checked_out (gym_sessions db').
Proof.
  intros [-> _]%save_inr Hall. apply Forall_insert; [done|].
  apply pre_save_closed_when_checked_out.
Qed.

(** C10, amended. Saving a session that has a check-out time marks it
    inactive and stores the whole minutes of [check_out - check_in],
    truncated toward zero (the floor whenever the check-out is not before
    the check-in), whatever duration was assigned before; the other fields
    are kept. When these minutes are negative the database refuses the row
    and nothing is saved; otherwise the row written is the recomputed one,
    as it always is when the check-out is not before the check-in.
    Consequently a table in which no session has a check-out time while
    marked active stays so under [save]. *)
Theorem save_recomputes_duration pk s db check_out
    (Hout : check_out_time s = Some check_out) :
  let s' := pre_save s in
  is_active s' = false /\
  duration_minutes s' = Z.quot (check_out - check_in_time s) us_per_minute /\
  (check_in_time s <= check_out ->
     duration_minutes s' = (check_out - check_in_time s) / us_per_minute) /\
  (forall v, pre_save (set_duration_minutes v s) = s') /\
  (student s', check_in_time s', check_out_time s', date s') =
    (student s, check_in_time s, Some check_out, date s) /\
  save pk s db =
    (if duration_minutes s' <? 0 then inl IntegrityError
     else inr (set_gym_sessions (<[pk := s']> (gym_sessions db)) db)) /\
  (check_in_time s <= check_out -> (pk < length (gym_sessions db))%nat ->
     exists db', save pk s db = inr db' /\ gym_sessions db' !! pk = Some s') /\
  (forall db', save pk s db = inr db' ->
     ((pk < length (gym_sessions db))%nat -> gym_sessions db' !! pk = Some s') /\
     (Forall closed_when_checked_out (gym_sessions db) ->
      Forall closed_when_checked_out (gym_sessions db'))).
Proof.
  intros s'.
  assert (duration_minutes s' = minutes_trunc (check_out - check_in_time s)) as Hdur.
  { unfold s', pre_save. by rewrite Hout. }
  split; [unfold s', pre_save; by rewrite Hout|]. split; [done|]. split.
  { intros Hle. rewrite Hdur. apply minutes_trunc_floor. lia. }
  split.
  { intros v. unfold s', pre_save. simpl. by rewrite Hout. }
  split; [unfold s', pre_save; rewrite Hout; simpl; by rewrite Hout|].
  split; [reflexivity|]. split.
  - intros Hle Hpk. exists (update_row pk s' db). split.
    + rewrite save_unfold. unfold saves. fold s'. rewrite Hdur.
      destruct (Z.leb_spec 0 (minutes_trunc (check_out - check_in_time s))) as [|Hneg];
        [done|].
      pose proof (proj2 (minutes_trunc_nonneg (check_out - check_in_time s))) as Hnn.
      assert (0 < us_per_minute) by reflexivity. lia.
    + by apply list_lookup_insert_eq.
  - intros db' Hsave. split.
    + apply save_inr in Hsave as [-> _]. intros Hpk. by apply list_lookup_insert_eq.
    + by apply (save_keeps_closed_when_checked_out pk s).
Qed.

(** A check-out after 61 minutes and 47 seconds is stored as 61 minutes,
    over the stale value 661. *)
Lemma save_recomputes_duration_witness :
  duration_minutes
    (pre_save (set_check_out_time (Some (at_time day0 10 34 32)) overlong_session)) = 61.
Proof.
  exact (proj1 (proj2 (save_recomputes_duration 0%nat
           (set_check_out_time (Some (at_time day0 10 34 32)) overlong_session)
           overlong_db (at_time day0 10 34 32) eq_refl))).
Defined.

(** C10 as stated fails on a negative span: for a check-out 30 seconds
    before the check-in, [save] stores 0 minutes while the floor is -1. *)
Lemma save_truncates_negative_span :
  check_out_time skewed_session = Some (at_time day0 15 59 59) /\
  duration_minutes (pre_save skewed_session) = 0 /\
  minutes_floor (at_time day0 15 59 59 - check_in_time skewed_session) = -1 /\
  ~ saved_as_floor skewed_session.
Proof.
  split; [reflexivity|]. split; [reflexivity|]. split; [reflexivity|].
  intros Hfloor. specialize (Hfloor _ eq_refl). vm_compute in Hfloor. discriminate.
Qed.

(** ** Negative durations in the closer *)

(** C8 (defect). For a check-in at 07:30 local time in a zone eight hours
    ahead of UTC, which lies after the local end of the session's (UTC)
    date, the closer computes the clamped duration 0 and assigns it, but
    [save] recomputes the duration from the timestamps as -450 and the
    database refuses the row: the session is not closed with 0 minutes, the
    closer and the daily maintenance leave with [IntegrityError] and the
    store as it was. So it is for every selected session checked in a minute
    or more after the end of its date. *)
Lemma close_stale_clamp_overridden :
  duration_minutes (close_assign utc_plus_8 late_session) = 0 /\
  duration_minutes (pre_save (close_assign utc_plus_8 late_session)) = -450 /\
  save 0 (close_assign utc_plus_8 late_session) late_db = inl IntegrityError /\
  close_stale_sessions_before_today utc_plus_8 (at_time (day0 + 2) 1 0 0) late_db =
    (inl IntegrityError, late_db) /\
  run_daily_maintenance utc_plus_8 (at_time (day0 + 2) 1 0 0) late_db =
    (inl IntegrityError, late_db) /\
  (forall tz s pk db,
     _end_of_day tz (date s) + us_per_minute <= check_in_time s ->
     duration_minutes (close_assign tz s) = 0 /\
     save pk (close_assign tz s) db = inl IntegrityError).
Proof.
  do 5 (split; [vm_compute; reflexivity|]).
  intros tz s pk db Hlate. split.
  - unfold close_assign, minutes_floor. cbn [duration_minutes set_is_active
      set_duration_minutes]. 
    assert (0 < hours 2) by reflexivity. assert (0 < us_per_minute) as Hm by reflexivity.
    rewrite Z.min_r by lia.
    destruct (Z.ltb_spec ((_end_of_day tz (date s) - check_in_time s) / us_per_minute) 0)
      as [|Hge]; [done|].
    assert ((_end_of_day tz (date s) - check_in_time s) / us_per_minute < 0); [|lia].
    apply Z.div_lt_upper_bound; lia.
  - rewrite save_unfold.
    destruct (saves (close_assign tz s)) eqn:Hsaves; [|done].
    apply saves_close_assign in Hsaves. unfold closable in Hsaves. lia.
Qed.

(** ** Choosing the surviving record *)

(** The choice is a function of the group that does not depend on the order
    in which two candidates with different keys are listed. *)
Lemma choose_primary_two r1 r2 :
  MergeDuplicates.key_le (MergeDuplicates.key r1) (MergeDuplicates.key r2) = true ->
  MergeDuplicates.key_le (MergeDuplicates.key r2) (MergeDuplicates.key r1) = false ->
  MergeDuplicates.choose_primary [r1; r2] = Some r1 /\
  MergeDuplicates.choose_primary [r2; r1] = Some r1.
Proof.
  intros H12 H21. unfold MergeDuplicates.choose_primary, order_by.
  cbn [foldr insert_by]. by rewrite H12, H21.
Qed.

(** A better ID pattern wins before anything else is compared, and among
    equal patterns a candidate with an RFID tag wins over one without. *)
Lemma choose_primary_by_id_then_rfid r1 r2 :
  MergeDuplicates.id_score (MergeDuplicates.student_id r1) <
    MergeDuplicates.id_score (MergeDuplicates.student_id r2) \/
  (MergeDuplicates.id_score (MergeDuplicates.student_id r1) =
     MergeDuplicates.id_score (MergeDuplicates.student_id r2) /\
   MergeDuplicates.truthy (MergeDuplicates.rfid r1) = true /\
   MergeDuplicates.truthy (MergeDuplicates.rfid r2) = false) ->
  MergeDuplicates.choose_primary [r1; r2] = Some r1 /\
  MergeDuplicates.choose_primary [r2; r1] = Some r1.
Proof.
  intros Hcase. apply choose_primary_two; unfold MergeDuplicates.key_le, MergeDuplicates.key.
  - destruct Hcase as [Hlt|(Heq & Hr1 & Hr2)].
    + by apply Z.ltb_lt in Hlt as ->.
    + by rewrite Heq, Z.ltb_irrefl, Hr1, Hr2.
  - destruct Hcase as [Hlt|(Heq & Hr1 & Hr2)].
    + rewrite (proj2 (Z.ltb_ge _ _)) by lia. by apply Z.ltb_lt in Hlt as ->.
    + by rewrite Heq, Z.ltb_irrefl, Hr1, Hr2.
Qed.

(** C9 (defect). Between two candidates that tie on the ID pattern and on
    the RFID tag, the one registered earlier is chosen, in either listing
    order: the registration date is compared ascending. *)
Lemma choose_primary_prefers_earlier_registration :
  MergeDuplicates.choose_primary
    [MergeDuplicates.registered_2024; MergeDuplicates.registered_2025] =
    Some MergeDuplicates.registered_2024 /\
  MergeDuplicates.choose_primary
    [MergeDuplicates.registered_2025; MergeDuplicates.registered_2024] =
    Some MergeDuplicates.registered_2024.
Proof. by apply choose_primary_two. Qed.

(** * Further properties *)

(** ** The maintenance routines as maps over the sessions table *)

Lemma close_stale_sessions_map tz now db :
  gym_sessions (closed_store tz (datetime_date now) db) =
  close_row tz (datetime_date now) <$> gym_sessions db.
Proof.
  apply list_eq. intros pk. rewrite list_lookup_fmap.
  destruct (gym_sessions db !! pk) as [s|] eqn:Hl; simpl.
  - by apply close_stale_lookup.
  - apply lookup_ge_None. rewrite close_stale_length. by apply lookup_ge_None.
Qed.

Lemma cap_sessions_map tz now db :
  gym_sessions (cap_sessions_on_previous_days_to_two_hours tz now db).2 =
  cap_row tz (datetime_date now) <$> gym_sessions db.
Proof.
  apply list_eq. intros pk. rewrite list_lookup_fmap.
  destruct (gym_sessions db !! pk) as [s|] eqn:Hl; simpl.
  - by apply cap_lookup.
  - apply lookup_ge_None. rewrite cap_length. by apply lookup_ge_None.
Qed.

(** The daily maintenance run either returns, with the store that the
    capper leaves after the closer, or raises what the closer raised, with
    the store as it was. *)
Lemma run_daily_maintenance_unfold tz now db :
  run_daily_maintenance tz now db =
  if forallb (fun r : nat * GymSession => saves (close_assign tz r.2))
       (stale_sessions (datetime_date now) db)
  then (inr tt,
        (cap_sessions_on_previous_days_to_two_hours tz now
           (closed_store tz (datetime_date now) db)).2)
  else (inl IntegrityError, db).
Proof.
  unfold run_daily_maintenance. rewrite close_stale_unfold. cbv zeta.
  destruct (forallb _ _); [|done]. by rewrite cap_unfold.
Qed.

Lemma run_daily_maintenance_returns tz now db :
  all_closable tz (datetime_date now) db ->
  run_daily_maintenance tz now db =
  (inr tt,
   (cap_sessions_on_previous_days_to_two_hours tz now
      (closed_store tz (datetime_date now) db)).2).
Proof.
  intros Hall. rewrite run_daily_maintenance_unfold.
  by rewrite (proj2 (all_closable_forallb tz _ db) Hall).
Qed.

Lemma run_daily_maintenance_cases tz now db :
  run_daily_maintenance tz now db = (inl IntegrityError, db) \/
  run_daily_maintenance tz now db =
  (inr tt,
   (cap_sessions_on_previous_days_to_two_hours tz now
      (closed_store tz (datetime_date now) db)).2).
Proof.
  rewrite run_daily_maintenance_unfold. destruct (forallb _ _); [by right|by left].
Qed.

Lemma maintained_sessions tz now db :
  gym_sessions
    (cap_sessions_on_previous_days_to_two_hours tz now
       (closed_store tz (datetime_date now) db)).2 =
  (fun s => cap_row tz (datetime_date now) (close_row tz (datetime_date now) s))
    <$> gym_sessions db.
Proof. rewrite cap_sessions_map, close_stale_sessions_map, <- list_fmap_compose. done. Qed.

Lemma close_row_key tz today s :
  student (close_row tz today s) = student s /\ date (close_row tz today s) = date s.
Proof. unfold close_row. by destruct (is_stale today s). Qed.

Lemma cap_row_key tz today s :
  student (cap_row tz today s) = student s /\ date (cap_row tz today s) = date s.
Proof.
  unfold cap_row. destruct (date s <? today); [|done].
  rewrite stored_cap_assign. cbv zeta. by destruct (_ <=? hours 2).
Qed.

Lemma cap_assign_stored tz s : cap_assign tz (stored (cap_assign tz) s) = None.
Proof.
  destruct (cap_assign tz s) as [s'|] eqn:Hcap.
  - rewrite stored_cap_assign. unfold cap_assign in Hcap |- *.
    destruct (_ <=? hours 2) eqn:Hle in Hcap; [done|]. rewrite Hle. simpl.
    replace (check_in_time s + hours 2 - check_in_time s) with (hours 2) by lia.
    done.
  - unfold stored. by rewrite Hcap.
Qed.

Lemma cap_assign_cap_row tz today s :
  date s < today -> cap_assign tz (cap_row tz today s) = None.
Proof.
  intros Hlt. unfold cap_row.
  destruct (Z.ltb_spec (date s) today); [|lia]. apply cap_assign_stored.
Qed.

(** A loop whose iterations all skip their row returns the store as it was. *)
Lemma loop_skip upd qs db :
  (forall r, r ∈ qs -> upd r.2 = None) -> fold_left (touch upd) qs db = db.
Proof.
  revert db. induction qs as [|r qs IH]; intros db Hskip; simpl; [done|].
  unfold touch at 2. rewrite (Hskip r) by by left.
  apply IH. intros r' Hin. apply Hskip. by right.
Qed.

Lemma filter_nil_length {A} (P : A -> bool) (l : list A) :
  (forall x, x ∈ l -> P x = false) -> List.filter P l = [].
Proof.
  induction l as [|x l IH]; intros HP; simpl; [done|].
  rewrite (HP x) by by left. apply IH. intros y Hy. apply HP. by right.
Qed.

Lemma filter_fmap_length {A} (P : A -> bool) (f : A -> A) (l : list A) :
  (forall x, P (f x) = P x) ->
  length (List.filter P (f <$> l)) = length (List.filter P l).
Proof.
  intros HP. induction l as [|x l IH]; [done|].
  rewrite fmap_cons. cbn [List.filter]. rewrite HP.
  destruct (P x); cbn [length]; by rewrite IH.
Qed.

Lemma sessions_before_length today db :
  length (sessions_before today db) =
  length (List.filter (fun s => date s <? today) (gym_sessions db)).
Proof.
  unfold sessions_before. rewrite (Permutation_length (order_by_perm _ _)).
  by apply (filter_imap_length (fun s => date s <? today)).
Qed.

(** Once the capper has run, it finds nothing left to rewrite. *)
Lemma cap_settled tz now db r :
  r ∈ sessions_before (datetime_date now)
        (cap_sessions_on_previous_days_to_two_hours tz now db).2 ->
  cap_assign tz r.2 = None.
Proof.
  destruct r as [pk s']. intros Hin.
  apply sessions_before_elem in Hin as [Hl Hlt].
  rewrite cap_sessions_map, list_lookup_fmap in Hl.
  destruct (gym_sessions db !! pk) as [s|]; simplify_eq/=.
  destruct (cap_row_key tz (datetime_date now) s) as [_ Hd].
  apply cap_assign_cap_row. by rewrite <- Hd.
Qed.

Lemma cap_fixpoint tz now db :
  (cap_sessions_on_previous_days_to_two_hours tz now
     (cap_sessions_on_previous_days_to_two_hours tz now db).2).2 =
  (cap_sessions_on_previous_days_to_two_hours tz now db).2.
Proof.
  rewrite (cap_db tz now (cap_sessions_on_previous_days_to_two_hours tz now db).2).
  apply loop_skip. intros r Hin. by apply (cap_settled tz now db).
Qed.

(** X1. The capper never raises. Running it a second time on the same day
    changes nothing in the store; it examines the same number of sessions
    and reports none rewritten. *)
Theorem cap_idempotent tz now1 now2 db
    (Hsame_day : datetime_date now2 = datetime_date now1) :
  exists examined updated,
    cap_sessions_on_previous_days_to_two_hours tz now1 db =
      (inr (examined, updated),
       (cap_sessions_on_previous_days_to_two_hours tz now1 db).2) /\
    cap_sessions_on_previous_days_to_two_hours tz now2
      (cap_sessions_on_previous_days_to_two_hours tz now1 db).2 =
      (inr (examined, O), (cap_sessions_on_previous_days_to_two_hours tz now1 db).2).
Proof.
  eexists _, _. split; [by rewrite (cap_unfold tz now1)|].
  rewrite (cap_unfold tz now2). cbv zeta. rewrite Hsame_day.
  rewrite loop_skip by (intros r Hin; by apply (cap_settled tz now1 db)).
  rewrite filter_nil_length.
  2:{ intros r Hin. unfold is_overlong. by rewrite (cap_settled tz now1 db r Hin). }
  do 3 f_equal. rewrite !sessions_before_length.
  rewrite cap_sessions_map. apply filter_fmap_length.
  intros s. by destruct (cap_row_key tz (datetime_date now1) s) as [_ ->].
Qed.

Lemma cap_idempotent_witness :
  exists examined updated,
    cap_sessions_on_previous_days_to_two_hours utc (at_time (day0 + 1) 8 0 0) overlong_db =
      (inr (examined, updated),
       (cap_sessions_on_previous_days_to_two_hours utc (at_time (day0 + 1) 8 0 0)
          overlong_db).2) /\
    cap_sessions_on_previous_days_to_two_hours utc (at_time (day0 + 1) 9 0 0)
      (cap_sessions_on_previous_days_to_two_hours utc (at_time (day0 + 1) 8 0 0)
         overlong_db).2 =
      (inr (examined, O),
       (cap_sessions_on_previous_days_to_two_hours utc (at_time (day0 + 1) 8 0 0)
          overlong_db).2).
Proof.
  apply (cap_idempotent utc (at_time (day0 + 1) 8 0 0) (at_time (day0 + 1) 9 0 0)).
  reflexivity.
Defined.

(** ** The daily maintenance run *)

Lemma close_row_not_stale tz today s : is_stale today (close_row tz today s) = false.
Proof. unfold close_row. by destruct (is_stale today s) eqn:Hst. Qed.

Lemma cap_row_not_stale tz today s :
  is_stale today s = false -> is_stale today (cap_row tz today s) = false.
Proof.
  intros Hst. unfold cap_row. destruct (date s <? today); [|done].
  rewrite stored_cap_assign. cbv zeta. by destruct (_ <=? hours 2).
Qed.

Lemma pre_save_in_step s : is_completed s = true -> duration_in_step (pre_save s).
Proof.
  unfold is_completed, duration_in_step, pre_save.
  destruct (check_out_time s) as [co|] eqn:Hout; [|done]. intros _. simpl.
  by rewrite Hout.
Qed.

Lemma close_row_in_step tz today s :
  duration_in_step s -> duration_in_step (close_row tz today s).
Proof.
  intros Hstep. unfold close_row. destruct (is_stale today s); [|done].
  by apply pre_save_in_step.
Qed.

Lemma cap_row_in_step tz today s :
  duration_in_step s -> duration_in_step (cap_row tz today s).
Proof.
  intros Hstep. unfold cap_row. destruct (date s <? today); [|done].
  rewrite stored_cap_assign. cbv zeta. destruct (_ <=? hours 2); [done|].
  unfold duration_in_step. simpl. by rewrite minutes_trunc_two_hours.
Qed.

Lemma close_row_inactive tz today s :
  closed_when_checked_out s -> date s < today ->
  is_active (close_row tz today s) = false.
Proof.
  intros Hinv Hlt. unfold close_row, is_stale.
  destruct (is_active s) eqn:Hact; simpl.
  - destruct (is_completed s) eqn:Hc; simpl.
    + rewrite Hinv in Hact; done.
    + by destruct (Z.ltb_spec (date s) today); [|lia].
  - done.
Qed.

Lemma cap_row_inactive tz today s :
  is_active s = false -> is_active (cap_row tz today s) = false.
Proof.
  intros Hact. unfold cap_row. destruct (date s <? today); [|done].
  rewrite stored_cap_assign. cbv zeta. by destruct (_ <=? hours 2).
Qed.

Lemma stale_sessions_none today db :
  Forall (fun s => is_stale today s = false) (gym_sessions db) ->
  stale_sessions today db = [].
Proof.
  intros Hall. apply elem_of_nil_inv. intros [pk s] Hin.
  apply stale_sessions_elem in Hin as [Hl Hst].
  apply (proj1 (Forall_lookup _ _) Hall pk s) in Hl. congruence.
Qed.

Lemma close_stale_nothing_to_do tz now db :
  Forall (fun s => is_stale (datetime_date now) s = false) (gym_sessions db) ->
  close_stale_sessions_before_today tz now db = (inr (O, O), db).
Proof.
  intros Hall. unfold close_stale_sessions_before_today.
  rewrite stale_sessions_none by done. cbn [for_each atomic]. by rewrite size_empty.
Qed.

(** X2. When every session that the closer selects can be closed (none was
    checked in a minute or more after the end of its date in the time
    zone), the daily maintenance run returns, and afterwards no session
    dated before today is left active without a check-out; if in addition
    no session had a check-out while marked active, no session dated before
    today is left active at all. *)
Theorem daily_maintenance_closes_previous_days tz now db
    (Hclosable : all_closable tz (datetime_date now) db) :
  let today := datetime_date now in
  let db' := (run_daily_maintenance tz now db).2 in
  (run_daily_maintenance tz now db).1 = inr tt /\
  Forall (fun s => is_active s && negb (is_completed s) && (date s <? today) = false)
    (gym_sessions db') /\
  (Forall closed_when_checked_out (gym_sessions db) ->
   Forall (fun s => date s < today -> is_active s = false) (gym_sessions db')).
Proof.
  intros today db'. unfold db'. rewrite run_daily_maintenance_returns by done.
  cbn [fst snd]. rewrite maintained_sessions. split; [done|]. split.
  - apply Forall_fmap, Forall_true. intros s. simpl.
    apply cap_row_not_stale, close_row_not_stale.
  - intros Hinv. apply Forall_fmap. eapply Forall_impl; [exact Hinv|].
    intros s Hs. simpl. intros Hlt. apply cap_row_inactive, close_row_inactive; [done|].
    destruct (cap_row_key tz today (close_row tz today s)) as [_ Hd1].
    destruct (close_row_key tz today s) as [_ Hd2]. fold today in Hlt. lia.
Qed.

Lemma daily_maintenance_closes_previous_days_witness :
  (run_daily_maintenance utc (at_time (day0 + 1) 8 0 0) forgotten_db).1 = inr tt /\
  Forall (fun s => is_active s && negb (is_completed s) &&
                   (date s <? datetime_date (at_time (day0 + 1) 8 0 0)) = false)
    (gym_sessions (run_daily_maintenance utc (at_time (day0 + 1) 8 0 0) forgotten_db).2).
Proof.
  assert (all_closable utc (datetime_date (at_time (day0 + 1) 8 0 0)) forgotten_db)
    as Hclosable.
  { repeat constructor. }
  split.
  - apply (daily_maintenance_closes_previous_days utc (at_time (day0 + 1) 8 0 0)
             forgotten_db Hclosable).
  - apply (daily_maintenance_closes_previous_days utc (at_time (day0 + 1) 8 0 0)
             forgotten_db Hclosable).
Defined.

(** X3. When every session that the closer selects can be closed and the
    stored durations agree with the timestamps before the daily maintenance
    run, they still do afterwards, and every session dated before today
    then lasts at most 120 minutes. *)
Theorem daily_maintenance_bounds_previous_days tz now db
    (Hclosable : all_closable tz (datetime_date now) db)
    (Hstep : Forall duration_in_step (gym_sessions db)) :
  let db' := (run_daily_maintenance tz now db).2 in
  Forall duration_in_step (gym_sessions db') /\
  Forall (fun s => date s < datetime_date now -> duration_minutes s <= 120)
    (gym_sessions db').
Proof.
  intros db'. unfold db'. rewrite run_daily_maintenance_returns by done.
  cbn [snd]. rewrite maintained_sessions. split.
  - apply Forall_fmap. eapply Forall_impl; [exact Hstep|].
    intros s Hs. simpl. by apply cap_row_in_step, close_row_in_step.
  - apply Forall_fmap. eapply Forall_impl; [exact Hstep|].
    intros s Hs. simpl. intros Hlt. unfold cap_row at 1.
    destruct (cap_row_key tz (datetime_date now) (close_row tz (datetime_date now) s))
      as [_ Hd].
    rewrite Hd in Hlt. destruct (Z.ltb_spec (date (close_row tz (datetime_date now) s))
                                   (datetime_date now)); [|lia].
    by apply stored_cap_assign_bound, close_row_in_step.
Qed.

Lemma daily_maintenance_bounds_previous_days_witness :
  Forall (fun s => date s < datetime_date (at_time (day0 + 1) 8 0 0) ->
                   duration_minutes s <= 120)
    (gym_sessions (run_daily_maintenance utc (at_time (day0 + 1) 8 0 0) forgotten_db).2).
Proof.
  apply (daily_maintenance_bounds_previous_days utc (at_time (day0 + 1) 8 0 0) forgotten_db).
  - repeat constructor.
  - repeat constructor.
Defined.

Lemma maintained_not_stale tz now db :
  Forall (fun s => is_stale (datetime_date now) s = false)
    (gym_sessions
       (cap_sessions_on_previous_days_to_two_hours tz now
          (closed_store tz (datetime_date now) db)).2).
Proof.
  rewrite maintained_sessions. apply Forall_fmap, Forall_true. intros s. simpl.
  apply cap_row_not_stale, close_row_not_stale.
Qed.

(** X4. Running the daily maintenance a second time on the same day ends
    as the first run did and leaves the store of the first run: after a run
    that returned it returns and changes nothing, after a run that raised
    it raises again, with the store as it was. *)
Theorem daily_maintenance_idempotent tz now1 now2 db
    (Hsame_day : datetime_date now2 = datetime_date now1) :
  run_daily_maintenance tz now2 (run_daily_maintenance tz now1 db).2 =
  run_daily_maintenance tz now1 db.
Proof.
  rewrite (run_daily_maintenance_unfold tz now1 db).
  destruct (forallb _ _) eqn:Hall; cbn [snd].
  - unfold run_daily_maintenance.
    rewrite close_stale_nothing_to_do
      by (rewrite Hsame_day; apply maintained_not_stale).
    rewrite (cap_unfold tz now2). cbv zeta. rewrite Hsame_day. f_equal.
    apply loop_skip. intros r Hin.
    by apply (cap_settled tz now1 (closed_store tz (datetime_date now1) db) r).
  - rewrite run_daily_maintenance_unfold, Hsame_day. by rewrite Hall.
Qed.

Lemma daily_maintenance_idempotent_witness :
  run_daily_maintenance utc (at_time (day0 + 1) 9 0 0)
    (run_daily_maintenance utc (at_time (day0 + 1) 8 0 0) forgotten_db).2 =
  run_daily_maintenance utc (at_time (day0 + 1) 8 0 0) forgotten_db.
Proof.
  apply (daily_maintenance_idempotent utc (at_time (day0 + 1) 8 0 0)
           (at_time (day0 + 1) 9 0 0)).
  reflexivity.
Defined.

Lemma close_stale_frame tz now db :
  let db' := closed_store tz (datetime_date now) db in
  students db' = students db /\
  forall st d, datetime_date now <= d -> daily_stats db' !! (st, d) = daily_stats db !! (st, d).
Proof.
  intros db'. unfold db'. unfold closed_store. split; [apply loop_students|].
  intros st d Hd. apply (loop_stats_other _ (close_assign_keeps_key tz)).
  intros pk s s' Hin _ [= _ Heq].
  apply stale_sessions_elem in Hin as [_ Hst]. unfold is_stale in Hst.
  apply andb_true_iff in Hst as [_ Hlt]. apply Z.ltb_lt in Hlt. lia.
Qed.

Lemma cap_frame tz now db :
  let db' := (cap_sessions_on_previous_days_to_two_hours tz now db).2 in
  students db' = students db /\
  forall st d, datetime_date now <= d -> daily_stats db' !! (st, d) = daily_stats db !! (st, d).
Proof.
  intros db'. unfold db'. rewrite cap_db. split; [apply loop_students|].
  intros st d Hd. apply (loop_stats_other _ (cap_assign_keeps_key tz)).
  intros pk s s' Hin _ [= _ Heq].
  apply sessions_before_elem in Hin as [_ Hlt]. lia.
Qed.

(** X5. The daily maintenance run, whether it returns or raises, never
    touches the students table, the number of sessions, a session dated
    today or later, or the aggregate of a date that is today or later. *)
Theorem daily_maintenance_frame tz now db :
  let today := datetime_date now in
  let db' := (run_daily_maintenance tz now db).2 in
  students db' = students db /\
  length (gym_sessions db') = length (gym_sessions db) /\
  (forall pk s, gym_sessions db !! pk = Some s -> today <= date s ->
     gym_sessions db' !! pk = Some s) /\
  (forall st d, today <= d -> daily_stats db' !! (st, d) = daily_stats db !! (st, d)).
Proof.
  intros today db'. unfold db', today. clear db' today.
  destruct (run_daily_maintenance_cases tz now db) as [->| ->]; [done|]. cbn [snd].
  destruct (close_stale_frame tz now db) as [Hs1 Hd1].
  destruct (cap_frame tz now (closed_store tz (datetime_date now) db)) as [Hs2 Hd2].
  split; [by rewrite Hs2|]. split; [by rewrite cap_length, close_stale_length|]. split.
  - intros pk s Hl Hge.
    rewrite maintained_sessions, !list_lookup_fmap, Hl. simpl.
    f_equal. unfold close_row, is_stale.
    destruct (Z.ltb_spec (date s) (datetime_date now)) as [|_]; [lia|].
    rewrite andb_false_r. unfold cap_row.
    by destruct (Z.ltb_spec (date s) (datetime_date now)) as [|_]; [lia|].
  - intros st d Hd. by rewrite Hd2, Hd1.
Qed.

(** ** The RFID tap and the check-in/check-out endpoint *)

Lemma checked_out_cases db now st pk s :
  (save pk (set_check_out_time (Some now) s) db = inl IntegrityError /\
   checked_out db now st pk s = db) \/
  (0 <= minutes_trunc (now - check_in_time s) /\
   save pk (set_check_out_time (Some now) s) db =
     inr (update_row pk (pre_save (set_check_out_time (Some now) s)) db) /\
   checked_out db now st pk s =
     update_daily_stats st (date s)
       (update_row pk (pre_save (set_check_out_time (Some now) s)) db)).
Proof.
  unfold checked_out. rewrite save_unfold. unfold saves.
  destruct (Z.leb_spec 0 (duration_minutes (pre_save (set_check_out_time (Some now) s))));
    [right|by left].
  done.
Qed.

Lemma tap_store db now st :
  (tap db now st).2 =
  match active_session db st with
  | Some (pk, session) => checked_out db now st pk session
  | None =>
      if (can_check_in db st (datetime_date now)).1
      then (create st now (datetime_date now) db).2
      else db
  end.
Proof.
  unfold tap, checked_out.
  destruct (can_check_in db st (datetime_date now)) as [can rem]. simpl.
  destruct (active_session db st) as [[pk session]|].
  - destruct (save pk _ db) as [e|db1]; [done|].
    by destruct (can_check_in _ st (datetime_date now)).
  - destruct can; [|done].
    by destruct (can_check_in _ st (datetime_date now)).
Qed.

Lemma post_store db now sid st a :
  get_student db sid = Some st ->
  (post db now sid a).2 =
  match a, active_session db st with
  | CHECK_OUT, Some (pk, session) => checked_out db now st pk session
  | CHECK_IN, None =>
      if (can_check_in db st (datetime_date now)).1
      then (create st now (datetime_date now) db).2
      else db
  | _, _ => db
  end.
Proof.
  intros Hst. unfold post, validate, checked_out. rewrite Hst.
  destruct a, (active_session db st) as [[pk session]|]; try done.
  - by destruct (can_check_in db st (datetime_date now)) as [[|] rem].
  - by destruct (save pk _ db).
Qed.

(** X6. A tap leaves the store exactly as the explicit endpoint leaves it
    for the action that the state calls for: a check-out when the student
    has an active session, a check-in otherwise (including the refusal at
    the daily limit and a check-out that the database refuses, which change
    nothing). *)
Theorem tap_acts_as_endpoint db now sid st
    (Hstudent : get_student db sid = Some st) :
  (has_active_session db st -> (tap db now st).2 = (post db now sid CHECK_OUT).2) /\
  (~ has_active_session db st -> (tap db now st).2 = (post db now sid CHECK_IN).2).
Proof.
  rewrite tap_store, !(post_store db now sid st) by done. split.
  - intros Hact. apply active_session_is_Some in Hact as [[pk s] ->]. done.
  - intros Hno. apply active_session_None in Hno. by rewrite Hno.
Qed.

Lemma tap_acts_as_endpoint_witness :
  (tap forgotten_db (at_time day0 10 0 0) 0%nat).2 =
  (post forgotten_db (at_time day0 10 0 0) "2023-140001" CHECK_OUT).2.
Proof.
  apply (proj1 (tap_acts_as_endpoint forgotten_db (at_time day0 10 0 0)
                  "2023-140001" 0%nat eq_refl)).
  exists 0%nat, forgotten_session. repeat split; reflexivity.
Defined.

(** ** Invariants of the sessions table *)

Lemma checkout_sessions db pk x st d :
  gym_sessions (update_daily_stats st d (update_row pk x db)) =
  <[pk := x]> (gym_sessions db).
Proof. done. Qed.

Lemma create_sessions st now d db :
  gym_sessions (create st now d db).2 =
  gym_sessions db ++ [mkGymSession st now None 0 d true].
Proof. done. Qed.

Lemma at_most_one_active_checkout db pk s now st :
  at_most_one_active db -> at_most_one_active (checked_out db now st pk s).
Proof.
  intros Hinv. destruct (checked_out_cases db now st pk s) as [[_ ->]|(_ & _ & ->)]; [done|].
  intros pk1 pk2 s1 s2. rewrite checkout_sessions.
  rewrite !list_lookup_insert_Some.
  intros [(_ & <- & _)|[Hne1 Hl1]] [(_ & <- & _)|[Hne2 Hl2]] Hst Ha1 Ha2; try done.
  by apply (Hinv pk1 pk2 s1 s2).
Qed.

Lemma at_most_one_active_create db st now d :
  active_session db st = None -> at_most_one_active db ->
  at_most_one_active (create st now d db).2.
Proof.
  intros Hno Hinv pk1 pk2 s1 s2. rewrite create_sessions.
  apply active_session_None in Hno.
  rewrite !lookup_app_Some.
  intros [Hl1|[Hge1 Hl1]] [Hl2|[Hge2 Hl2]] Hst Ha1 Ha2.
  - by apply (Hinv pk1 pk2 s1 s2).
  - apply list_lookup_singleton_Some in Hl2 as [_ <-]. simpl in Hst.
    destruct Hno. by exists pk1, s1.
  - apply list_lookup_singleton_Some in Hl1 as [_ <-]. simpl in Hst.
    destruct Hno. by exists pk2, s2.
  - apply list_lookup_singleton_Some in Hl1 as [Hpk1 _].
    apply list_lookup_singleton_Some in Hl2 as [Hpk2 _]. lia.
Qed.

Lemma at_most_one_active_fmap (f : GymSession -> GymSession) db db' :
  (forall s, student (f s) = student s) ->
  (forall s, is_active (f s) = true -> is_active s = true) ->
  gym_sessions db' = f <$> gym_sessions db ->
  at_most_one_active db -> at_most_one_active db'.
Proof.
  intros Hst Hact Hmap Hinv pk1 pk2 s1 s2. rewrite Hmap, !list_lookup_fmap.
  destruct (gym_sessions db !! pk1) as [x1|] eqn:Hl1; [|done].
  destruct (gym_sessions db !! pk2) as [x2|] eqn:Hl2; [|done].
  simpl. intros [= <-] [= <-]. rewrite !Hst. intros Heq Ha1 Ha2.
  apply (Hinv pk1 pk2 x1 x2); auto.
Qed.

Lemma close_row_active tz today s :
  is_active (close_row tz today s) = true -> is_active s = true.
Proof. unfold close_row. by destruct (is_stale today s). Qed.

Lemma cap_row_active tz today s :
  is_active (cap_row tz today s) = true -> is_active s = true.
Proof.
  unfold cap_row. destruct (date s <? today); [|done].
  rewrite stored_cap_assign. cbv zeta. by destruct (_ <=? hours 2).
Qed.

Lemma post_store_cases db now sid a :
  (post db now sid a).2 = db \/
  exists st,
    get_student db sid = Some st /\
    ((exists pk s, active_session db st = Some (pk, s) /\
        (post db now sid a).2 = checked_out db now st pk s) \/
     (active_session db st = None /\
        (post db now sid a).2 = (create st now (datetime_date now) db).2)).
Proof.
  destruct (get_student db sid) as [st|] eqn:Hst.
  - rewrite (post_store db now sid st a Hst).
    destruct a, (active_session db st) as [[pk s]|] eqn:Hact; auto.
    + destruct (can_check_in db st (datetime_date now)).1; [|by left].
      right. exists st. split; [done|]. by right.
    + right. exists st. split; [done|]. left. by exists pk, s.
  - left. unfold post, validate. by rewrite Hst.
Qed.

Lemma tap_store_cases db now st :
  (tap db now st).2 = db \/
  (exists pk s, active_session db st = Some (pk, s) /\
     (tap db now st).2 = checked_out db now st pk s) \/
  (active_session db st = None /\
     (tap db now st).2 = (create st now (datetime_date now) db).2).
Proof.
  rewrite tap_store. destruct (active_session db st) as [[pk s]|] eqn:Hact.
  - right. left. by exists pk, s.
  - destruct (can_check_in db st (datetime_date now)).1; [|by left].
    right. by right.
Qed.

(** X7. If no student has two active sessions, this is still so after any
    request to the check-in/check-out endpoint, after any RFID tap, and
    after the daily maintenance run, whether they succeed or fail. *)
Theorem at_most_one_active_preserved db
    (Hinv : at_most_one_active db) :
  (forall now sid a, at_most_one_active (post db now sid a).2) /\
  (forall now st, at_most_one_active (tap db now st).2) /\
  (forall tz now, at_most_one_active (run_daily_maintenance tz now db).2).
Proof.
  split; [|split].
  - intros now sid a.
    destruct (post_store_cases db now sid a)
      as [->|(st & _ & [(pk & s & _ & ->)|[Hno ->]])]; [done| |].
    + by apply at_most_one_active_checkout.
    + by apply at_most_one_active_create.
  - intros now st.
    destruct (tap_store_cases db now st) as [->|[(pk & s & _ & ->)|[Hno ->]]]; [done| |].
    + by apply at_most_one_active_checkout.
    + by apply at_most_one_active_create.
  - intros tz now.
    destruct (run_daily_maintenance_cases tz now db) as [->| ->]; [done|]. cbn [snd].
    apply (at_most_one_active_fmap
             (fun s => cap_row tz (datetime_date now) (close_row tz (datetime_date now) s)) db);
      [| |apply maintained_sessions|done].
    + intros s. destruct (cap_row_key tz (datetime_date now)
                            (close_row tz (datetime_date now) s)) as [-> _].
      by destruct (close_row_key tz (datetime_date now) s) as [-> _].
    + intros s Ha. by apply cap_row_active, close_row_active in Ha.
Qed.

Lemma at_most_one_active_preserved_witness :
  at_most_one_active (post forgotten_db (at_time day0 10 0 0) "2023-140001" CHECK_OUT).2.
Proof.
  assert (at_most_one_active forgotten_db) as Hinv.
  { intros [|pk1] [|pk2] s1 s2 Hl1 Hl2; done. }
  apply (proj1 (at_most_one_active_preserved forgotten_db Hinv)).
Defined.

Lemma consistent_pre_save s : is_completed s = true -> consistent_row (pre_save s).
Proof.
  intros Hc. split; [apply pre_save_closed_when_checked_out|by apply pre_save_in_step].
Qed.

Lemma consistent_close_row tz today s :
  consistent_row s -> consistent_row (close_row tz today s).
Proof.
  intros Hs. unfold close_row. destruct (is_stale today s); [|done].
  by apply consistent_pre_save.
Qed.

Lemma consistent_cap_row tz today s :
  consistent_row s -> consistent_row (cap_row tz today s).
Proof.
  intros Hs. unfold cap_row, stored. destruct (date s <? today); [|done].
  destruct (cap_assign tz s) as [s'|] eqn:Hcap; [|done].
  apply consistent_pre_save. unfold cap_assign in Hcap.
  destruct (_ <=? hours 2); [done|]. by inversion Hcap.
Qed.

(** X8. If every stored session is as [save] leaves it (not active once it
    has a check-out, duration in step with the timestamps), this is still so
    after any request to the check-in/check-out endpoint, after any RFID
    tap, and after the daily maintenance run, whether they succeed or
    fail. *)
Theorem consistent_rows_preserved db
    (Hinv : Forall consistent_row (gym_sessions db)) :
  (forall now sid a, Forall consistent_row (gym_sessions (post db now sid a).2)) /\
  (forall now st, Forall consistent_row (gym_sessions (tap db now st).2)) /\
  (forall tz now, Forall consistent_row (gym_sessions (run_daily_maintenance tz now db).2)).
Proof.
  assert (forall pk s now st,
            Forall consistent_row (gym_sessions (checked_out db now st pk s)))
    as Hcheckout.
  { intros. destruct (checked_out_cases db now st pk s) as [[_ ->]|(_ & _ & ->)]; [done|].
    rewrite checkout_sessions. apply Forall_insert; [done|].
    by apply consistent_pre_save. }
  assert (forall st now d, Forall consistent_row (gym_sessions (create st now d db).2))
    as Hcreate.
  { intros. rewrite create_sessions. apply Forall_app. split; [done|].
    by repeat constructor. }
  split; [|split].
  - intros now sid a.
    destruct (post_store_cases db now sid a)
      as [->|(st & _ & [(pk & s & _ & ->)|[_ ->]])]; auto.
  - intros now st.
    destruct (tap_store_cases db now st) as [->|[(pk & s & _ & ->)|[_ ->]]]; auto.
  - intros tz now.
    destruct (run_daily_maintenance_cases tz now db) as [->| ->]; [done|]. cbn [snd].
    rewrite maintained_sessions.
    apply Forall_fmap. eapply Forall_impl; [exact Hinv|].
    intros s Hs. simpl. by apply consistent_cap_row, consistent_close_row.
Qed.

Lemma consistent_rows_preserved_witness :
  Forall consistent_row
    (gym_sessions (post forgotten_db (at_time day0 10 0 0) "2023-140001" CHECK_OUT).2).
Proof.
  assert (Forall consistent_row (gym_sessions forgotten_db)) as Hinv.
  { by repeat constructor. }
  apply (proj1 (consistent_rows_preserved forgotten_db Hinv)).
Defined.

(** ** The first row of a sorted queryset *)

(** The head of the sorted list is smallest for every measure that the
    comparison respects. *)
Lemma head_order_by_min {A} (le : A -> A -> bool) (score : A -> Z) (l : list A) m :
  (forall a b, le a b = true -> score a <= score b) ->
  (forall a b, le a b = false -> score b <= score a) ->
  head (order_by le l) = Some m ->
  forall x, x ∈ l -> score m <= score x.
Proof.
  intros Hle Hgt. revert m. induction l as [|x l IH]; intros m Hm y Hy.
  { by apply elem_of_nil in Hy. }
  simpl in Hm. destruct (order_by le l) as [|h t] eqn:Hsorted.
  - apply order_by_nil_inv in Hsorted as ->. simpl in Hm. inversion Hm; subst.
    apply list_elem_of_singleton in Hy as ->. lia.
  - simpl in Hm. specialize (IH h eq_refl).
    destruct (le x h) eqn:Hxh; inversion Hm; subst.
    + apply elem_of_cons in Hy as [->|Hy]; [lia|].
      specialize (IH y Hy). specialize (Hle _ _ Hxh). lia.
    + apply elem_of_cons in Hy as [->|Hy]; [by apply Hgt|by apply IH].
Qed.

Lemma active_session_latest db st pk s :
  active_session db st = Some (pk, s) ->
  forall pk' s', gym_sessions db !! pk' = Some s' -> student s' = st ->
    is_active s' = true -> check_in_time s' <= check_in_time s.
Proof.
  intros Hact pk' s' Hl Hst Ha. unfold active_session in Hact.
  assert (- check_in_time (pk, s).2 <= - check_in_time (pk', s').2) as Hmin;
    [|simpl in Hmin; lia].
  apply (head_order_by_min by_check_in_time_desc
           (fun r : nat * GymSession => - check_in_time r.2) _ _
           ltac:(unfold by_check_in_time_desc; intros a b H%Z.leb_le; lia)
           ltac:(unfold by_check_in_time_desc; intros a b H%Z.leb_gt; lia)
           Hact).
  apply list_elem_of_In, filter_In. split.
  - by apply list_elem_of_In, objects_lookup.
  - simpl. rewrite Ha, andb_true_r. by apply Nat.eqb_eq.
Qed.

Lemma get_daily_gym_time_stats db st d :
  stats_ok db (st, d) ->
  total_minutes <$> daily_stats db !! (st, d) = Some (get_daily_gym_time db st d).
Proof. unfold stats_ok. by intros ->. Qed.

(** What a 200 answer of the endpoint tells. *)
Lemma post_check_out_ok db now sid session minutes db' :
  post db now sid CHECK_OUT = (HTTP_200_OK session minutes, db') ->
  exists st pk s,
    get_student db sid = Some st /\
    active_session db st = Some (pk, s) /\
    0 <= minutes_trunc (now - check_in_time s) /\
    session = pre_save (set_check_out_time (Some now) s) /\
    db' = update_daily_stats st (date s)
            (update_row pk (pre_save (set_check_out_time (Some now) s)) db) /\
    minutes = get_daily_gym_time db' st (date s).
Proof.
  intros Hpost. unfold post, validate in Hpost.
  destruct (get_student db sid) as [st|] eqn:Hst; [|done].
  destruct (active_session db st) as [[pk s]|] eqn:Hact; [|done].
  destruct (save pk (set_check_out_time (Some now) s) db) as [e|db1] eqn:Hsave; [done|].
  apply save_inr in Hsave as [-> Hnn].
  inversion Hpost; subst. clear Hpost.
  by exists st, pk, s.
Qed.

(** X9. A successful check-out closes the most recently checked-in active
    session of the student and no other row: that row gets
    [check_out_time = now], is marked inactive and stores the whole minutes
    since its check-in, with no cap; the day's total returned to the caller
    is the total of the aggregate row written for the date of that session. *)
Theorem check_out_closes_latest_session db now sid session minutes db'
    (Hpost : post db now sid CHECK_OUT = (HTTP_200_OK session minutes, db')) :
  exists st pk s,
    get_student db sid = Some st /\
    gym_sessions db !! pk = Some s /\ student s = st /\ is_active s = true /\
    (forall pk' s', gym_sessions db !! pk' = Some s' -> student s' = st ->
       is_active s' = true -> check_in_time s' <= check_in_time s) /\
    session = mkGymSession st (check_in_time s) (Some now)
                (minutes_trunc (now - check_in_time s)) (date s) false /\
    gym_sessions db' = <[pk := session]> (gym_sessions db) /\
    total_minutes <$> daily_stats db' !! (st, date s) = Some minutes.
Proof.
  apply post_check_out_ok in Hpost as (st & pk & s & Hst & Hact & _ & -> & -> & ->).
  pose proof (active_session_latest db st pk s Hact) as Hlatest.
  apply active_session_Some in Hact as (Hl & Hs & Ha). subst st.
  exists (student s), pk, s. repeat split; try done.
  apply get_daily_gym_time_stats, update_daily_stats_ok.
Qed.

Lemma check_out_closes_latest_session_witness :
  exists st pk s,
    get_student forgotten_db "2023-140001" = Some st /\
    gym_sessions forgotten_db !! pk = Some s /\ student s = st /\ is_active s = true /\
    (forall pk' s', gym_sessions forgotten_db !! pk' = Some s' -> student s' = st ->
       is_active s' = true -> check_in_time s' <= check_in_time s) /\
    mkGymSession 0 (at_time day0 9 0 0) (Some (at_time day0 13 0 0)) 240 day0 false =
      mkGymSession st (check_in_time s) (Some (at_time day0 13 0 0))
        (minutes_trunc (at_time day0 13 0 0 - check_in_time s)) (date s) false /\
    gym_sessions (post forgotten_db (at_time day0 13 0 0) "2023-140001" CHECK_OUT).2 =
      <[pk := mkGymSession 0 (at_time day0 9 0 0) (Some (at_time day0 13 0 0)) 240 day0 false]>
        (gym_sessions forgotten_db) /\
    total_minutes <$>
      daily_stats (post forgotten_db (at_time day0 13 0 0) "2023-140001" CHECK_OUT).2
        !! (st, date s) = Some 240.
Proof.
  exact (check_out_closes_latest_session forgotten_db (at_time day0 13 0 0)
           "2023-140001" _ _ _ eq_refl).
Defined.

Lemma active_filter_nil db st :
  active_session db st = None ->
  List.filter (fun r : nat * GymSession => Nat.eqb (student r.2) st && is_active r.2)
    (objects db) = [].
Proof. unfold active_session. by rewrite head_order_by_None. Qed.

Lemma active_session_create db st now d :
  active_session db st = None ->
  active_session (create st now d db).2 st =
  Some (length (gym_sessions db), mkGymSession st now None 0 d true).
Proof.
  intros Hno. apply active_filter_nil in Hno.
  unfold active_session, objects in *. rewrite create_sessions, imap_app.
  rewrite List.filter_app, Hno. simpl. by rewrite Nat.eqb_refl, Nat.add_0_r.
Qed.

(** X10. Two taps in a row (the second not a minute or more before the
    first) by a student who has no active session and is below the daily
    limit add exactly one completed session to the table, checked in at the
    first tap and out at the second, leave the student without an active
    session, and leave the aggregate of that day in step with the table. *)
Theorem tap_twice_records_one_session db now1 now2 st
    (Hno : ~ has_active_session db st)
    (Hlimit : get_daily_gym_time db st (datetime_date now1) < 120)
    (Hlater : now1 - us_per_minute < now2) :
  let db2 := (tap (tap db now1 st).2 now2 st).2 in
  gym_sessions db2 =
    gym_sessions db ++
    [mkGymSession st now1 (Some now2) (minutes_trunc (now2 - now1))
       (datetime_date now1) false] /\
  ~ has_active_session db2 st /\
  stats_ok db2 (st, datetime_date now1).
Proof.
  intros db2.
  assert ((can_check_in db st (datetime_date now1)).1 = true) as Hcan.
  { by apply can_check_in_true. }
  apply active_session_None in Hno as Hnone.
  assert (db2 = update_daily_stats st (datetime_date now1)
                  (update_row (length (gym_sessions db))
                     (pre_save
                        (set_check_out_time (Some now2)
                           (mkGymSession st now1 None 0 (datetime_date now1) true)))
                     (create st now1 (datetime_date now1) db).2)) as ->.
  { unfold db2. rewrite (tap_store db), Hnone, Hcan, tap_store.
    rewrite active_session_create by done.
    destruct (checked_out_cases (create st now1 (datetime_date now1) db).2 now2 st
                (length (gym_sessions db))
                (mkGymSession st now1 None 0 (datetime_date now1) true))
      as [[Hraise _]|(_ & _ & ->)]; [|done].
    rewrite save_unfold in Hraise. unfold saves in Hraise.
    change (duration_minutes (pre_save _)) with (minutes_trunc (now2 - now1)) in Hraise.
    pose proof (proj2 (minutes_trunc_nonneg (now2 - now1)) ltac:(lia)) as Hnn.
    by destruct (Z.leb_spec 0 (minutes_trunc (now2 - now1))); [|lia]. }
  assert (gym_sessions
            (update_daily_stats st (datetime_date now1)
               (update_row (length (gym_sessions db))
                  (pre_save
                     (set_check_out_time (Some now2)
                        (mkGymSession st now1 None 0 (datetime_date now1) true)))
                  (create st now1 (datetime_date now1) db).2)) =
          gym_sessions db ++
          [mkGymSession st now1 (Some now2) (minutes_trunc (now2 - now1))
             (datetime_date now1) false]) as Hrows.
  { rewrite checkout_sessions, create_sessions.
    rewrite insert_app_r_alt by lia. by rewrite Nat.sub_diag. }
  split; [done|]. split; [|apply update_daily_stats_ok].
  intros (pk & s & Hl & Hst & Ha). rewrite Hrows in Hl.
  apply lookup_app_Some in Hl as [Hl|[_ Hl]].
  - apply Hno. by exists pk, s.
  - apply list_lookup_singleton_Some in Hl as [_ <-]. done.
Qed.

Lemma tap_twice_records_one_session_witness :
  gym_sessions
    (tap (tap overlong_db (at_time (day0 + 1) 9 0 0) 0%nat).2
       (at_time (day0 + 1) 9 45 30) 0%nat).2 =
  [overlong_session;
   mkGymSession 0 (at_time (day0 + 1) 9 0 0) (Some (at_time (day0 + 1) 9 45 30)) 45
     (day0 + 1) false].
Proof.
  apply (tap_twice_records_one_session overlong_db (at_time (day0 + 1) 9 0 0)
           (at_time (day0 + 1) 9 45 30) 0%nat).
  - apply active_session_None. reflexivity.
  - reflexivity.
  - reflexivity.
Defined.

(** ** The heatmap *)

Lemma heatmap_loop_elem fuel db st a b c e :
  e ∈ heatmap_loop fuel db st a b c <->
  c <= entry_date e <= b /\ entry_date e < c + Z.of_nat fuel /\
  weekday (entry_date e) < 5 /\
  e = mkHeatmapEntry (entry_date e) (stats_dict_get db st a b (entry_date e))
        (get_intensity_level (stats_dict_get db st a b (entry_date e))).
Proof.
  revert c. induction fuel as [|fuel IH]; intros c.
  { simpl. split; [by intros ?%elem_of_nil|lia]. }
  cbn [heatmap_loop]. destruct (Z.leb_spec c b) as [Hcb|Hcb].
  2:{ split; [by intros ?%elem_of_nil|lia]. }
  rewrite elem_of_app, IH. split.
  - intros [Hhead|Htail].
    + destruct (Z.ltb_spec (weekday c) 5) as [Hwd|]; [|by apply elem_of_nil in Hhead].
      apply list_elem_of_singleton in Hhead as ->. simpl. repeat split; lia.
    + destruct Htail as (? & ? & ? & ?). repeat split; try done; lia.
  - intros (Hrange & Hfuel & Hwd & He).
    destruct (decide (entry_date e = c)) as [Heq|Hne].
    + left. rewrite <- Heq. destruct (Z.ltb_spec (weekday (entry_date e)) 5); [|lia].
      rewrite He at 1. by left.
    + right. repeat split; try done; lia.
Qed.

Lemma heatmap_loop_sorted fuel db st a b c :
  StronglySorted Z.lt (entry_date <$> heatmap_loop fuel db st a b c).
Proof.
  revert c. induction fuel as [|fuel IH]; intros c; [constructor|].
  cbn [heatmap_loop]. destruct (c <=? b); [|constructor].
  destruct (weekday c <? 5); simpl; [|apply IH].
  constructor; [apply IH|].
  apply Forall_fmap, Forall_forall. intros e He. simpl.
  apply heatmap_loop_elem in He. lia.
Qed.

(** The loop has stopped within the iterations that the serializer allows:
    with any further iterations allowed the result is the same. *)
Lemma heatmap_loop_fuel extra db st a b c :
  heatmap_loop (Z.to_nat (b - c + 1) + extra) db st a b c =
  heatmap_loop (Z.to_nat (b - c + 1)) db st a b c.
Proof.
  remember (Z.to_nat (b - c + 1)) as n eqn:Hn. revert c Hn.
  induction n as [|n IH]; intros c Hn.
  - destruct extra as [|extra]; [done|]. simpl.
    by destruct (Z.leb_spec c b); [lia|].
  - cbn [Nat.add heatmap_loop]. destruct (c <=? b); [|done].
    f_equal. apply IH. lia.
Qed.

(** X11. The heatmap of a student over [start, end] has one entry for each
    Monday-to-Friday date of the range and no other entry, in strictly
    increasing date order; the count of an entry is the [total_minutes] of
    the student's statistics row for that date, or 0 when there is none, its
    level is between 0 and 4, and the level is 0 exactly when the count is 0.
    The loop that builds it stops by itself. *)
Theorem heatmap_covers_workdays db now st start_date end_date :
  let last := default (datetime_date now) end_date in
  let first := default (last - 365) start_date in
  let heatmap := generate_heatmap_data db now st start_date end_date in
  (forall e, e ∈ heatmap <->
     first <= entry_date e <= last /\ weekday (entry_date e) < 5 /\
     entry_count e = default 0 (total_minutes <$> daily_stats db !! (st, entry_date e)) /\
     entry_level e = get_intensity_level (entry_count e)) /\
  StronglySorted Z.lt (entry_date <$> heatmap) /\
  Forall (fun e => 0 <= entry_level e <= 4 /\ (entry_level e = 0 <-> entry_count e = 0))
    heatmap /\
  (forall extra,
     heatmap_loop (Z.to_nat (last - first + 1) + extra) db st first last first = heatmap).
Proof.
  intros last first heatmap. unfold heatmap, generate_heatmap_data.
  fold last. fold first. split; [|split; [|split]].
  - intros e. rewrite heatmap_loop_elem. unfold stats_dict_get. split.
    + intros (Hrange & _ & Hwd & He).
      destruct (Z.leb_spec first (entry_date e)); [|lia].
      destruct (Z.leb_spec (entry_date e) last); [|lia]. simpl in He.
      rewrite He. simpl. done.
    + intros (Hrange & Hwd & Hcount & Hlevel).
      destruct (Z.leb_spec first (entry_date e)); [|lia].
      destruct (Z.leb_spec (entry_date e) last); [|lia]. simpl.
      repeat split; try lia. destruct e as [d c l]. simpl in *. by subst.
  - apply heatmap_loop_sorted.
  - apply Forall_forall. intros e He. apply heatmap_loop_elem in He as (_ & _ & _ & ->).
    simpl. unfold get_intensity_level.
    destruct (Z.eqb_spec (stats_dict_get db st first last (entry_date e)) 0) as [->|Hne].
    + done.
    + repeat destruct (_ <=? _); lia.
  - intros extra. apply heatmap_loop_fuel.
Qed.

Lemma heatmap_entry_of_stats db now st start_date end_date (d : calendar_date) row :
  let last := default (datetime_date now) end_date in
  let first := default (last - 365) start_date in
  daily_stats db !! (st, d) = Some row ->
  first <= d <= last -> weekday d < 5 ->
  mkHeatmapEntry d (total_minutes row) (get_intensity_level (total_minutes row))
    ∈ generate_heatmap_data db now st start_date end_date.
Proof.
  intros last first Hrow Hrange Hwd. unfold generate_heatmap_data.
  fold last. fold first. apply heatmap_loop_elem. cbn [entry_date].
  unfold stats_dict_get. rewrite Hrow.
  destruct (Z.leb_spec first d); [|lia]. destruct (Z.leb_spec d last); [|lia].
  cbn [andb fmap option_fmap option_map default]. repeat split; try done; lia.
Qed.

(** X12. After a successful check-out of a session that began on a
    Monday-to-Friday date within the last 365 days, the student's default
    heatmap shows, for the date of that session, exactly the day's total
    that the check-out returned. *)
Theorem heatmap_shows_checked_out_minutes db now sid st session minutes db'
    (Hstudent : get_student db sid = Some st)
    (Hpost : post db now sid CHECK_OUT = (HTTP_200_OK session minutes, db'))
    (Hrange : datetime_date now - 365 <= date session <= datetime_date now)
    (Hworkday : weekday (date session) < 5) :
  mkHeatmapEntry (date session) minutes (get_intensity_level minutes)
    ∈ generate_heatmap_data db' now st None None.
Proof.
  apply post_check_out_ok in Hpost as (st' & pk & s & Hst & Hact & _ & -> & -> & ->).
  assert (st' = st) as -> by congruence.
  set (closed := pre_save (set_check_out_time (Some now) s)) in *.
  set (db1 := update_daily_stats st (date s) (update_row pk closed db)).
  pose proof (update_daily_stats_ok st (date s) (update_row pk closed db)) as Hok.
  fold db1 in Hok. unfold stats_ok in Hok.
  apply (heatmap_entry_of_stats db1 now st None None (date closed) _ Hok); done.
Qed.

Lemma heatmap_shows_checked_out_minutes_witness :
  mkHeatmapEntry day0 240 4
    ∈ generate_heatmap_data
        (post forgotten_db (at_time day0 13 0 0) "2023-140001" CHECK_OUT).2
        (at_time day0 13 0 0) 0%nat None None.
Proof.
  apply (heatmap_shows_checked_out_minutes forgotten_db (at_time day0 13 0 0)
           "2023-140001" 0%nat
           (mkGymSession 0 (at_time day0 9 0 0) (Some (at_time day0 13 0 0)) 240 day0 false)
           240 _ eq_refl eq_refl).
  - vm_compute. split; discriminate.
  - reflexivity.
Defined.

(** ** Streaks *)

Lemma current_streak_loop_nonneg today k l : 0 <= current_streak_loop today k l.
Proof.
  revert k. induction l as [|d l IH]; intros k; simpl; [done|].
  destruct (d =? today - k); [|done]. specialize (IH (k + 1)). lia.
Qed.

Lemma head_rev_last {A} (l : list A) : head (rev l) = last l.
Proof.
  induction l as [|x l _] using rev_ind; [done|].
  by rewrite rev_app_distr, last_snoc.
Qed.

(** The state of the longest-streak loop after the dates [l]. *)
Lemma longest_streak_state l :
  let '(previous, temp_streak, longest_streak) :=
    fold_left longest_streak_step l (None, 0, 0) in
  previous = head (rev l) /\
  0 <= temp_streak <= longest_streak /\
  longest_streak <= Z.of_nat (length l) /\
  (l <> [] -> 1 <= longest_streak) /\
  forall today k, current_streak_loop today k (rev l) <= temp_streak.
Proof.
  induction l as [|d l IH] using rev_ind.
  { simpl. repeat split; try done. }
  rewrite fold_left_app. simpl.
  destruct (fold_left longest_streak_step l (None, 0, 0)) as [[previous temp] longest].
  destruct IH as (Hprev & Htemp & Hlen & Hpos & Hcur).
  rewrite rev_app_distr, length_app. simpl.
  unfold longest_streak_step.
  destruct previous as [p|].
  - assert (1 <= longest) as Hone.
    { apply Hpos. intros ->. done. }
    destruct (Z.eqb_spec d (p + 1)) as [Hcons|Hbreak].
    + repeat split; try lia. intros today k.
      destruct (d =? today - k); [|lia]. specialize (Hcur today (k + 1)). lia.
    + repeat split; try lia.
      intros today k. destruct (Z.eqb_spec d (today - k)) as [Hd|]; [|lia].
      destruct (rev l) as [|p' rest]; [done|]. simpl in Hprev.
      inversion Hprev; subst p'. simpl.
      destruct (Z.eqb_spec p (today - (k + 1))); [lia|lia].
  - repeat split; try lia. intros today k.
    destruct (rev l) as [|p' rest]; [|done]. simpl.
    destruct (d =? today - k); lia.
Qed.

Lemma streak_dates_elem db st d :
  d ∈ streak_dates db st <->
  exists row, daily_stats db !! (st, d) = Some row /\ 0 < total_minutes row.
Proof.
  unfold streak_dates. rewrite (order_by_perm Z.leb), list_elem_of_omap. split.
  - intros ([[st' d'] row] & Hin & Hsel). apply elem_of_map_to_list in Hin.
    simpl in Hsel. destruct (Nat.eqb_spec st' st) as [->|]; [|done].
    destruct (Z.ltb_spec 0 (total_minutes row)); [|done].
    simpl in Hsel. inversion Hsel; subst. by exists row.
  - intros (row & Hrow & Hpos). exists (st, d, row). split.
    + by apply elem_of_map_to_list.
    + simpl. rewrite Nat.eqb_refl. by destruct (Z.ltb_spec 0 (total_minutes row)); [|lia].
Qed.

(** The two loops on any list of dates. *)
Lemma streak_loops_bounded today dates :
  0 <= current_streak_of today dates <= longest_streak_of dates /\
  longest_streak_of dates <= Z.of_nat (length dates) /\
  (0 < current_streak_of today dates <-> last dates = Some today) /\
  (0 < longest_streak_of dates <-> dates <> []).
Proof.
  pose proof (longest_streak_state dates) as Hstate.
  unfold longest_streak_of, current_streak_of.
  destruct (fold_left longest_streak_step dates (None, 0, 0)) as [[previous temp] longest].
  destruct Hstate as (_ & Htemp & Hlen & Hpos & Hcur). simpl.
  pose proof (current_streak_loop_nonneg today 0 (rev dates)) as Hnn.
  specialize (Hcur today 0).
  assert (0 < current_streak_loop today 0 (rev dates) <-> last dates = Some today)
    as Hlast.
  { rewrite <- head_rev_last. destruct (rev dates) as [|d rest]; simpl; [done|].
    rewrite Z.sub_0_r. destruct (Z.eqb_spec d today) as [->|Hne].
    - pose proof (current_streak_loop_nonneg today (0 + 1) rest). split; [done|lia].
    - split; [lia|]. intros [= ?]. done. }
  split; [lia|]. split; [done|]. split; [done|].
  split; [|intros Hne; specialize (Hpos Hne); lia].
  intros Hlt ->. simpl in Hlen. lia.
Qed.

(** X13. The streaks that [get_student_stats] returns: the current streak
    is between 0 and the longest streak, which is at most the number of the
    student's statistics rows with positive minutes. The current streak is
    positive exactly when the student has a completed session and the last
    of these rows is dated today; the longest streak is positive exactly
    when the student has a completed session and there is such a row. A
    student without a completed session gets 0 and 0 whatever the
    statistics rows say. *)
Theorem streaks_bounded db now st :
  let stats := get_student_stats db now st in
  let today := datetime_date now in
  let dates := streak_dates db st in
  0 <= current_streak stats <= longest_streak stats /\
  longest_streak stats <= Z.of_nat (length dates) /\
  (0 < current_streak stats <->
     completed_sessions db st <> [] /\ last dates = Some today) /\
  (0 < longest_streak stats <-> completed_sessions db st <> [] /\ dates <> []) /\
  (0 < current_streak stats ->
     exists row, daily_stats db !! (st, today) = Some row /\ 0 < total_minutes row) /\
  (completed_sessions db st = [] -> stats = mkStudentStats 0 0).
Proof.
  intros stats today dates.
  assert (0 < current_streak stats -> last dates = Some today) as Hrow.
  { unfold stats, get_student_stats. fold dates. fold today.
    destruct (completed_sessions db st); [simpl; lia|].
    destruct dates as [|d0 ds] eqn:Hdates; [simpl; lia|].
    cbn [current_streak]. by intros H%streak_loops_bounded. }
  assert (0 <= current_streak stats <= longest_streak stats /\
          longest_streak stats <= Z.of_nat (length dates) /\
          (0 < current_streak stats <->
             completed_sessions db st <> [] /\ last dates = Some today) /\
          (0 < longest_streak stats <-> completed_sessions db st <> [] /\ dates <> []) /\
          (completed_sessions db st = [] -> stats = mkStudentStats 0 0))
    as (H1 & H2 & H3 & H4 & H5).
  { unfold stats, get_student_stats. fold dates. fold today.
    destruct (completed_sessions db st) as [|c cs].
    { simpl. repeat split; try lia; try done; by intros [? _]. }
    destruct dates as [|d0 ds] eqn:Hdates.
    { simpl. repeat split; try lia; try done; by intros [_ ?]. }
    cbn [current_streak longest_streak].
    destruct (streak_loops_bounded today (d0 :: ds)) as (B1 & B2 & B3 & B4).
    split; [done|]. split; [done|]. split; [|split; [|done]].
    - rewrite B3. split; [done|]. by intros [_ ?].
    - rewrite B4. split; [done|]. by intros [_ ?]. }
  split; [done|]. split; [done|]. split; [done|]. split; [done|]. split; [|done].
  intros Hcurrent. apply streak_dates_elem.
  apply Hrow in Hcurrent. by apply last_Some_elem_of in Hcurrent.
Qed.

(** ** Loops that rewrite rows in place *)

Section FoldRows.
Variable step : DB -> nat * GymSession -> DB.
Variable new_row : nat * GymSession -> GymSession.
Hypothesis step_sessions :
  forall db r, gym_sessions db !! r.1 = Some r.2 ->
    gym_sessions (step db r) = <[r.1 := new_row r]> (gym_sessions db).

Lemma rows_of_step r qs db : rows_of (r :: qs) db -> rows_of qs (step db r).
Proof.
  intros [Hnd Hrows]. rewrite fmap_cons in Hnd.
  apply NoDup_cons in Hnd as [Hr Hnd]. split; [done|].
  intros pk s Hin. rewrite step_sessions, list_lookup_insert_ne.
  - apply Hrows. by right.
  - intros Heq. apply Hr. rewrite Heq. apply list_elem_of_fmap. by exists (pk, s).
  - destruct r as [pk0 s0]. apply Hrows. by left.
Qed.

Lemma fold_rows_length qs db :
  rows_of qs db ->
  length (gym_sessions (fold_left step qs db)) = length (gym_sessions db).
Proof.
  revert db. induction qs as [|r qs IH]; intros db Hrows; simpl; [done|].
  rewrite IH by by apply rows_of_step.
  rewrite step_sessions, length_insert; [done|].
  destruct r as [pk0 s0]. apply Hrows. by left.
Qed.

Lemma fold_rows_other qs db pk :
  rows_of qs db -> pk ∉ qs.*1 ->
  gym_sessions (fold_left step qs db) !! pk = gym_sessions db !! pk.
Proof.
  revert db. induction qs as [|r qs IH]; intros db Hrows Hpk; simpl; [done|].
  rewrite fmap_cons, not_elem_of_cons in Hpk. destruct Hpk as [Hne Hpk].
  rewrite IH by (by apply rows_of_step || done).
  rewrite step_sessions, list_lookup_insert_ne; [done..|].
  destruct r as [pk0 s0]. apply Hrows. by left.
Qed.

Lemma fold_rows_lookup qs db pk s :
  rows_of qs db -> (pk, s) ∈ qs ->
  gym_sessions (fold_left step qs db) !! pk = Some (new_row (pk, s)).
Proof.
  revert db. induction qs as [|r qs IH]; intros db Hrows Hin; simpl.
  { by apply elem_of_nil in Hin. }
  apply elem_of_cons in Hin as [<-|Hin].
  - rewrite fold_rows_other.
    + rewrite step_sessions by (apply Hrows; by left).
      apply list_lookup_insert_eq. eapply lookup_lt_Some, Hrows. by left.
    + by apply rows_of_step.
    + destruct Hrows as [Hnd _]. rewrite fmap_cons in Hnd.
      by apply NoDup_cons in Hnd as [? _].
  - apply IH; [by apply rows_of_step|done].
Qed.
End FoldRows.

(** ** The [cap_session_durations] command *)

Lemma cap_command_step_unfold dry_run clock n m db r :
  cap_command_step dry_run clock (n, m, db) r =
  if dry_run || cap_command_saves r.2
  then inr ((if cap_command_overlong clock r then S n else n), S m,
            if dry_run then db else cap_command_write clock db r)
  else inl IntegrityError.
Proof.
  destruct r as [pk s].
  unfold cap_command_step, cap_command_saves, cap_command_overlong, cap_command_write,
    cap_command_row, is_completed.
  cbv zeta. cbn [fst snd].
  destruct (check_out_time s) as [co|] eqn:Hout.
  - destruct (co - check_in_time s <=? hours 2) eqn:Hle; cbn [negb andb].
    + destruct (negb (duration_minutes s =? minutes_trunc (co - check_in_time s)));
        [|by destruct dry_run].
      destruct dry_run; [done|]. cbn [orb].
      rewrite save_unfold. unfold saves, pre_save. cbn. rewrite Hout. cbn.
      by destruct (0 <=? minutes_trunc (co - check_in_time s)).
    + destruct dry_run; [done|]. cbn [orb].
      rewrite save_unfold. unfold saves.
      change (duration_minutes (pre_save _))
        with (minutes_trunc (check_in_time s + hours 2 - check_in_time s)).
      by rewrite minutes_trunc_two_hours.
  - destruct (clock pk - check_in_time s <=? hours 2) eqn:Hle; cbn [negb andb].
    + by destruct dry_run.
    + destruct dry_run; [done|]. cbn [orb].
      rewrite save_unfold. unfold saves.
      change (duration_minutes (pre_save _))
        with (minutes_trunc (check_in_time s + hours 2 - check_in_time s)).
      by rewrite minutes_trunc_two_hours.
Qed.

Lemma cap_command_fold (dry_run : bool) clock qs (n m : nat) (db : DB) :
  fold_left
    (fun (acc : nat * nat * DB) (r : nat * GymSession) =>
       ((if cap_command_overlong clock r then S acc.1.1 else acc.1.1), S acc.1.2,
        if dry_run then acc.2 else cap_command_write clock acc.2 r))
    qs (n, m, db) =
  ((n + length (List.filter (cap_command_overlong clock) qs))%nat,
   (m + length qs)%nat,
   if dry_run then db else fold_left (cap_command_write clock) qs db).
Proof.
  revert n m db. induction qs as [|r qs IH]; intros n m db.
  - simpl. rewrite !Nat.add_0_r. by destruct dry_run.
  - cbn [fold_left List.filter length fst snd]. rewrite IH.
    destruct dry_run, (cap_command_overlong clock r); cbn [length]; do 2 f_equal; lia.
Qed.

(** The command either returns, having examined every row of its queryset
    and counted the overlong ones, or raises what a [save] raised, with the
    store as it was. *)
Lemma cap_session_durations_unfold (dry_run : bool) since clock db :
  cap_session_durations dry_run since clock db =
  let qs := sessions_since since db in
  if forallb (fun r : nat * GymSession => dry_run || cap_command_saves r.2) qs
  then (inr (length qs, length (List.filter (cap_command_overlong clock) qs)),
        if dry_run then db else fold_left (cap_command_write clock) qs db)
  else (inl IntegrityError, db).
Proof.
  unfold cap_session_durations. cbv zeta.
  rewrite (for_each_pure _
             (fun r : nat * GymSession => dry_run || cap_command_saves r.2)
             (fun (acc : nat * nat * DB) (r : nat * GymSession) =>
                ((if cap_command_overlong clock r then S acc.1.1 else acc.1.1), S acc.1.2,
                 if dry_run then acc.2 else cap_command_write clock acc.2 r))).
  2:{ intros [[n m] db0] r. apply cap_command_step_unfold. }
  destruct (forallb _ _); [|done]. by rewrite cap_command_fold.
Qed.

Lemma forallb_true {A} (l : list A) : forallb (fun _ => true) l = true.
Proof. by induction l. Qed.

(** X14. A dry run of the [cap_session_durations] command never raises and
    leaves the store untouched; it reports the numbers of examined and
    overlong sessions that the real run reports when that run returns. (The
    real run can instead raise [IntegrityError], which leaves the store
    untouched as well.) *)
Theorem cap_command_dry_run since clock db :
  exists counts,
    cap_session_durations true since clock db = (inr counts, db) /\
    ((cap_session_durations false since clock db).1 = inr counts \/
     cap_session_durations false since clock db = (inl IntegrityError, db)).
Proof.
  rewrite !cap_session_durations_unfold. cbv zeta. cbn [orb].
  rewrite forallb_true. eexists. split; [done|].
  destruct (forallb _ _); [by left|by right].
Qed.

Lemma cap_command_write_sessions clock db r :
  gym_sessions db !! r.1 = Some r.2 ->
  gym_sessions (cap_command_write clock db r) =
  <[r.1 := cap_command_row clock r]> (gym_sessions db).
Proof.
  destruct r as [pk s]. simpl. intros Hl.
  unfold cap_command_write, cap_command_row. cbv zeta. cbn [fst snd].
  destruct (_ <=? hours 2); [|done].
  destruct (is_completed s && _); [done|].
  by rewrite list_insert_id.
Qed.

Lemma sessions_since_elem since db pk s :
  (pk, s) ∈ sessions_since since db <->
  gym_sessions db !! pk = Some s /\
  match since with Some d => d <= date s | None => True end.
Proof.
  unfold sessions_since. rewrite query_elem. simpl.
  destruct since as [d|]; [by rewrite Z.leb_le|].
  split; intros [Hl _]; done.
Qed.

Lemma cap_command_row_bounded clock r :
  date (cap_command_row clock r) = date r.2 /\
  (is_completed (cap_command_row clock r) = true ->
   duration_in_step (cap_command_row clock r) /\
   duration_minutes (cap_command_row clock r) <= 120).
Proof.
  destruct r as [pk s]. unfold cap_command_row. cbn [fst snd].
  destruct (_ <=? hours 2) eqn:Hle.
  - apply Z.leb_le in Hle. unfold is_completed, duration_in_step in *.
    destruct (check_out_time s) as [co|] eqn:Hout; simpl.
    + destruct (Z.eqb_spec (duration_minutes s) (minutes_trunc (co - check_in_time s)))
        as [Heq|Hne]; simpl.
      * split; [done|]. rewrite Hout. intros _. split; [done|].
        rewrite Heq. by apply minutes_trunc_le_two_hours.
      * unfold pre_save. simpl. rewrite Hout. simpl. split; [done|].
        rewrite Hout. intros _. split; [done|]. by apply minutes_trunc_le_two_hours.
    + split; [done|]. by rewrite Hout.
  - split; [done|]. intros _. unfold duration_in_step. simpl.
    by rewrite minutes_trunc_two_hours.
Qed.

Lemma cap_command_saves_later s :
  (forall check_out, check_out_time s = Some check_out ->
     check_in_time s - us_per_minute < check_out) ->
  cap_command_saves s = true.
Proof.
  intros Hlater. unfold cap_command_saves.
  destruct (check_out_time s) as [co|]; [|done]. cbv zeta.
  destruct (_ && _); [|done].
  apply Z.leb_le, minutes_trunc_nonneg. specialize (Hlater co eq_refl). lia.
Qed.

(** X15. A real run of the [cap_session_durations] command keeps the number
    of sessions. When it returns, every session in its scope (all sessions,
    or those dated [since] or later) that has a check-out time stores the
    whole minutes between its timestamps, and at most 120 of them, whatever
    was stored before and whatever its date. When it raises, the store is as
    it was. It returns whenever no session in its scope has a check-out a
    minute or more before its check-in. *)
Theorem cap_command_bounds_completed since clock db :
  let run := cap_session_durations false since clock db in
  let in_scope (s : GymSession) :=
    match since with Some d => d <= date s | None => True end in
  length (gym_sessions run.2) = length (gym_sessions db) /\
  (forall counts, run.1 = inr counts ->
     Forall (fun s => in_scope s -> is_completed s = true ->
                      duration_in_step s /\ duration_minutes s <= 120)
       (gym_sessions run.2)) /\
  (forall e, run.1 = inl e -> run = (inl IntegrityError, db)) /\
  (Forall (fun s => in_scope s -> forall check_out, check_out_time s = Some check_out ->
                    check_in_time s - us_per_minute < check_out)
     (gym_sessions db) ->
   exists counts, run.1 = inr counts).
Proof.
  intros run in_scope. unfold run. rewrite cap_session_durations_unfold. cbv zeta.
  cbn [orb].
  pose proof (query_rows_of db
                (fun r => match since with Some d => d <=? date r.2 | None => true end)
                by_check_in_time) as Hrows.
  fold (sessions_since since db) in Hrows.
  assert (length (gym_sessions (fold_left (cap_command_write clock)
                                  (sessions_since since db) db)) =
          length (gym_sessions db)) as Hlen.
  { apply (fold_rows_length _ _ (cap_command_write_sessions clock)); done. }
  split; [by destruct (forallb _ _)|]. split; [|split].
  - destruct (forallb _ _); [|done]. cbn [fst snd]. intros counts _.
    apply Forall_lookup. intros pk s' Hl' Hscope Hdone.
    assert (is_Some (gym_sessions db !! pk)) as [s Hl].
    { apply lookup_lt_is_Some. rewrite <- Hlen. by apply lookup_lt_Some in Hl'. }
    assert ((pk, s) ∈ sessions_since since db \/ (pk, s) ∉ sessions_since since db)
      as [Hin|Hnin].
    { rewrite sessions_since_elem. destruct since as [d|]; [|by left].
      destruct (Z.le_gt_cases d (date s)); [by left|right]. intros [_ ?]. lia. }
    + rewrite (fold_rows_lookup _ _ (cap_command_write_sessions clock) _ _ pk s Hrows Hin)
        in Hl'.
      inversion Hl'; subst s'.
      by apply (cap_command_row_bounded clock (pk, s)).
    + rewrite (fold_rows_other _ _ (cap_command_write_sessions clock)) in Hl'; [|done|].
      * assert (s' = s) as -> by congruence.
        destruct Hnin. by apply sessions_since_elem.
      * rewrite elem_of_keys. intros [s0 Hin0]. apply Hnin.
        apply sessions_since_elem in Hin0 as Hin1. destruct Hin1 as [Hl0 _].
        by assert (s0 = s) as -> by congruence.
  - destruct (forallb _ _); [done|]. by intros e _.
  - intros Hlater.
    assert (forallb (fun r : nat * GymSession => cap_command_saves r.2)
              (sessions_since since db) = true) as ->; [|by eexists].
    apply forallb_forall. intros [pk s] Hin.
    apply list_elem_of_In, sessions_since_elem in Hin as [Hl Hscope].
    apply cap_command_saves_later.
    by apply (proj1 (Forall_lookup _ _) Hlater pk s Hl).
Qed.

(** ** Recomputing the aggregates of a list of pairs *)

Lemma recompute_pairs_cons k pairs db :
  recompute_pairs (k :: pairs) db = recompute_pairs pairs (update_daily_stats k.1 k.2 db).
Proof. done. Qed.

Lemma recompute_pairs_sessions pairs db :
  gym_sessions (recompute_pairs pairs db) = gym_sessions db /\
  students (recompute_pairs pairs db) = students db.
Proof.
  revert db. induction pairs as [|k pairs IH]; intros db; [done|].
  rewrite recompute_pairs_cons.
  destruct (IH (update_daily_stats k.1 k.2 db)) as [Hs Hst]. by rewrite Hs, Hst.
Qed.

Lemma recompute_pairs_other pairs db k :
  k ∉ pairs -> daily_stats (recompute_pairs pairs db) !! k = daily_stats db !! k.
Proof.
  revert db. induction pairs as [|k' pairs IH]; intros db Hk; [done|].
  apply not_elem_of_cons in Hk as [Hne Hk].
  rewrite recompute_pairs_cons, IH by done.
  unfold update_daily_stats. simpl. apply lookup_insert_ne.
  intros Heq. apply Hne. destruct k'. by rewrite <- Heq.
Qed.

Lemma update_daily_stats_keeps_ok st d db k :
  stats_ok db k -> stats_ok (update_daily_stats st d db) k.
Proof.
  intros Hok. unfold stats_ok, update_daily_stats. simpl.
  destruct (decide ((st, d) = k)) as [<-|Hne].
  - by rewrite lookup_insert_eq.
  - by rewrite lookup_insert_ne.
Qed.

Lemma recompute_pairs_keeps_ok pairs db k :
  stats_ok db k -> stats_ok (recompute_pairs pairs db) k.
Proof.
  revert db. induction pairs as [|k' pairs IH]; intros db Hok; [done|].
  rewrite recompute_pairs_cons. by apply IH, update_daily_stats_keeps_ok.
Qed.

Lemma recompute_pairs_ok pairs db k :
  k ∈ pairs -> stats_ok (recompute_pairs pairs db) k.
Proof.
  revert db. induction pairs as [|k' pairs IH]; intros db Hk.
  { by apply elem_of_nil in Hk. }
  rewrite recompute_pairs_cons. apply elem_of_cons in Hk as [->|Hk].
  - apply recompute_pairs_keeps_ok. destruct k'. apply update_daily_stats_ok.
  - by apply IH.
Qed.

(** ** [close_open_sessions] *)

Lemma sql_update_sessions new_row db r :
  gym_sessions db !! r.1 = Some r.2 ->
  gym_sessions (sql_update new_row db r) = <[r.1 := new_row r.2]> (gym_sessions db).
Proof. done. Qed.

Lemma close_open_fold qs aff n db :
  fold_left close_open_step qs (aff, n, db) =
  (list_to_set ((fun r : nat * GymSession => (student r.2, date r.2)) <$> qs) ∪ aff,
   (n + length qs)%nat,
   fold_left (sql_update sql_closed) qs db).
Proof.
  revert aff n db. induction qs as [|[pk s] qs IH]; intros aff n db.
  - simpl. by rewrite Nat.add_0_r, (left_id_L ∅ (∪)).
  - cbn [fold_left close_open_step length]. rewrite IH.
    replace (S n + length qs)%nat with (n + S (length qs))%nat by lia.
    rewrite fmap_cons. cbn [list_to_set fst snd].
    by rewrite (assoc_L (∪)), (comm_L (∪) _ {[ _ ]}).
Qed.

Lemma open_sessions_until_elem cutoff db pk s :
  (pk, s) ∈ open_sessions_until cutoff db <->
  gym_sessions db !! pk = Some s /\ is_open_until cutoff s = true.
Proof. unfold open_sessions_until. by rewrite query_elem. Qed.

Lemma close_open_unfold cutoff db :
  close_open_sessions cutoff db =
  let rows := open_sessions_until cutoff db in
  let pairs : gset (nat * Z) :=
    list_to_set ((fun r : nat * GymSession => (student r.2, date r.2)) <$> rows) in
  ((length rows, length rows, size pairs),
   recompute_pairs (elements pairs) (fold_left (sql_update sql_closed) rows db)).
Proof.
  unfold close_open_sessions. rewrite close_open_fold. cbv zeta.
  by rewrite (right_id_L ∅ (∪)).
Qed.

Lemma close_open_lookup cutoff db pk s :
  gym_sessions db !! pk = Some s ->
  gym_sessions (close_open_sessions cutoff db).2 !! pk = Some (close_open_row cutoff s).
Proof.
  intros Hl. rewrite close_open_unfold. cbv zeta. cbn [snd].
  rewrite (proj1 (recompute_pairs_sessions _ _)).
  pose proof (query_rows_of db (fun r => is_open_until cutoff r.2) by_date_then_id)
    as Hrows.
  fold (open_sessions_until cutoff db) in Hrows. unfold close_open_row.
  destruct (is_open_until cutoff s) eqn:Hopen.
  - by rewrite (fold_rows_lookup _ _ (sql_update_sessions sql_closed)
                  _ _ pk s Hrows) by by apply open_sessions_until_elem.
  - rewrite (fold_rows_other _ _ (sql_update_sessions sql_closed));
      [done|done|].
    rewrite elem_of_keys. intros [s' Hin].
    apply open_sessions_until_elem in Hin as [Hl' Hopen']. congruence.
Qed.

Lemma close_open_sessions_map cutoff db :
  gym_sessions (close_open_sessions cutoff db).2 =
  close_open_row cutoff <$> gym_sessions db.
Proof.
  apply list_eq. intros pk. rewrite list_lookup_fmap.
  destruct (gym_sessions db !! pk) as [s|] eqn:Hl; simpl.
  - by apply close_open_lookup.
  - apply lookup_ge_None. rewrite close_open_unfold. cbv zeta. cbn [snd].
    rewrite (proj1 (recompute_pairs_sessions _ _)).
    rewrite (fold_rows_length _ _ (sql_update_sessions sql_closed)).
    + by apply lookup_ge_None.
    + apply query_rows_of.
Qed.

Lemma sql_closed_duration s : 0 <= duration_minutes (sql_closed s) <= 120.
Proof.
  unfold sql_closed. simpl. split.
  - apply Z.div_pos; lia.
  - assert (Z.quot (Z.min (check_in_time s + 120 * us_per_minute) (end_of_day (date s))
                    - check_in_time s) us_per_second <= 7200) as Hq.
    { change 7200 with (Z.quot (120 * us_per_minute) us_per_second).
      apply Z.quot_le_mono; [reflexivity|lia]. }
    apply Z.div_le_upper_bound; lia.
Qed.

(** X16. The offline closer rewrites exactly the sessions that have no
    check-out, are marked active and are dated on or before the cutoff:
    such a row gets [check_out = min(check_in + 120 min, 23:59:59 of its date)],
    is marked inactive and stores a duration between 0 and 120 minutes, 0
    when the check-in lies after the end of its date; this script never
    writes a negative duration. Every other row is left as it was. *)
Theorem close_open_sessions_rows cutoff db pk s
    (Hrow : gym_sessions db !! pk = Some s) :
  let new_checkout := Z.min (check_in_time s + 120 * us_per_minute) (end_of_day (date s)) in
  gym_sessions (close_open_sessions cutoff db).2 !! pk =
    Some (if negb (is_completed s) && is_active s && (date s <=? cutoff)
          then mkGymSession (student s) (check_in_time s) (Some new_checkout)
                 (Z.max 0 (Z.quot (new_checkout - check_in_time s) us_per_second) / 60)
                 (date s) false
          else s) /\
  0 <= Z.max 0 (Z.quot (new_checkout - check_in_time s) us_per_second) / 60 <= 120 /\
  (end_of_day (date s) <= check_in_time s ->
   Z.max 0 (Z.quot (new_checkout - check_in_time s) us_per_second) / 60 = 0).
Proof.
  intros new_checkout. split; [|split].
  - by rewrite (close_open_lookup cutoff db pk s Hrow).
  - apply (sql_closed_duration s).
  - intros Hlate. unfold new_checkout.
    rewrite Z.max_l; [done|]. apply Z.quot_le_upper_bound; [reflexivity|].
    assert (0 <= 120 * us_per_minute) by (by vm_compute). lia.
Qed.

(** The check-in at 23:30 of a date whose end the script takes at 23:59:59
    is closed after 29 minutes. *)
Lemma close_open_sessions_rows_witness :
  gym_sessions (close_open_sessions day0 late_db).2 !! 0%nat =
  Some (mkGymSession 0 (at_time day0 23 30 0) (Some (at_time day0 23 59 59)) 29 day0 false).
Proof.
  exact (proj1 (close_open_sessions_rows day0 late_db 0%nat late_session eq_refl)).
Defined.

Lemma close_open_row_closed cutoff s : is_open_until cutoff (close_open_row cutoff s) = false.
Proof. unfold close_open_row. by destruct (is_open_until cutoff s) eqn:Hopen. Qed.

Lemma open_sessions_until_none cutoff db :
  Forall (fun s => is_open_until cutoff s = false) (gym_sessions db) ->
  open_sessions_until cutoff db = [].
Proof.
  intros Hall. apply elem_of_nil_inv. intros [pk s] Hin.
  apply open_sessions_until_elem in Hin as [Hl Hopen].
  apply (proj1 (Forall_lookup _ _) Hall pk s) in Hl. congruence.
Qed.

(** X17. The offline closer closes every session it finds; afterwards
    [verify_no_open_before] with the same cutoff counts no remaining open
    session, and a second run finds nothing and leaves the store as it is. *)
Theorem close_open_sessions_settles cutoff db :
  let first := close_open_sessions cutoff db in
  first.1.1.1 = first.1.1.2 /\
  (verify_no_open_before cutoff first.2).1 = O /\
  close_open_sessions cutoff first.2 = ((O, O, O), first.2).
Proof.
  intros first.
  assert (Forall (fun s => is_open_until cutoff s = false) (gym_sessions first.2))
    as Hclosed.
  { unfold first. rewrite close_open_sessions_map.
    apply Forall_fmap, Forall_true. intros s. apply close_open_row_closed. }
  split; [|split].
  - unfold first. by rewrite close_open_unfold.
  - unfold verify_no_open_before. cbn [fst]. rewrite filter_nil_length; [done|].
    intros s Hin. apply (proj1 (Forall_forall _ _) Hclosed) in Hin.
    unfold is_open_until in Hin.
    by destruct (is_active s), (is_completed s), (date s <=? cutoff).
  - rewrite (close_open_unfold cutoff first.2), open_sessions_until_none by done.
    cbv zeta. cbn [fmap list_fmap list_to_set length fold_left].
    by rewrite elements_empty, size_empty.
Qed.

(** X18. After the offline closer, the statistics row of every
    (student, date) of a session that it closed holds the count and the
    summed minutes of the completed sessions of that pair in the table as
    the script left it; the rows of all other pairs are not written. *)
Theorem close_open_sessions_aggregates cutoff db :
  let db' := (close_open_sessions cutoff db).2 in
  (forall pk s, gym_sessions db !! pk = Some s -> is_open_until cutoff s = true ->
     stats_ok db' (student s, date s)) /\
  (forall k,
     (forall pk s, gym_sessions db !! pk = Some s -> is_open_until cutoff s = true ->
        (student s, date s) <> k) ->
     daily_stats db' !! k = daily_stats db !! k).
Proof.
  intros db'. unfold db'. clear db'. rewrite close_open_unfold. cbv zeta. cbn [snd].
  split.
  - intros pk s Hl Hopen. apply recompute_pairs_ok.
    apply elem_of_elements, elem_of_list_to_set, list_elem_of_fmap.
    exists (pk, s). split; [done|]. by apply open_sessions_until_elem.
  - intros k Hk. rewrite recompute_pairs_other.
    + clear Hk. generalize (open_sessions_until cutoff db). intros qs. revert db.
      induction qs as [|r qs IH]; intros db; [done|]. simpl. by rewrite IH.
    + rewrite elem_of_elements, elem_of_list_to_set, list_elem_of_fmap.
      intros ([pk s] & -> & Hin). apply open_sessions_until_elem in Hin as [Hl Hopen].
      by apply (Hk pk s).
Qed.

(** ** [cap_all_sessions] *)

Lemma sum_minutes_app l1 l2 : sum_minutes (l1 ++ l2) = sum_minutes l1 + sum_minutes l2.
Proof. induction l1 as [|x l1 IH]; simpl; [done|]. rewrite IH. lia. Qed.

Lemma sum_minutes_perm l1 l2 : Permutation l1 l2 -> sum_minutes l1 = sum_minutes l2.
Proof. induction 1; simpl; lia. Qed.

Lemma objects_rows db : (objects db).*2 = gym_sessions db.
Proof.
  unfold objects. apply list_eq. intros i.
  rewrite list_lookup_fmap, list_lookup_imap. by destruct (gym_sessions db !! i).
Qed.

Lemma filter_rows (P : GymSession -> bool) (l : list (nat * GymSession)) :
  (List.filter (fun r => P r.2) l).*2 = List.filter P l.*2.
Proof.
  induction l as [|r l IH]; [done|]. rewrite fmap_cons. cbn [List.filter].
  destruct (P r.2); [rewrite fmap_cons|]; by rewrite IH.
Qed.

Lemma cap_all_fold qs n z db :
  fold_left cap_all_step qs (n, z, db) =
  ((n + length qs)%nat,
   z + (sum_minutes qs.*2 - 120 * Z.of_nat (length qs)),
   fold_left (sql_update sql_capped) qs db).
Proof.
  revert n z db. induction qs as [|[pk s] qs IH]; intros n z db.
  - simpl. f_equal. f_equal; [lia|lia].
  - cbn [fold_left cap_all_step]. rewrite IH. rewrite fmap_cons.
    cbn [length snd].
    change (sum_minutes (s :: qs.*2)) with (duration_minutes s + sum_minutes qs.*2).
    f_equal. f_equal; lia.
Qed.

Lemma long_sessions_elem db pk s :
  (pk, s) ∈ long_sessions db <-> gym_sessions db !! pk = Some s /\ is_long s = true.
Proof. unfold long_sessions. by rewrite query_elem. Qed.

Lemma long_sessions_rows db :
  Permutation (long_sessions db).*2 (List.filter is_long (gym_sessions db)).
Proof.
  unfold long_sessions. rewrite (order_by_perm by_duration_desc).
  by rewrite (filter_rows is_long), objects_rows.
Qed.

Lemma cap_all_unfold db :
  cap_all_sessions db =
  let long := List.filter is_long (gym_sessions db) in
  let capped := fold_left (sql_update sql_capped) (long_sessions db) db in
  ((length long, sum_minutes long - 120 * Z.of_nat (length long),
    length (daily_totals capped)),
   recompute_pairs (daily_totals capped) capped).
Proof.
  unfold cap_all_sessions. rewrite cap_all_fold. cbv zeta.
  rewrite (sum_minutes_perm _ _ (long_sessions_rows db)).
  rewrite <- (Permutation_length (long_sessions_rows db)), length_fmap.
  by rewrite Z.add_0_l.
Qed.

Lemma cap_all_lookup db pk s :
  gym_sessions db !! pk = Some s ->
  gym_sessions (cap_all_sessions db).2 !! pk = Some (cap_all_row s).
Proof.
  intros Hl. rewrite cap_all_unfold. cbv zeta. cbn [snd].
  rewrite (proj1 (recompute_pairs_sessions _ _)).
  pose proof (query_rows_of db (fun r => is_long r.2) by_duration_desc) as Hrows.
  fold (long_sessions db) in Hrows. unfold cap_all_row.
  destruct (is_long s) eqn:Hlong.
  - by rewrite (fold_rows_lookup _ _ (sql_update_sessions sql_capped) _ _ pk s Hrows)
      by by apply long_sessions_elem.
  - rewrite (fold_rows_other _ _ (sql_update_sessions sql_capped)); [done|done|].
    rewrite elem_of_keys. intros [s' Hin].
    apply long_sessions_elem in Hin as [Hl' Hlong']. congruence.
Qed.

Lemma cap_all_sessions_map db :
  gym_sessions (cap_all_sessions db).2 = cap_all_row <$> gym_sessions db.
Proof.
  apply list_eq. intros pk. rewrite list_lookup_fmap.
  destruct (gym_sessions db !! pk) as [s|] eqn:Hl; simpl.
  - by apply cap_all_lookup.
  - apply lookup_ge_None. rewrite cap_all_unfold. cbv zeta. cbn [snd].
    rewrite (proj1 (recompute_pairs_sessions _ _)).
    rewrite (fold_rows_length _ _ (sql_update_sessions sql_capped)).
    + by apply lookup_ge_None.
    + apply query_rows_of.
Qed.

Lemma cap_all_row_completed s : is_completed (cap_all_row s) = is_completed s.
Proof.
  unfold cap_all_row, is_long. destruct (is_completed s) eqn:Hc; [|done].
  by destruct (120 <? duration_minutes s).
Qed.



Lemma sum_minutes_cons s l : sum_minutes (s :: l) = duration_minutes s + sum_minutes l.
Proof. done. Qed.

Lemma cap_all_saved l :
  sum_minutes (List.filter is_completed l) -
  sum_minutes (List.filter is_completed (cap_all_row <$> l)) =
  sum_minutes (List.filter is_long l) - 120 * Z.of_nat (length (List.filter is_long l)) /\
  0 <= sum_minutes (List.filter is_long l) - 120 * Z.of_nat (length (List.filter is_long l)).
Proof.
  induction l as [|s l [IH1 IH2]]; [done|].
  rewrite fmap_cons. cbn [List.filter]. rewrite cap_all_row_completed.
  destruct (is_long s) eqn:Hlong.
  - assert (is_completed s = true /\ 120 < duration_minutes s) as [Hc Hd].
    { unfold is_long in Hlong. apply andb_true_iff in Hlong as [? ?%Z.ltb_lt]. done. }
    rewrite Hc. unfold cap_all_row at 1. rewrite Hlong.
    rewrite !sum_minutes_cons. cbn [length duration_minutes sql_capped].
    split; lia.
  - unfold cap_all_row at 1. rewrite Hlong.
    destruct (is_completed s); [rewrite !sum_minutes_cons|]; split; lia.
Qed.

(** X20. [cap_all_sessions] reports as capped the number of completed
    sessions stored with more than 120 minutes, and as minutes saved exactly
    the amount by which the summed duration of the completed sessions
    dropped, which is never negative. *)
Theorem cap_all_sessions_accounting db :
  let result := cap_all_sessions db in
  result.1.1.1 =
    length (List.filter (fun s => is_completed s && (120 <? duration_minutes s))
              (gym_sessions db)) /\
  result.1.1.2 =
    sum_minutes (List.filter is_completed (gym_sessions db)) -
    sum_minutes (List.filter is_completed (gym_sessions result.2)) /\
  0 <= result.1.1.2.
Proof.
  intros result. unfold result. rewrite cap_all_sessions_map.
  destruct (cap_all_saved (gym_sessions db)) as [Hsaved Hnonneg].
  rewrite Hsaved, cap_all_unfold. done.
Qed.

(** X21. After [cap_all_sessions], the statistics row of every
    (student, date) that has a completed session holds the count and the
    summed minutes of the completed sessions of that pair. *)
Theorem cap_all_sessions_aggregates db pk s
    (Hrow : gym_sessions (cap_all_sessions db).2 !! pk = Some s)
    (Hcompleted : is_completed s = true) :
  stats_ok (cap_all_sessions db).2 (student s, date s).
Proof.
  revert Hrow. rewrite cap_all_unfold. cbv zeta. cbn [snd].
  rewrite (proj1 (recompute_pairs_sessions _ _)). intros Hrow.
  apply recompute_pairs_ok. unfold daily_totals.
  apply elem_of_remove_dups, list_elem_of_fmap. exists s. split; [done|].
  apply list_elem_of_In, filter_In. split; [|done].
  apply list_elem_of_In, list_elem_of_lookup. by exists pk.
Qed.

Lemma cap_all_sessions_aggregates_witness :
  daily_stats (cap_all_sessions overlong_db).2 !! (0%nat, day0) =
  Some (mkDailyGymStats 1 120).
Proof.
  apply (cap_all_sessions_aggregates overlong_db 0%nat
           (mkGymSession 0 (at_time day0 9 32 45) (Some (at_time day0 11 32 45)) 120
              day0 false)).
  - reflexivity.
  - reflexivity.
Defined.

(** ** Merging the statistics of a duplicate *)

Section MergeStats.
Variables primary dup : nat.
Hypothesis primary_not_dup : primary <> dup.

Lemma merge_step_other m d0 r0 k :
  k <> (primary, d0) -> k <> (dup, d0) ->
  merge_daily_stats_step primary dup m (d0, r0) !! k = m !! k.
Proof.
  intros H1 H2. unfold merge_daily_stats_step.
  destruct (m !! (primary, d0)) as [p|].
  - by rewrite lookup_delete_ne, lookup_insert_ne.
  - destruct (m !! (dup, d0)) as [moved|]; [|done].
    by rewrite lookup_insert_ne, lookup_delete_ne.
Qed.

Lemma merge_step_dup m d0 r0 :
  m !! (dup, d0) = Some r0 ->
  merge_daily_stats_step primary dup m (d0, r0) !! (dup, d0) = None.
Proof.
  intros Hr. unfold merge_daily_stats_step. rewrite Hr.
  destruct (m !! (primary, d0)) as [p|].
  - by rewrite lookup_delete_eq.
  - rewrite lookup_insert_ne by congruence. by rewrite lookup_delete_eq.
Qed.

Lemma merge_step_primary m d0 r0 :
  m !! (dup, d0) = Some r0 ->
  merge_daily_stats_step primary dup m (d0, r0) !! (primary, d0) =
  Some (merged (m !! (primary, d0)) r0).
Proof.
  intros Hr. unfold merge_daily_stats_step, merged. rewrite Hr.
  destruct (m !! (primary, d0)) as [p|].
  - rewrite lookup_delete_ne by congruence. by rewrite lookup_insert_eq.
  - by rewrite lookup_insert_eq.
Qed.

Lemma fetched_step d0 r0 rows m :
  fetched dup ((d0, r0) :: rows) m ->
  fetched dup rows (merge_daily_stats_step primary dup m (d0, r0)).
Proof.
  intros [Hnd Hrows]. rewrite fmap_cons in Hnd.
  apply NoDup_cons in Hnd as [Hd0 Hnd]. split; [done|].
  intros d r Hin. rewrite merge_step_other.
  - apply Hrows. by right.
  - congruence.
  - intros [= ->]. apply Hd0. apply list_elem_of_fmap. by exists (d0, r).
Qed.

Lemma merge_fold_other rows m k :
  (forall d, k <> (primary, d)) -> (forall d, k <> (dup, d)) ->
  fold_left (merge_daily_stats_step primary dup) rows m !! k = m !! k.
Proof.
  intros H1 H2. revert m. induction rows as [|[d0 r0] rows IH]; intros m; [done|].
  cbn [fold_left]. rewrite IH. by apply merge_step_other.
Qed.

Lemma merge_fold_untouched rows m st d :
  d ∉ rows.*1 ->
  fold_left (merge_daily_stats_step primary dup) rows m !! (st, d) = m !! (st, d).
Proof.
  revert m. induction rows as [|[d0 r0] rows IH]; intros m Hd; [done|].
  rewrite fmap_cons in Hd. apply not_elem_of_cons in Hd as [Hne Hd].
  cbn [fold_left]. rewrite IH by done. apply merge_step_other; intros [= ? ?]; done.
Qed.

Lemma merge_fold_dup rows m d r :
  fetched dup rows m -> (d, r) ∈ rows ->
  fold_left (merge_daily_stats_step primary dup) rows m !! (dup, d) = None /\
  fold_left (merge_daily_stats_step primary dup) rows m !! (primary, d) =
    Some (merged (m !! (primary, d)) r).
Proof.
  revert m. induction rows as [|[d0 r0] rows IH]; intros m Hf Hin.
  { by apply elem_of_nil in Hin. }
  cbn [fold_left]. apply elem_of_cons in Hin as [[= -> ->]|Hin].
  - destruct Hf as [Hnd Hrows]. rewrite fmap_cons in Hnd.
    apply NoDup_cons in Hnd as [Hd0 _].
    rewrite !merge_fold_untouched by done.
    split; [apply merge_step_dup|apply merge_step_primary]; apply Hrows; by left.
  - destruct (IH _ (fetched_step _ _ _ _ Hf) Hin) as [-> ->]. split; [done|].
    destruct Hf as [Hnd _]. rewrite fmap_cons in Hnd.
    apply NoDup_cons in Hnd as [Hd0 _].
    rewrite merge_step_other; [done| |congruence].
    intros [= ->]. apply Hd0. apply list_elem_of_fmap. by exists (d0, r).
Qed.

Lemma dup_stats_elem db d r :
  (d, r) ∈ dup_stats db dup <-> daily_stats db !! (dup, d) = Some r.
Proof.
  unfold dup_stats. rewrite list_elem_of_omap. split.
  - intros ([[st' d'] row] & Hin & Hsel). apply elem_of_map_to_list in Hin.
    simpl in Hsel. destruct (Nat.eqb_spec st' dup) as [->|]; [|done].
    by inversion Hsel; subst.
  - intros Hrow. exists (dup, d, r). split; [by apply elem_of_map_to_list|].
    simpl. by rewrite Nat.eqb_refl.
Qed.

Lemma dup_stats_fetched db : fetched dup (dup_stats db dup) (daily_stats db).
Proof.
  split; [|intros d r; apply dup_stats_elem].
  unfold dup_stats.
  pose proof (NoDup_fst_map_to_list (daily_stats db)) as Hnd.
  induction (map_to_list (daily_stats db)) as [|[[st d] row] l IH]; [constructor|].
  rewrite fmap_cons in Hnd. apply NoDup_cons in Hnd as [Hk Hnd].
  cbn [omap list_omap fst snd]. destruct (Nat.eqb_spec st dup) as [->|]; [|by apply IH].
  rewrite fmap_cons. apply NoDup_cons. split; [|by apply IH].
  intros Hin. apply Hk. apply list_elem_of_fmap in Hin as ([d' r'] & Hd & Hin).
  simpl in Hd. subst d'. apply list_elem_of_omap in Hin as ([[st'' d''] row''] & Hin & Hsel).
  simpl in Hsel. destruct (Nat.eqb_spec st'' dup) as [->|]; [|done].
  inversion Hsel; subst. apply list_elem_of_fmap. by exists (dup, d, r').
Qed.

(** The statistics after [merge_daily_stats], key by key. *)
Lemma merge_daily_stats_lookup db st d :
  daily_stats (merge_daily_stats primary dup db) !! (st, d) =
  if decide (st = dup) then None
  else if decide (st = primary) then
    match daily_stats db !! (dup, d) with
    | Some r => Some (merged (daily_stats db !! (primary, d)) r)
    | None => daily_stats db !! (primary, d)
    end
  else daily_stats db !! (st, d).
Proof.
  unfold merge_daily_stats. cbn [daily_stats set_daily_stats].
  pose proof (dup_stats_fetched db) as Hf.
  destruct (decide (st = dup)) as [->|Hnd]; [|destruct (decide (st = primary)) as [->|Hnp]].
  - destruct (daily_stats db !! (dup, d)) as [r|] eqn:Hr.
    + apply dup_stats_elem in Hr. by destruct (merge_fold_dup _ _ d r Hf Hr) as [-> _].
    + rewrite merge_fold_untouched; [done|].
      intros Hin. apply list_elem_of_fmap in Hin as ([d' r] & Hd & Hin). simpl in Hd.
      subst d'. apply dup_stats_elem in Hin. congruence.
  - destruct (daily_stats db !! (dup, d)) as [r|] eqn:Hr.
    + apply dup_stats_elem in Hr. by destruct (merge_fold_dup _ _ d r Hf Hr) as [_ ->].
    + rewrite merge_fold_untouched; [done|].
      intros Hin. apply list_elem_of_fmap in Hin as ([d' r] & Hd & Hin). simpl in Hd.
      subst d'. apply dup_stats_elem in Hin. congruence.
  - apply merge_fold_other; intros d' [= ? ?]; done.
Qed.
End MergeStats.

(** X22. [merge_daily_stats] leaves no statistics row of the duplicate; for
    each date on which the duplicate had a row, the primary's row holds the
    sums of the two rows when the primary had one and the duplicate's totals
    otherwise; the primary's other rows, the rows of all other students and
    the sessions table are untouched. *)
Theorem merge_daily_stats_moves_rows primary dup db
    (Hdistinct : primary <> dup) :
  let db' := merge_daily_stats primary dup db in
  gym_sessions db' = gym_sessions db /\
  (forall d, daily_stats db' !! (dup, d) = None) /\
  (forall d,
     daily_stats db' !! (primary, d) =
     match daily_stats db !! (dup, d), daily_stats db !! (primary, d) with
     | Some r, Some p =>
         Some (mkDailyGymStats (total_sessions p + total_sessions r)
                 (total_minutes p + total_minutes r))
     | Some r, None => Some r
     | None, row => row
     end) /\
  (forall st d, st <> primary -> st <> dup ->
     daily_stats db' !! (st, d) = daily_stats db !! (st, d)).
Proof.
  intros db'. unfold db'. split; [done|]. split; [|split].
  - intros d. rewrite (merge_daily_stats_lookup primary dup Hdistinct).
    by destruct (decide (dup = dup)).
  - intros d. rewrite (merge_daily_stats_lookup primary dup Hdistinct).
    destruct (decide (primary = dup)); [done|].
    destruct (decide (primary = primary)); [|done].
    destruct (daily_stats db !! (dup, d)); [|done].
    by destruct (daily_stats db !! (primary, d)).
  - intros st d Hp Hd. rewrite (merge_daily_stats_lookup primary dup Hdistinct).
    destruct (decide (st = dup)); [done|]. by destruct (decide (st = primary)).
Qed.

Lemma merge_daily_stats_moves_rows_witness :
  daily_stats (merge_daily_stats 0 1 duplicate_db) !! (1%nat, day0) = None /\
  daily_stats (merge_daily_stats 0 1 duplicate_db) !! (0%nat, day0) =
    Some (mkDailyGymStats 1 60).
Proof.
  destruct (merge_daily_stats_moves_rows 0 1 duplicate_db ltac:(discriminate))
    as (_ & Hdup & Hprimary & _).
  split; [apply Hdup|apply Hprimary].
Defined.

Lemma completed_on_repointed primary dup d s :
  student s = dup ->
  completed_on primary d (set_student primary s) = completed_on dup d s.
Proof.
  intros Hs. unfold completed_on, is_completed. simpl.
  by rewrite Hs, !Nat.eqb_refl.
Qed.

Lemma completed_on_wrong_student st d s :
  student s <> st -> completed_on st d s = false.
Proof.
  intros Hs. unfold completed_on. by destruct (Nat.eqb_spec (student s) st).
Qed.

Lemma repoint_counts primary dup d l :
  primary <> dup ->
  let l' := (fun s => if Nat.eqb (student s) dup then set_student primary s else s) <$> l in
  length (List.filter (completed_on primary d) l') =
    (length (List.filter (completed_on primary d) l) +
     length (List.filter (completed_on dup d) l))%nat /\
  sum_minutes (List.filter (completed_on primary d) l') =
    sum_minutes (List.filter (completed_on primary d) l) +
    sum_minutes (List.filter (completed_on dup d) l).
Proof.
  intros Hne l'. unfold l'. clear l'.
  induction l as [|s l [IHn IHs]]; [done|].
  rewrite fmap_cons. cbn [List.filter].
  destruct (Nat.eqb_spec (student s) dup) as [Hdup|Hother].
  - rewrite (completed_on_repointed primary dup d s Hdup).
    rewrite (completed_on_wrong_student primary d s) by congruence.
    destruct (completed_on dup d s).
    + rewrite !sum_minutes_cons. cbn [length]. simpl duration_minutes. split; lia.
    + done.
  - rewrite (completed_on_wrong_student dup d s) by done.
    destruct (completed_on primary d s).
    + rewrite !sum_minutes_cons. cbn [length]. split; lia.
    + done.
Qed.

(** X23. Merging a duplicate into a different primary record keeps the
    primary's statistics in step with the sessions table: if, for both
    students, every statistics row equals the recomputed totals and every
    date without a row has no completed session, then after the sessions
    have been repointed and the statistics merged the same holds for the
    primary, no session and no statistics row of the duplicate is left, and
    the number of sessions is unchanged. *)
Theorem merge_duplicate_keeps_aggregates primary dup db
    (Hdistinct : primary <> dup)
    (Hprimary : aggregates_in_step db primary)
    (Hdup : aggregates_in_step db dup) :
  let db' := merge_duplicate primary dup db in
  aggregates_in_step db' primary /\
  Forall (fun s => student s <> dup) (gym_sessions db') /\
  (forall d, daily_stats db' !! (dup, d) = None) /\
  length (gym_sessions db') = length (gym_sessions db).
Proof.
  intros db'. unfold db', merge_duplicate. split; [|split; [|split]].
  - intros d. rewrite (merge_daily_stats_lookup primary dup Hdistinct).
    destruct (decide (primary = dup)); [done|].
    destruct (decide (primary = primary)); [|done].
    cbn [daily_stats repoint_sessions set_gym_sessions gym_sessions merge_daily_stats
         set_daily_stats].
    destruct (repoint_counts primary dup d (gym_sessions db) Hdistinct) as [Hn Hs].
    cbv zeta in Hn, Hs.
    assert (recompute
              ((fun s => if Nat.eqb (student s) dup then set_student primary s else s)
                 <$> gym_sessions db) (primary, d) =
            mkDailyGymStats
              (total_sessions (recompute (gym_sessions db) (primary, d)) +
               total_sessions (recompute (gym_sessions db) (dup, d)))
              (total_minutes (recompute (gym_sessions db) (primary, d)) +
               total_minutes (recompute (gym_sessions db) (dup, d)))) as Hrec.
    { unfold recompute. cbn [fst snd total_sessions total_minutes].
      rewrite Hn, Hs. f_equal. lia. }
    rewrite Hrec. specialize (Hprimary d). specialize (Hdup d).
    destruct (daily_stats db !! (dup, d)) as [r|];
      destruct (daily_stats db !! (primary, d)) as [p|]; cbn [merged].
    + by rewrite <- Hprimary, <- Hdup.
    + rewrite Hprimary, <- Hdup. destruct r. simpl. f_equal; lia.
    + rewrite Hdup, <- Hprimary. destruct p. simpl. f_equal; lia.
    + by rewrite Hprimary, Hdup.
  - cbn [gym_sessions merge_daily_stats set_daily_stats repoint_sessions set_gym_sessions].
    apply Forall_fmap, Forall_true. intros s. simpl.
    destruct (Nat.eqb_spec (student s) dup); [simpl; congruence|done].
  - intros d. rewrite (merge_daily_stats_lookup primary dup Hdistinct).
    by destruct (decide (dup = dup)).
  - cbn [gym_sessions merge_daily_stats set_daily_stats repoint_sessions set_gym_sessions].
    by rewrite length_fmap.
Qed.

Lemma merge_duplicate_keeps_aggregates_witness :
  aggregates_in_step (merge_duplicate 0 1 duplicate_db) 0.
Proof.
  apply (merge_duplicate_keeps_aggregates 0 1 duplicate_db).
  - discriminate.
  - intros d. unfold duplicate_db. cbn [daily_stats gym_sessions].
    rewrite lookup_singleton_ne by discriminate. reflexivity.
  - intros d. unfold duplicate_db. cbn [daily_stats gym_sessions].
    destruct (decide (d = day0)) as [->|Hne].
    + rewrite lookup_singleton_eq. reflexivity.
    + rewrite lookup_singleton_ne by congruence.
      unfold recompute, completed_on. cbn [List.filter fst snd student date].
      destruct (Z.eqb_spec day0 d) as [Heq|_]; [by destruct Hne|]. reflexivity.
Defined.

(** ** The order on the keys of [choose_primary] *)

Lemma ascii_compare_refl a : Ascii.compare a a = Eq.
Proof. unfold Ascii.compare. apply N.compare_refl. Qed.

Lemma ascii_compare_lt_trans a b c :
  Ascii.compare a b = Lt -> Ascii.compare b c = Lt -> Ascii.compare a c = Lt.
Proof. unfold Ascii.compare. rewrite !N.compare_lt_iff. lia. Qed.

Lemma string_compare_refl s : String.compare s s = Eq.
Proof. induction s as [|a s IH]; simpl; [done|]. by rewrite ascii_compare_refl. Qed.

Lemma string_compare_lt_trans s1 s2 s3 :
  String.compare s1 s2 = Lt -> String.compare s2 s3 = Lt -> String.compare s1 s3 = Lt.
Proof.
  revert s2 s3. induction s1 as [|a1 s1 IH]; intros [|a2 s2] [|a3 s3]; simpl; try done.
  destruct (Ascii.compare a1 a2) eqn:H12; [|intros _|done];
    destruct (Ascii.compare a2 a3) eqn:H23; try done.
  - apply Ascii.compare_eq_iff in H12 as ->. apply Ascii.compare_eq_iff in H23 as ->.
    rewrite ascii_compare_refl. apply IH.
  - apply Ascii.compare_eq_iff in H12 as ->. by rewrite H23.
  - apply Ascii.compare_eq_iff in H23 as <-. by rewrite H12.
  - by rewrite (ascii_compare_lt_trans a1 a2 a3).
Qed.

Lemma string_compare_gt s1 s2 : String.compare s1 s2 = Gt -> String.compare s2 s1 = Lt.
Proof. rewrite (String.compare_antisym s2 s1). by intros ->. Qed.

Ltac split_keys :=
  repeat match goal with
         | k : (Z * Z * string * Z)%type |- _ => destruct k as [[[? ?] ?] ?]
         end;
  unfold MergeDuplicates.key_le in *.

Ltac case_ltb :=
  repeat match goal with
         | H : context [Z.ltb ?x ?y] |- _ => destruct (Z.ltb_spec x y)
         | |- context [Z.ltb ?x ?y] => destruct (Z.ltb_spec x y)
         end.

Ltac case_compare H Hc :=
  match type of H with
  | context [String.compare ?a ?b] => destruct (String.compare a b) eqn:Hc
  end.

Lemma key_le_total k1 k2 :
  MergeDuplicates.key_le k1 k2 = false -> MergeDuplicates.key_le k2 k1 = true.
Proof.
  intros H12. split_keys. case_ltb; try done; try lia.
  case_compare H12 Hc; [|done|].
  - apply String.compare_eq_iff in Hc as ->. rewrite string_compare_refl.
    apply Z.leb_gt in H12. apply Z.leb_le. lia.
  - by rewrite (string_compare_gt _ _ Hc).
Qed.

Lemma key_le_antisym k1 k2 :
  MergeDuplicates.key_le k1 k2 = true -> MergeDuplicates.key_le k2 k1 = true -> k1 = k2.
Proof.
  intros H12 H21. split_keys. case_ltb; try done; try lia.
  case_compare H12 Hc; [| |done].
  - apply String.compare_eq_iff in Hc as ->. rewrite string_compare_refl in H21.
    apply Z.leb_le in H12. apply Z.leb_le in H21. repeat f_equal; lia.
  - match type of H21 with
    | context [String.compare ?a ?b] =>
        rewrite (String.compare_antisym a b), Hc in H21
    end. done.
Qed.

Lemma key_le_trans k1 k2 k3 :
  MergeDuplicates.key_le k1 k2 = true -> MergeDuplicates.key_le k2 k3 = true ->
  MergeDuplicates.key_le k1 k3 = true.
Proof.
  intros H12 H23. split_keys. case_ltb; try done; try lia.
  case_compare H12 Hc12; [| |done]; case_compare H23 Hc23; try done.
  - apply String.compare_eq_iff in Hc12 as ->. apply String.compare_eq_iff in Hc23 as ->.
    rewrite string_compare_refl. apply Z.leb_le in H12. apply Z.leb_le in H23.
    apply Z.leb_le. lia.
  - apply String.compare_eq_iff in Hc12 as ->. by rewrite Hc23.
  - apply String.compare_eq_iff in Hc23 as <-. by rewrite Hc12.
  - by rewrite (string_compare_lt_trans _ _ _ Hc12 Hc23).
Qed.

(** The head of a list sorted by a total, transitive comparison is below
    every element. *)
Lemma head_order_by_least {A} (le : A -> A -> bool) (l : list A) m :
  (forall a b, le a b = false -> le b a = true) ->
  (forall a b c, le a b = true -> le b c = true -> le a c = true) ->
  head (order_by le l) = Some m ->
  forall x, x ∈ l -> le m x = true.
Proof.
  intros Htotal Htrans. revert m. induction l as [|x l IH]; intros m Hm y Hy.
  { by apply elem_of_nil in Hy. }
  assert (forall a, le a a = true) as Hrefl.
  { intros a. pose proof (Htotal a a) as Ha. destruct (le a a); [done|by apply Ha]. }
  simpl in Hm. destruct (order_by le l) as [|h t] eqn:Hsorted.
  - apply order_by_nil_inv in Hsorted as ->. simpl in Hm. inversion Hm; subst.
    by apply list_elem_of_singleton in Hy as ->.
  - simpl in Hm. specialize (IH h eq_refl).
    destruct (le x h) eqn:Hxh; inversion Hm; subst.
    + apply elem_of_cons in Hy as [->|Hy]; [done|].
      apply (Htrans _ h); [done|by apply IH].
    + apply elem_of_cons in Hy as [->|Hy]; [by apply Htotal|by apply IH].
Qed.

Lemma NoDup_fmap_inj_on {A B} (f : A -> B) (l : list A) x y :
  NoDup (f <$> l) -> x ∈ l -> y ∈ l -> f x = f y -> x = y.
Proof.
  induction l as [|a l IH]; intros Hnd Hx Hy Hf.
  { by apply elem_of_nil in Hx. }
  rewrite fmap_cons in Hnd. apply NoDup_cons in Hnd as [Ha Hnd].
  apply elem_of_cons in Hx as [->|Hx]; apply elem_of_cons in Hy as [->|Hy]; auto.
  - destruct Ha. rewrite Hf. by apply list_elem_of_fmap_2.
  - destruct Ha. rewrite <- Hf. by apply list_elem_of_fmap_2.
Qed.

Lemma choose_primary_least rows r :
  MergeDuplicates.choose_primary rows = Some r ->
  r ∈ rows /\
  forall x, x ∈ rows ->
    MergeDuplicates.key_le (MergeDuplicates.key r) (MergeDuplicates.key x) = true.
Proof.
  intros Hr. split; [by apply head_order_by_elem in Hr|].
  apply (head_order_by_least
           (fun r1 r2 => MergeDuplicates.key_le (MergeDuplicates.key r1)
                           (MergeDuplicates.key r2)) rows r); [| |done].
  - intros a b. apply key_le_total.
  - intros a b c. apply key_le_trans.
Qed.

(** X24. [choose_primary] fails only on an empty group; otherwise it
    returns a member of the group such that no candidate has a better
    student-ID score, and such that it has an RFID tag whenever some
    candidate with the same score has one. *)
Theorem choose_primary_picks_best rows :
  (MergeDuplicates.choose_primary rows = None <-> rows = []) /\
  forall r, MergeDuplicates.choose_primary rows = Some r ->
    r ∈ rows /\
    forall x, x ∈ rows ->
      MergeDuplicates.id_score (MergeDuplicates.student_id r) <=
        MergeDuplicates.id_score (MergeDuplicates.student_id x) /\
      (MergeDuplicates.id_score (MergeDuplicates.student_id x) =
         MergeDuplicates.id_score (MergeDuplicates.student_id r) ->
       MergeDuplicates.truthy (MergeDuplicates.rfid x) = true ->
       MergeDuplicates.truthy (MergeDuplicates.rfid r) = true).
Proof.
  split; [apply head_order_by_None|].
  intros r Hr. destruct (choose_primary_least rows r Hr) as [Hin Hleast].
  split; [done|]. intros x Hx. specialize (Hleast x Hx).
  unfold MergeDuplicates.key_le, MergeDuplicates.key in Hleast.
  destruct (Z.ltb_spec (MergeDuplicates.id_score (MergeDuplicates.student_id r))
              (MergeDuplicates.id_score (MergeDuplicates.student_id x))) as [Hlt|Hge].
  { split; [lia|]. intros Heq. lia. }
  destruct (Z.ltb_spec (MergeDuplicates.id_score (MergeDuplicates.student_id x))
              (MergeDuplicates.id_score (MergeDuplicates.student_id r))) as [|Hle];
    [done|].
  split; [lia|]. intros _ Hx_rfid. rewrite Hx_rfid in Hleast.
  destruct (MergeDuplicates.truthy (MergeDuplicates.rfid r)); [done|].
  by simpl in Hleast.
Qed.

(** X25. When the candidates have distinct primary keys, the record that
    [choose_primary] returns does not depend on the order in which the
    candidates are listed. *)
Theorem choose_primary_order_independent rows rows'
    (Hperm : Permutation rows rows')
    (Hids : NoDup (MergeDuplicates.id <$> rows)) :
  MergeDuplicates.choose_primary rows = MergeDuplicates.choose_primary rows'.
Proof.
  destruct (MergeDuplicates.choose_primary rows) as [r|] eqn:Hr;
    destruct (MergeDuplicates.choose_primary rows') as [r'|] eqn:Hr'; [| | |done].
  - destruct (choose_primary_least rows r Hr) as [Hin Hleast].
    destruct (choose_primary_least rows' r' Hr') as [Hin' Hleast'].
    assert (r ∈ rows') as Hin_r by by rewrite <- Hperm.
    rewrite <- Hperm in Hin'.
    f_equal. apply (NoDup_fmap_inj_on MergeDuplicates.id rows); [done..|].
    assert (MergeDuplicates.key r = MergeDuplicates.key r') as Hkey.
    { apply key_le_antisym; [by apply Hleast|by apply Hleast']. }
    unfold MergeDuplicates.key in Hkey. by inversion Hkey.
  - apply head_order_by_None in Hr'. subst rows'. apply Permutation_nil_r in Hperm.
    subst rows. done.
  - apply head_order_by_None in Hr. subst rows. apply Permutation_nil in Hperm.
    subst rows'. done.
Qed.

Lemma choose_primary_order_independent_witness :
  MergeDuplicates.choose_primary
    [MergeDuplicates.registered_2024; MergeDuplicates.registered_2025] =
  MergeDuplicates.choose_primary
    [MergeDuplicates.registered_2025; MergeDuplicates.registered_2024].
Proof.
  apply choose_primary_order_independent.
  - apply perm_swap.
  - apply (bool_decide_unpack _). reflexivity.
Defined.

(** ** The two stale-session closers *)

Lemma is_stale_open_until today s : is_stale today s = is_open_until (today - 1) s.
Proof.
  unfold is_stale, is_open_until.
  destruct (is_active s), (is_completed s); simpl; try done.
  destruct (Z.ltb_spec (date s) today), (Z.leb_spec (date s) (today - 1)); try done; lia.
Qed.

Lemma minutes_of_seconds d :
  0 <= d -> minutes_trunc d = Z.max 0 (Z.quot d us_per_second) / 60.
Proof.
  intros Hd. unfold minutes_trunc.
  rewrite !Z.quot_div_nonneg by (done || reflexivity).
  assert (0 <= d / us_per_second) by (apply Z.div_pos; [done|reflexivity]).
  rewrite Z.max_r by done. rewrite Z.div_div by (reflexivity || done). done.
Qed.

Lemma close_rows_agree s :
  check_in_time s <= end_of_day (date s) ->
  pre_save (close_assign utc s) = sql_closed s.
Proof.
  intros Hsane. rewrite pre_save_close_assign. cbv zeta. unfold sql_closed.
  change (_end_of_day utc (date s)) with (end_of_day (date s) - 0).
  rewrite Z.sub_0_r. change (hours 2) with (120 * us_per_minute).
  f_equal. apply minutes_of_seconds.
  assert (0 <= 120 * us_per_minute) by (by vm_compute). lia.
Qed.

Lemma fold_sql_update_frame new_row qs db :
  students (fold_left (sql_update new_row) qs db) = students db /\
  daily_stats (fold_left (sql_update new_row) qs db) = daily_stats db.
Proof.
  revert db. induction qs as [|r qs IH]; intros db; [done|].
  cbn [fold_left]. destruct (IH (sql_update new_row db r)) as [-> ->]. done.
Qed.

Lemma db_eq db1 db2 :
  students db1 = students db2 -> gym_sessions db1 = gym_sessions db2 ->
  daily_stats db1 = daily_stats db2 -> db1 = db2.
Proof. destruct db1, db2. simpl. by intros -> -> ->. Qed.

Lemma closers_agree_closable now db :
  Forall (fun s => is_stale (datetime_date now) s = true ->
                   check_in_time s <= end_of_day (date s))
    (gym_sessions db) ->
  all_closable utc (datetime_date now) db.
Proof.
  intros Hsane. unfold all_closable. eapply Forall_impl; [exact Hsane|].
  intros s Hs Hst. specialize (Hs Hst). unfold closable.
  change (_end_of_day utc (date s)) with (end_of_day (date s) - 0).
  assert (0 < us_per_minute) by reflexivity. lia.
Qed.

(** X26. With the time zone set to UTC, the maintenance closer run today and
    the offline closer run with yesterday as cutoff leave the same store
    (sessions, statistics, students), provided no stale session was checked
    in after the end of its date; the maintenance closer then returns. *)
Theorem closers_agree now db
    (Hsane : Forall (fun s => is_stale (datetime_date now) s = true ->
                              check_in_time s <= end_of_day (date s))
               (gym_sessions db)) :
  (exists counts, (close_stale_sessions_before_today utc now db).1 = inr counts) /\
  (close_stale_sessions_before_today utc now db).2 =
  (close_open_sessions (datetime_date now - 1) db).2.
Proof.
  rewrite (close_stale_returns utc now db) by by apply closers_agree_closable.
  cbn [fst snd]. split; [by eexists|].
  assert (gym_sessions (closed_store utc (datetime_date now) db) =
          gym_sessions (close_open_sessions (datetime_date now - 1) db).2) as Hrows.
  { rewrite close_stale_sessions_map, close_open_sessions_map.
    apply list_eq. intros pk. rewrite !list_lookup_fmap.
    destruct (gym_sessions db !! pk) as [s|] eqn:Hl; [|done]. simpl. f_equal.
    unfold close_row, close_open_row. rewrite <- is_stale_open_until.
    destruct (is_stale (datetime_date now) s) eqn:Hst; [|done].
    apply close_rows_agree. by apply (proj1 (Forall_lookup _ _) Hsane pk s). }
  apply db_eq; [|done|].
  { rewrite (proj1 (close_stale_frame utc now db)).
    rewrite close_open_unfold. cbv zeta. cbn [snd].
    rewrite (proj2 (recompute_pairs_sessions _ _)).
    by rewrite (proj1 (fold_sql_update_frame _ _ _)). }
  apply map_eq. intros k.
  destruct (decide (k ∈ (fun r : nat * GymSession => (student r.2, date r.2))
                          <$> stale_sessions (datetime_date now) db)) as [Hin|Hnin].
  - apply list_elem_of_fmap in Hin as ([pk s] & -> & Hin). cbn [snd].
    apply stale_sessions_elem in Hin as Hs. destruct Hs as [Hl Hst].
    assert (stats_ok (closed_store utc (datetime_date now) db) (student s, date s))
      as Hok1.
    { unfold closed_store.
      by apply (loop_stats _ (close_assign_keeps_key utc) _ _ pk s (close_assign utc s));
        [apply query_rows_of|..]. }
    assert (stats_ok (close_open_sessions (datetime_date now - 1) db).2 (student s, date s))
      as Hok2.
    { rewrite close_open_unfold. cbv zeta. cbn [snd]. apply recompute_pairs_ok.
      apply elem_of_elements, elem_of_list_to_set, list_elem_of_fmap.
      exists (pk, s). split; [done|]. apply open_sessions_until_elem.
      by rewrite <- is_stale_open_until. }
    unfold stats_ok in Hok1, Hok2. by rewrite Hok1, Hok2, Hrows.
  - transitivity (daily_stats db !! k).
    + unfold closed_store.
      apply (loop_stats_other _ (close_assign_keeps_key utc)).
      intros pk s s' Hin _ Heq. apply Hnin. apply list_elem_of_fmap.
      by exists (pk, s).
    + symmetry. rewrite close_open_unfold. cbv zeta. cbn [snd].
      rewrite recompute_pairs_other.
      * by rewrite (proj2 (fold_sql_update_frame _ _ _)).
      * rewrite elem_of_elements, elem_of_list_to_set, list_elem_of_fmap.
        intros ([pk s] & -> & Hin). apply Hnin. apply list_elem_of_fmap.
        exists (pk, s). split; [done|].
        apply open_sessions_until_elem in Hin as [Hl Hopen].
        apply stale_sessions_elem. by rewrite is_stale_open_until.
Qed.

Lemma closers_agree_witness :
  (close_stale_sessions_before_today utc (at_time (day0 + 1) 8 0 0) forgotten_db).2 =
  (close_open_sessions day0 forgotten_db).2.
Proof.
  apply (closers_agree (at_time (day0 + 1) 8 0 0) forgotten_db).
  repeat constructor. intros _. vm_compute. discriminate.
Defined.

(** ** The remaining minutes *)

(** X27. [can_check_in] returns a remaining time that is never negative and
    is positive exactly when the check-in is allowed; with an active session
    it answers [(False, 0)], without one the remaining time is
    [max(0, 120 - minutes completed on the day)]. Hence the daily-limit error
    of the serializer always reports 0 remaining minutes. *)
Theorem can_check_in_remaining db st d :
  0 <= (can_check_in db st d).2 /\
  ((can_check_in db st d).1 = true <-> 0 < (can_check_in db st d).2) /\
  (has_active_session db st -> can_check_in db st d = (false, 0)) /\
  (~ has_active_session db st ->
     (can_check_in db st d).2 = Z.max 0 (120 - get_daily_gym_time db st d)) /\
  (forall now sid remaining,
     validate db now sid CHECK_IN = inl (daily_limit_reached remaining) ->
     remaining = 0).
Proof.
  assert (0 <= (can_check_in db st d).2 /\
          ((can_check_in db st d).1 = true <-> 0 < (can_check_in db st d).2)) as [H1 H2].
  { unfold can_check_in. destruct (active_session db st); simpl; [split; [done|]|].
    - split; [done|lia].
    - rewrite Z.ltb_lt. split; lia. }
  split; [done|]. split; [done|]. split; [|split].
  - intros Hact. apply active_session_is_Some in Hact as [r Hr].
    unfold can_check_in. by rewrite Hr.
  - intros Hno. apply active_session_None in Hno. unfold can_check_in. by rewrite Hno.
  - intros now sid remaining. unfold validate.
    destruct (get_student db sid) as [st'|]; [|done].
    destruct (active_session db st') eqn:Hact; [done|].
    unfold can_check_in. rewrite Hact.
    destruct (Z.ltb_spec 0 (120 - get_daily_gym_time db st' (datetime_date now)));
      [done|].
    intros [= <-]. lia.
Qed.

(** ** The aggregates after the operations that recompute them *)

Lemma tap_check_out_ok db now st data db' session :
  tap db now st = (TAP_200_OK data, db') ->
  tap_completed_session data = Some session ->
  stats_ok db' (st, date session).
Proof.
  unfold tap. destruct (can_check_in db st (datetime_date now)) as [can rem].
  destruct (active_session db st) as [[pk s]|].
  - destruct (save pk (set_check_out_time (Some now) s) db) as [e|db1]; [done|].
    destruct (can_check_in _ st (datetime_date now)) as [can' rem'].
    intros [= <- <-]. cbn [tap_completed_session]. intros [= <-].
    apply update_daily_stats_ok.
  - destruct can; [|done].
    destruct (create st now (datetime_date now) db) as [[pk' s'] db1].
    destruct (can_check_in _ st (datetime_date now)) as [can' rem'].
    by intros [= <- <-].
Qed.

(** X28. The recomputation writes, under the key (student, date), the count
    and the summed [duration_minutes] of the student's sessions on that date
    that have a check-out time, whatever the row held before and whether or
    not it existed. After a successful check-out, through the endpoint or
    by an RFID tap, after the stale-session closer and after the capper of
    the daily maintenance, the row of every (student, date) whose session
    was changed holds exactly these totals for the sessions table as the
    operation left it. *)
Theorem daily_stats_follow_sessions tz now db :
  (forall st d,
     let db' := update_daily_stats st d db in
     gym_sessions db' = gym_sessions db /\
     daily_stats db' !! (st, d) =
       Some (mkDailyGymStats
               (Z.of_nat (length (List.filter (completed_on st d) (gym_sessions db))))
               (sum_minutes (List.filter (completed_on st d) (gym_sessions db))))) /\
  (forall sid session minutes db',
     post db now sid CHECK_OUT = (HTTP_200_OK session minutes, db') ->
     stats_ok db' (student session, date session)) /\
  (forall st data db' session,
     tap db now st = (TAP_200_OK data, db') ->
     tap_completed_session data = Some session ->
     stats_ok db' (st, date session)) /\
  (forall pk s,
     let db' := (close_stale_sessions_before_today tz now db).2 in
     gym_sessions db !! pk = Some s -> gym_sessions db' !! pk ≠ Some s ->
     stats_ok db' (student s, date s)) /\
  (forall pk s,
     let db' := (cap_sessions_on_previous_days_to_two_hours tz now db).2 in
     gym_sessions db !! pk = Some s -> gym_sessions db' !! pk ≠ Some s ->
     stats_ok db' (student s, date s)).
Proof.
  split; [|split; [|split; [|split]]].
  - intros st d db'. split; [done|]. apply update_daily_stats_ok.
  - intros sid session minutes db' Hpost.
    apply post_check_out_ok in Hpost as (st & pk & s & _ & Hact & _ & -> & -> & _).
    apply active_session_Some in Hact as (_ & <- & _).
    apply update_daily_stats_ok.
  - intros st data db' session. apply tap_check_out_ok.
  - intros pk s db' Hl Hne. unfold db' in *.
    destruct (close_stale_store tz now db) as [Heq|Heq]; rewrite Heq in *; [|done].
    unfold closed_store.
    apply (loop_stats _ (close_assign_keeps_key tz) _ _ pk s (close_assign tz s));
      [apply query_rows_of| |done].
    by apply (close_stale_changed tz).
  - intros pk s db' Hl Hne. unfold db'. rewrite cap_db.
    destruct (cap_changed tz now db pk s Hl Hne) as [Hin [s' Hs']].
    apply (loop_stats _ (cap_assign_keeps_key tz) _ _ pk s s');
      [apply query_rows_of|done..].
Qed.

(** After the closer has closed the forgotten session, the student's row
    for that day counts one session of 120 minutes. *)
Lemma daily_stats_follow_sessions_witness :
  daily_stats
    (close_stale_sessions_before_today utc (at_time (day0 + 1) 8 0 0) forgotten_db).2
    !! (0%nat, day0) = Some (mkDailyGymStats 1 120).
Proof.
  apply (proj1 (proj2 (proj2 (proj2 (daily_stats_follow_sessions utc
                                       (at_time (day0 + 1) 8 0 0) forgotten_db))))
           0%nat forgotten_session).
  - reflexivity.
  - discriminate.
Defined.

(** ** The closer when every selected session can be closed *)

Lemma stale_keys today db :
  (list_to_set ((fun r : nat * GymSession => (student r.2, date r.2))
                  <$> stale_sessions today db) : gset (nat * Z)) =
  list_to_set ((fun s => (student s, date s))
                 <$> List.filter (is_stale today) (gym_sessions db)).
Proof.
  apply set_eq. intros k. rewrite !elem_of_list_to_set, !list_elem_of_fmap. split.
  - intros ([pk s] & -> & Hin). apply stale_sessions_elem in Hin as [Hl Hst].
    exists s. split; [done|]. apply list_elem_of_In, filter_In. split; [|done].
    apply list_elem_of_In. by apply list_elem_of_lookup_2 in Hl.
  - intros (s & -> & Hin). apply list_elem_of_In, filter_In in Hin as [Hin Hst].
    apply list_elem_of_In, list_elem_of_lookup_1 in Hin as [pk Hl].
    exists (pk, s). split; [done|]. by apply stale_sessions_elem.
Qed.

(** X29. When every session that the closer selects can be closed (none was
    checked in a minute or more after the end of its date in the time
    zone), the closer returns the number of sessions that are active, have
    no check-out and are dated before today, and the number of their
    (student, date) pairs. It rewrites exactly these rows: such a row gets
    [check_out_time = min(check_in + 120 min, 23:59:59 of its date)], is
    marked inactive and stores the whole minutes between check-in and that
    check-out, which are not negative; every other row is left as it was. *)
Theorem close_stale_closes_at_smaller_bound tz now db
    (Hclosable : all_closable tz (datetime_date now) db) :
  let today := datetime_date now in
  let selected (s : GymSession) :=
    is_active s && negb (is_completed s) && (date s <? today) in
  let run := close_stale_sessions_before_today tz now db in
  run.1 =
    inr (length (List.filter selected (gym_sessions db)),
         size (list_to_set ((fun s => (student s, date s))
                              <$> List.filter selected (gym_sessions db))
               : gset (nat * Z))) /\
  forall pk s, gym_sessions db !! pk = Some s ->
    let new_checkout :=
      Z.min (check_in_time s + 120 * us_per_minute) (_end_of_day tz (date s)) in
    gym_sessions run.2 !! pk =
      Some (if selected s
            then mkGymSession (student s) (check_in_time s) (Some new_checkout)
                   (minutes_trunc (new_checkout - check_in_time s)) (date s) false
            else s) /\
    (selected s = true -> 0 <= minutes_trunc (new_checkout - check_in_time s)).
Proof.
  intros today selected run. unfold run.
  rewrite (close_stale_returns tz now db Hclosable). cbn [fst snd]. split.
  - by rewrite stale_sessions_length, stale_keys.
  - intros pk s Hrow. split.
    + by rewrite (close_stale_lookup tz now db pk s Hrow).
    + intros Hsel.
      pose proof (proj1 (Forall_lookup _ _) Hclosable pk s Hrow Hsel) as Hs.
      apply saves_close_assign in Hs. by apply Z.leb_le in Hs.
Qed.

(** The session checked in at 09:00 and forgotten is closed at 11:00, the
    smaller of 11:00 and 23:59:59, with 120 minutes. *)
Lemma close_stale_closes_at_smaller_bound_witness :
  gym_sessions
    (close_stale_sessions_before_today utc (at_time (day0 + 1) 8 0 0) forgotten_db).2
    !! 0%nat =
  Some (mkGymSession 0 (at_time day0 9 0 0) (Some (at_time day0 11 0 0)) 120 day0 false).
Proof.
  assert (all_closable utc (datetime_date (at_time (day0 + 1) 8 0 0)) forgotten_db)
    as Hclosable.
  { repeat constructor. }
  exact (proj1 (proj2 (close_stale_closes_at_smaller_bound utc (at_time (day0 + 1) 8 0 0)
                         forgotten_db Hclosable) 0%nat forgotten_session eq_refl)).
Defined.

Lemma closed_store_not_stale tz now db :
  Forall (fun s => is_stale (datetime_date now) s = false)
    (gym_sessions (closed_store tz (datetime_date now) db)).
Proof.
  rewrite close_stale_sessions_map. apply Forall_fmap, Forall_true. intros s. simpl.
  apply close_row_not_stale.
Qed.

(** X30. Running the closer a second time on the same day leaves the store
    of the first run. After a run that returned, the second run returns
    zero sessions closed on zero days; after a run that raised, which left
    the store as it was, the second run raises again. *)
Theorem close_stale_idempotent tz now1 now2 db
    (Hsame_day : datetime_date now2 = datetime_date now1) :
  let first := close_stale_sessions_before_today tz now1 db in
  let second := close_stale_sessions_before_today tz now2 first.2 in
  second.2 = first.2 /\
  (forall counts, first.1 = inr counts -> second = (inr (O, O), first.2)) /\
  (forall e, first.1 = inl e -> first.2 = db /\ second = first).
Proof.
  intros first second. unfold second, first.
  rewrite (close_stale_unfold tz now1 db). cbv zeta.
  destruct (forallb _ _) eqn:Hall; cbn [fst snd].
  - rewrite close_stale_nothing_to_do
      by (rewrite Hsame_day; apply closed_store_not_stale).
    done.
  - assert (close_stale_sessions_before_today tz now2 db = (inl IntegrityError, db))
      as ->; [|done].
    rewrite close_stale_unfold. cbv zeta. by rewrite Hsame_day, Hall.
Qed.

Lemma close_stale_idempotent_witness :
  (close_stale_sessions_before_today utc (at_time (day0 + 1) 9 0 0)
     (close_stale_sessions_before_today utc (at_time (day0 + 1) 8 0 0) forgotten_db).2).2 =
  (close_stale_sessions_before_today utc (at_time (day0 + 1) 8 0 0) forgotten_db).2.
Proof.
  apply (close_stale_idempotent utc (at_time (day0 + 1) 8 0 0) (at_time (day0 + 1) 9 0 0)).
  reflexivity.
Defined.
